(** * MarkMirror wall-dashboard server: the energy telemetry pipeline

    A shallow embedding of the energy pipeline of [src/server.js]
    (gateway polling, day baselines, derived metrics, alerts, hourly
    analytics, SSE fan-out) together with the properties its
    specification states about it.

    Conventions of the embedding.
    - A JavaScript number is modelled by the rational it stands for, a
      finite binary64 number: integer watts (the results of [Math.round])
      by [Z], every other number by [Q].
    - The quotients, products and sums of the derived metrics and of the
      hourly roll-up (percentages, kWh figures, means, energy totals, the
      totals of the summary) round their exact result to the nearest
      binary64 number as IEEE 754 prescribes ([double]: ties to even,
      subnormal numbers included). Taken exact are the sums and
      differences of integer watts (binary64 is exact on integers below
      2^53), the differences of cumulative counters and their baseline,
      and the means of the analytics summary, which are means of
      integers. [NaN], the infinities and overflow are outside the model.
    - Timestamps ([new Date().toISOString()], [Date.now()]) are
      milliseconds since the epoch, in [Z].
    - Module-level variables of the server ([alerts], [history],
      [analytics], [sseClients], [cachedData], the SQLite tables, the JSON
      files) are the fields of one explicit [Server] state that every
      handler threads through. *)

From Stdlib Require Import ZArith QArith Qround Qminmax Qabs Qpower Lia Lqa.
From Stdlib Require Import DecimalString.
From Stdlib Require DecimalPos DecimalN Qcanon.
From Stdlib Require PrimFloat FloatOps SpecFloat Uint63.
From stdpp Require Import base list strings gmap.

Local Open Scope Z_scope.

(** ** JavaScript numeric primitives *)

(** [Math.round(x)]: the nearest integer, a tie going to the larger one. *)
Definition jsRound (x : Q) : Z := Qfloor (x + (1 # 2)).

(** [Math.max(0, Math.min(100, p))] on integers. *)
Definition clampPercent (p : Z) : Z := Z.max 0 (Z.min 100 p).

(** *** binary64 arithmetic

    The code computes on IEEE 754 doubles. A finite double is the rational
    it stands for, and an arithmetic operation returns the double nearest
    to its exact result. *)

(** [2^k] for an integer [k] of either sign. *)
Definition pow2 (k : Z) : Q := Qpower 2 k.

(** For a positive [x], the exponent [e] with [2^e <= x < 2^(e+1)]. *)
Definition ilog2 (x : Q) : Z :=
  let e0 := Z.log2 (Qnum x) - Z.log2 (Zpos (Qden x)) in
  if Qle_bool (pow2 e0) x then e0 else e0 - 1.

(** The nearest integer, a tie going to the even one. *)
Definition roundHalfEven (x : Q) : Z :=
  let f := Qfloor x in
  match (x - inject_Z f ?= 1 # 2)%Q with
  | Lt => f
  | Gt => f + 1
  | Eq => if Z.even f then f else f + 1
  end.

(** Rounding to binary64 (round to nearest, ties to even): a number in the
    binade [2^e, 2^(e+1)) is rounded to a multiple of [2^(e-52)], so that
    the significand has 53 bits; below [2^-1022] the spacing stays
    [2^-1074], the subnormal numbers. The result is in lowest terms. *)
Definition double (x : Q) : Q :=
  let x := Qred x in
  if Qeq_bool x 0 then 0%Q
  else
    let e := ilog2 (Qabs x) in
    let q := Z.max (e - 52) (-1074) in
    Qred (inject_Z (roundHalfEven (x / pow2 q)) * pow2 q).

(** Half the spacing of the subnormal numbers. *)
Definition tiny : Q := pow2 (-1075).

(** [x + y], [x * y] and [x / y] on doubles. *)
Definition fadd (x y : Q) : Q := double (x + y).
Definition fmul (x y : Q) : Q := double (x * y).
Definition fdiv (x y : Q) : Q := double (x / y).

(** *** [double] against the kernel's binary64 numbers

    Rocq's primitive floating-point numbers are binary64 numbers computed
    by the machine. The definitions below compute the expressions of the
    pipeline on them, to check [double] against. *)

(** The binary64 number of an integer below [2^53] in magnitude. *)
Definition floatOfZ (n : Z) : PrimFloat.float :=
  if n <? 0 then PrimFloat.opp (PrimFloat.of_uint63 (Uint63.of_Z (- n)))
  else PrimFloat.of_uint63 (Uint63.of_Z n).

(** The rational a finite binary64 number stands for, in lowest terms. *)
Definition valueOf (f : PrimFloat.float) : option Q :=
  match FloatOps.Prim2SF f with
  | SpecFloat.S754_zero _ => Some 0%Q
  | SpecFloat.S754_finite s m e =>
      Some (Qred (inject_Z (if s then Z.neg m else Z.pos m) * pow2 e))
  | _ => None
  end.

Definition sameNumber (f : PrimFloat.float) (x : Q) : bool :=
  match valueOf f with
  | Some y => Qeq_bool y x
  | None => false
  end.

(** The [n] integers from [lo] on. *)
Definition integersFrom (lo : Z) (n : nat) : list Z :=
  (fun k => lo + Z.of_nat k) <$> seq 0 n.

(** [(a / b) * 100], [wh / 1e6], [p / 3600 / 1000] and a running sum of
    such terms, computed both ways. *)
Definition percentAgrees (a b : Z) : bool :=
  sameNumber
    (PrimFloat.mul (PrimFloat.div (floatOfZ a) (floatOfZ b)) (floatOfZ 100))
    (fmul (fdiv (inject_Z a) (inject_Z b)) 100).

Definition kwhAgrees (wh : Z) : bool :=
  sameNumber (PrimFloat.div (floatOfZ wh) (floatOfZ 1000000))
             (fdiv (inject_Z wh) 1000000).

Definition energyAgrees (p : Z) : bool :=
  sameNumber
    (PrimFloat.div (PrimFloat.div (floatOfZ p) (floatOfZ 3600)) (floatOfZ 1000))
    (fdiv (fdiv (inject_Z p) 3600) 1000).

Definition sumAgrees (ps : list Z) : bool :=
  sameNumber
    (foldl (fun sum p =>
              PrimFloat.add sum
                (PrimFloat.div (PrimFloat.div (floatOfZ p) (floatOfZ 3600))
                               (floatOfZ 1000)))
           (floatOfZ 0) ps)
    (foldl (fun sum p => fadd sum (fdiv (fdiv (inject_Z p) 3600) 1000)) 0%Q ps).

(** Halving an odd multiple of the smallest subnormal number: a tie. *)
Definition subnormalAgrees (k : Z) : bool :=
  sameNumber
    (PrimFloat.div (PrimFloat.mul (floatOfZ k) (FloatOps.Z.ldexp (floatOfZ 1) (-1074)))
                   (floatOfZ 2))
    (fdiv (fmul (inject_Z k) (pow2 (-1074))) 2).

(** [Math.round((a / b) * 100)]. *)
Definition roundedPercentOf (a b : Q) : Z := jsRound (fmul (fdiv a b) 100).

(** The decimal digits of a non-negative integer ("0" for zero). *)
Definition decimalDigits (n : Z) : string :=
  NilZero.string_of_uint (N.to_uint (Z.to_N n)).

(** What a dashboard field holding a kWh figure can be: the number literal
    it is initialised with, the text [toFixed(1)] renders, or, from 1e21
    on, the exponent notation of [ToString] (whose digits are not
    modelled; the value is kept). *)
Inductive KwhField : Type :=
  | KwhNumber (n : Z)
  | KwhFixed (text : string)
  | KwhExponent (x : Q).

(** [x.toFixed(1)] (ECMA-262, Number.prototype.toFixed with one fraction
    digit): the sign is split off, the magnitude is rounded to the nearest
    tenth with a tie going to the larger one, and the digits are printed
    with one digit after the point. *)
Definition toFixed1 (x : Q) : KwhField :=
  let s := if Qlt_le_dec x 0 then "-"%string else ""%string in
  let m := Qabs x in
  if Qlt_le_dec m (inject_Z (10 ^ 21)) then
    let n := Qfloor (m * 10 + (1 # 2)) in
    KwhFixed (s +:+ decimalDigits (n / 10) +:+ "." +:+ decimalDigits (n mod 10))
  else KwhExponent x.

(** ** Telemetry normalisation (fetchPowerwallData, first half) *)

(** Lines 1080-1089: the instantaneous self-powered percentage, from the
    rounded load and grid powers. *)
Definition selfPoweredPercent (loadPower gridPower : Z) : Z :=
  if 0 <? loadPower then
    let gridSupplied := Z.max 0 gridPower in
    clampPercent
      (roundedPercentOf (inject_Z (loadPower - gridSupplied)) (inject_Z loadPower))
  else 0.

(** Lines 1091-1098: the battery status string. *)
Definition batteryStatus (batteryPower : Z) : string :=
  if 10 <? batteryPower then "discharging"
  else if batteryPower <? -10 then "charging"
  else "standby".

(** ** The gateway's answer *)

(** One meter of [/api/meters/aggregates]: the fields the pipeline reads.
    (Voltages and currents are copied through to the dashboard and play
    no part in what follows.) *)
Record Meter : Type := {
  instant_power : Q;
  energy_exported : Q;
  energy_imported : Q
}.

(** [agg] (solar, battery, load, site) and the state of energy. *)
Record Gateway : Type := {
  agg_solar : Meter;
  agg_battery : Meter;
  agg_load : Meter;
  agg_site : Meter;
  soe_percentage : Q
}.

(** Lines 1101-1106: the six cumulative counters. *)
Record Counters : Type := {
  cumSolar : Q;
  cumBatteryOut : Q;
  cumBatteryIn : Q;
  cumGridIn : Q;
  cumGridOut : Q;
  cumLoad : Q
}.

Definition countersOf (g : Gateway) : Counters :=
  {| cumSolar := energy_exported (agg_solar g);
     cumBatteryOut := energy_exported (agg_battery g);
     cumBatteryIn := energy_imported (agg_battery g);
     cumGridIn := energy_imported (agg_site g);
     cumGridOut := energy_exported (agg_site g);
     cumLoad := energy_imported (agg_load g) |}.

(** ** Persistent store: the daily_baselines table *)

(** A row of [daily_baselines] without its key. The columns are nullable
    REALs, hence [option]. *)
Record BaselineRow : Type := {
  solar_exported_wh : option Q;
  battery_exported_wh : option Q;
  battery_imported_wh : option Q;
  grid_imported_wh : option Q;
  grid_exported_wh : option Q;
  load_imported_wh : option Q
}.

(** [date TEXT PRIMARY KEY]: the table is a finite map from the date key
    to the row. *)
Abbreviation Baselines := (gmap string BaselineRow).

(** The row [insertBaseline.run(todayKey, cumSolar, ...)] binds. *)
Definition baselineRowOf (c : Counters) : BaselineRow :=
  {| solar_exported_wh := Some (cumSolar c);
     battery_exported_wh := Some (cumBatteryOut c);
     battery_imported_wh := Some (cumBatteryIn c);
     grid_imported_wh := Some (cumGridIn c);
     grid_exported_wh := Some (cumGridOut c);
     load_imported_wh := Some (cumLoad c) |}.

(** Line 95: [SELECT * FROM daily_baselines WHERE date = ?]. *)
Definition getBaseline (tbl : Baselines) (date : string) : option BaselineRow :=
  tbl !! date.

(** Line 94: [INSERT OR REPLACE INTO daily_baselines ...]. *)
Definition insertBaseline (date : string) (c : Counters) (tbl : Baselines)
  : Baselines :=
  <[date := baselineRowOf c]> tbl.

(** Lines 1108-1115. [dbWrite] tells whether the insert statement runs to
    completion; when it throws, the exception leaves the table as it was
    and reaches the [catch] of fetchPowerwallData ([None] here). *)
Definition trackBaseline (dbWrite : bool) (todayKey : string) (c : Counters)
    (tbl : Baselines) : Baselines * option BaselineRow :=
  match getBaseline tbl todayKey with
  | Some baseline => (tbl, Some baseline)
  | None =>
      if dbWrite then
        let tbl' := insertBaseline todayKey c tbl in
        (tbl', getBaseline tbl' todayKey)
      else (tbl, None)
  end.

(** ** Baseline tracker: day-to-date deltas *)

(** [v || 0] on a nullable number. *)
Definition orZero (v : option Q) : Q :=
  match v with Some x => x | None => 0%Q end.

Record DayDeltas : Type := {
  daySolar : Q;
  dayBattery : Q;
  dayGrid : Q;
  dayLoad : Q
}.

(** Lines 1117-1120. *)
Definition dayDeltas (c : Counters) (baseline : BaselineRow) : DayDeltas :=
  {| daySolar := Qmax 0 (cumSolar c - orZero (solar_exported_wh baseline));
     dayBattery := Qmax 0 (cumBatteryOut c - orZero (battery_exported_wh baseline));
     dayGrid := Qmax 0 (cumGridIn c - orZero (grid_imported_wh baseline));
     dayLoad := Qmax 0 (cumLoad c - orZero (load_imported_wh baseline)) |}.

(** The four channels, to speak about them uniformly. *)
Inductive Channel : Type := Solar | Battery | Grid | Load.

Definition cumOf (ch : Channel) (c : Counters) : Q :=
  match ch with
  | Solar => cumSolar c
  | Battery => cumBatteryOut c
  | Grid => cumGridIn c
  | Load => cumLoad c
  end.

Definition baselineOf (ch : Channel) (b : BaselineRow) : option Q :=
  match ch with
  | Solar => solar_exported_wh b
  | Battery => battery_exported_wh b
  | Grid => grid_imported_wh b
  | Load => load_imported_wh b
  end.

Definition deltaOf (ch : Channel) (d : DayDeltas) : Q :=
  match ch with
  | Solar => daySolar d
  | Battery => dayBattery d
  | Grid => dayGrid d
  | Load => dayLoad d
  end.

(** A run of polls on one date key: each poll tracks the baseline and
    derives its deltas; a poll whose baseline step throws yields nothing. *)
Fixpoint dayDeltaRun (todayKey : string) (tbl : Baselines)
    (polls : list (bool * Counters)) : Baselines * list (option DayDeltas) :=
  match polls with
  | [] => (tbl, [])
  | (dbWrite, c) :: rest =>
      let '(tbl1, baseline) := trackBaseline dbWrite todayKey c tbl in
      let '(tbl2, ds) := dayDeltaRun todayKey tbl1 rest in
      (tbl2, (dayDeltas c <$> baseline) :: ds)
  end.

(** The baselines the same run hands to its polls. *)
Fixpoint baselineRun (todayKey : string) (tbl : Baselines)
    (polls : list (bool * Counters)) : Baselines * list (option BaselineRow) :=
  match polls with
  | [] => (tbl, [])
  | (dbWrite, c) :: rest =>
      let '(tbl1, baseline) := trackBaseline dbWrite todayKey c tbl in
      let '(tbl2, bs) := baselineRun todayKey tbl1 rest in
      (tbl2, baseline :: bs)
  end.

(** ** Metrics deriver (fetchPowerwallData, lines 1122-1134) *)

Record DailyBreakdown : Type := {
  solarPct : Z;
  batteryPct : Z;
  gridPct : Z;
  solarKwh : KwhField;
  batteryKwh : KwhField;
  gridKwh : KwhField;
  loadKwh : KwhField
}.

(** [dailyBreakdown]: the object literal of line 1123, overwritten field by
    field when [dayLoad > 0]. *)
Definition dailyBreakdown (d : DayDeltas) : DailyBreakdown :=
  if Qlt_le_dec 0 (dayLoad d) then
    {| solarPct := roundedPercentOf (daySolar d) (dayLoad d);
       batteryPct := roundedPercentOf (dayBattery d) (dayLoad d);
       gridPct := roundedPercentOf (dayGrid d) (dayLoad d);
       solarKwh := toFixed1 (fdiv (daySolar d) 1000000);
       batteryKwh := toFixed1 (fdiv (dayBattery d) 1000000);
       gridKwh := toFixed1 (fdiv (dayGrid d) 1000000);
       loadKwh := toFixed1 (fdiv (dayLoad d) 1000000) |}
  else
    {| solarPct := 0; batteryPct := 0; gridPct := 0;
       solarKwh := KwhNumber 0; batteryKwh := KwhNumber 0;
       gridKwh := KwhNumber 0; loadKwh := KwhNumber 0 |}.

(** [dailySelfPowered]: starts as the instantaneous value (line 1122) and
    is replaced when [dayLoad > 0] (lines 1132-1133). *)
Definition dailySelfPowered (selfPoweredPercent : Z) (d : DayDeltas) : Z :=
  if Qlt_le_dec 0 (dayLoad d) then
    clampPercent
      (roundedPercentOf (fadd (daySolar d) (dayBattery d)) (dayLoad d))
  else selfPoweredPercent.

(** ** The reading (powerwallData, lines 1154-1197)

    The fields the rest of the pipeline reads. The voltages, currents,
    lifetime energy texts and the [system] block are copied from the
    gateway for display only. *)
Record Reading : Type := {
  timestamp : Z;
  grid_power : Z;
  battery_power : Z;
  battery_soe : Q;
  battery_status : string;
  load_power : Z;
  solar_power : Z;
  reading_selfPoweredPercent : Z;
  reading_dailyBreakdown : DailyBreakdown
}.

(** What one poll cycle finds outside the server: the gateway's answer
    ([None] when the login or a primary read fails or times out), the
    clock, and whether the two SQLite statements run to completion. *)
Record Env : Type := {
  gateway : option Gateway;
  todayKey : string;          (* new Date().toISOString().slice(0, 10) *)
  clockRequest : Z;           (* Date.now() on entering the route *)
  clockReading : Z;           (* the reading's timestamp *)
  clockStored : Z;            (* Date.now() for the retention cutoff *)
  baselineWrite : bool;       (* insertBaseline.run returns *)
  sampleWrite : bool          (* insertSample.run returns *)
}.

(** Lines 1030-1204. The extended status reads are best effort and feed
    only the [system] block. *)
Definition fetchPowerwallData (e : Env) (tbl : Baselines)
  : Baselines * option Reading :=
  match gateway e with
  | None => (tbl, None)
  | Some g =>
      let solarPower := jsRound (instant_power (agg_solar g)) in
      let batteryPower := jsRound (instant_power (agg_battery g)) in
      let loadPower := jsRound (instant_power (agg_load g)) in
      let gridPower := jsRound (instant_power (agg_site g)) in
      let c := countersOf g in
      match trackBaseline (baselineWrite e) (todayKey e) c tbl with
      | (tbl', None) => (tbl', None)
      | (tbl', Some baseline) =>
          let d := dayDeltas c baseline in
          (tbl',
           Some {| timestamp := clockReading e;
                   grid_power := gridPower;
                   battery_power := batteryPower;
                   battery_soe := soe_percentage g;
                   battery_status := batteryStatus batteryPower;
                   load_power := loadPower;
                   solar_power := solarPower;
                   reading_selfPoweredPercent :=
                     dailySelfPowered (selfPoweredPercent loadPower gridPower) d;
                   reading_dailyBreakdown := dailyBreakdown d |})
      end
  end.

(** ** Alerts, analytics entries and events *)

(** A template literal: its text pieces and the numbers spliced in. *)
Inductive Piece : Type :=
  | Text (s : string)
  | NumberQ (x : Q)
  | NumberZ (n : Z).

Record Alert : Type := {
  alert_id : string;
  alert_type : string;
  severity : string;
  title : string;
  message : list Piece;
  alert_timestamp : Z
}.

(** [settings.alerts]. *)
Record AlertSettings : Type := {
  batteryLow : Q;
  batteryHigh : Q;
  gridDown : bool;
  highLoad : Q;
  highTemp : Q;
  lowTemp : Q
}.

(** An element of [history]. *)
Record HistoryPoint : Type := {
  h_timestamp : Z;
  h_grid : Z;
  h_battery : Z;
  h_solar : Z;
  h_load : Z;
  h_soe : Q
}.

(** The object calculateHourlyAnalytics builds, flattened. *)
Record AnalyticsEntry : Type := {
  hour : Z;
  grid_avg : Z; grid_max : Z; grid_min : Z; grid_samples : nat;
  solar_avg : Z; solar_max : Z; solar_min : Z; solar_total : Q;
  load_avg : Z; load_max : Z; load_min : Z; load_total : Q;
  avgSoe : Z; maxSoe : Q; minSoe : Q
}.

(** A row of [power_samples]. *)
Record Sample : Type := {
  ts : Z;
  solar_w : Z;
  battery_w : Z;
  grid_w : Z;
  load_w : Z;
  sample_soe : Q;
  sample_status : string
}.

(** The payloads handed to broadcastUpdate. *)
Inductive Event : Type :=
  | EvPowerwall (data : Reading)
  | EvAlert (data : Alert)
  | EvAnalytics (data : AnalyticsEntry)
  | EvCodeUpdate (hash : string).

(** A live-view connection ([res]): who it is, and whether [write] on it
    throws. *)
Record Client : Type := {
  cid : nat;
  broken : bool
}.

(** The whole-document JSON snapshots under [data/]. *)
Inductive Json : Type :=
  | JsonAlerts (doc : list Alert)
  | JsonHistory (doc : list HistoryPoint)
  | JsonAnalytics (doc : list AnalyticsEntry).

Definition ALERTS_FILE : string := "alerts.json".
Definition HISTORY_FILE : string := "powerwall-history.json".
Definition ANALYTICS_FILE : string := "powerwall-analytics.json".

(** ** The server's state *)

Record Server : Type := {
  alerts : list Alert;
  history : list HistoryPoint;
  analytics : list AnalyticsEntry;
  settings_alerts : AlertSettings;
  sseClients : list Client;
  cached_powerwall : option Reading;     (* cachedData.powerwall *)
  lastUpdate_powerwall : option Z;       (* cachedData.lastUpdate.powerwall *)
  cached_temps : option Z;               (* cachedData.temps, its inside.temp *)
  daily_baselines : Baselines;
  power_samples : list Sample;
  files : gmap string Json;
  wire : list (nat * Event)              (* every frame written, oldest first *)
}.

Definition with_alerts (v : list Alert) (s : Server) : Server :=
  {| alerts := v; history := history s; analytics := analytics s;
     settings_alerts := settings_alerts s; sseClients := sseClients s;
     cached_powerwall := cached_powerwall s;
     lastUpdate_powerwall := lastUpdate_powerwall s;
     cached_temps := cached_temps s; daily_baselines := daily_baselines s;
     power_samples := power_samples s; files := files s; wire := wire s |}.

Definition with_history (v : list HistoryPoint) (s : Server) : Server :=
  {| alerts := alerts s; history := v; analytics := analytics s;
     settings_alerts := settings_alerts s; sseClients := sseClients s;
     cached_powerwall := cached_powerwall s;
     lastUpdate_powerwall := lastUpdate_powerwall s;
     cached_temps := cached_temps s; daily_baselines := daily_baselines s;
     power_samples := power_samples s; files := files s; wire := wire s |}.

Definition with_analytics (v : list AnalyticsEntry) (s : Server) : Server :=
  {| alerts := alerts s; history := history s; analytics := v;
     settings_alerts := settings_alerts s; sseClients := sseClients s;
     cached_powerwall := cached_powerwall s;
     lastUpdate_powerwall := lastUpdate_powerwall s;
     cached_temps := cached_temps s; daily_baselines := daily_baselines s;
     power_samples := power_samples s; files := files s; wire := wire s |}.

Definition with_connections (cl : list Client) (w : list (nat * Event))
    (s : Server) : Server :=
  {| alerts := alerts s; history := history s; analytics := analytics s;
     settings_alerts := settings_alerts s; sseClients := cl;
     cached_powerwall := cached_powerwall s;
     lastUpdate_powerwall := lastUpdate_powerwall s;
     cached_temps := cached_temps s; daily_baselines := daily_baselines s;
     power_samples := power_samples s; files := files s; wire := w |}.

Definition with_cache (r : option Reading) (at_ : option Z) (s : Server)
  : Server :=
  {| alerts := alerts s; history := history s; analytics := analytics s;
     settings_alerts := settings_alerts s; sseClients := sseClients s;
     cached_powerwall := r; lastUpdate_powerwall := at_;
     cached_temps := cached_temps s; daily_baselines := daily_baselines s;
     power_samples := power_samples s; files := files s; wire := wire s |}.

Definition with_baselines (tbl : Baselines) (s : Server) : Server :=
  {| alerts := alerts s; history := history s; analytics := analytics s;
     settings_alerts := settings_alerts s; sseClients := sseClients s;
     cached_powerwall := cached_powerwall s;
     lastUpdate_powerwall := lastUpdate_powerwall s;
     cached_temps := cached_temps s; daily_baselines := tbl;
     power_samples := power_samples s; files := files s; wire := wire s |}.

Definition with_samples (rows : list Sample) (s : Server) : Server :=
  {| alerts := alerts s; history := history s; analytics := analytics s;
     settings_alerts := settings_alerts s; sseClients := sseClients s;
     cached_powerwall := cached_powerwall s;
     lastUpdate_powerwall := lastUpdate_powerwall s;
     cached_temps := cached_temps s; daily_baselines := daily_baselines s;
     power_samples := rows; files := files s; wire := wire s |}.

(** Lines 128-130: [fs.writeFileSync(file, JSON.stringify(data))], for a
    write that returns. The call is not guarded: when it throws, the
    handler ends there, with the list already changed in memory and the
    file as it was. The handlers below are the handlers whose snapshot
    writes return. *)
Definition saveJSON (file : string) (data : Json) (s : Server) : Server :=
  {| alerts := alerts s; history := history s; analytics := analytics s;
     settings_alerts := settings_alerts s; sseClients := sseClients s;
     cached_powerwall := cached_powerwall s;
     lastUpdate_powerwall := lastUpdate_powerwall s;
     cached_temps := cached_temps s; daily_baselines := daily_baselines s;
     power_samples := power_samples s; files := <[file := data]> (files s);
     wire := wire s |}.

(** ** Broadcast fan-out (lines 204-212) *)

(** [Array.prototype.forEach] on an array its callback may mutate: the
    length is read once, the index runs from 0 below that length, and an
    index is visited when the array, as it is by then, still has it. The
    callback receives the element, the index, and the array with whatever
    else it writes. *)
Fixpoint forEachFrom {A St : Type}
    (callback : A -> nat -> list A * St -> list A * St)
    (remaining k : nat) (st : list A * St) : list A * St :=
  match remaining with
  | O => st
  | S n =>
      forEachFrom callback n (S k)
        (match st.1 !! k with
         | Some x => callback x k st
         | None => st
         end)
  end.

Definition forEach {A St : Type}
    (callback : A -> nat -> list A * St -> list A * St)
    (arr : list A) (st : St) : list A * St :=
  forEachFrom callback (length arr) 0 (arr, st).

(** The callback of broadcastUpdate: [client.write(...)], and on a throw
    [sseClients.splice(index, 1)]. *)
Definition writeOrDrop (data : Event) (client : Client) (index : nat)
    (st : list Client * list (nat * Event)) : list Client * list (nat * Event) :=
  if broken client then (delete index st.1, st.2)
  else (st.1, st.2 ++ [(cid client, data)]).

Definition broadcastUpdate (data : Event) (s : Server) : Server :=
  let '(cl, w) := forEach (writeOrDrop data) (sseClients s) (wire s) in
  with_connections cl w s.

(** ** Alert engine (lines 218-307, 408-412) *)

(** [arr.slice(-n)]: the last [n] elements. *)
Definition sliceLast {A : Type} (n : nat) (arr : list A) : list A :=
  drop (length arr - n) arr.

(** The candidates [newAlerts] of one evaluation, in the order pushed. *)
Definition newAlerts (now : Z) (st : AlertSettings) (powerwallData : Reading)
    (tempsData : option Z) : list Alert :=
  (if Qle_bool (battery_soe powerwallData) (batteryLow st) then
     [ {| alert_id := "battery-low"; alert_type := "warning"; severity := "high";
          title := "🔋 Battery Low";
          message := [Text "Battery at "; NumberQ (battery_soe powerwallData);
                      Text "% (threshold: "; NumberQ (batteryLow st); Text "%)"];
          alert_timestamp := now |} ]
   else [])
  ++ (if Qle_bool (batteryHigh st) (battery_soe powerwallData) then
     [ {| alert_id := "battery-high"; alert_type := "info"; severity := "low";
          title := "🔋 Battery Full";
          message := [Text "Battery at "; NumberQ (battery_soe powerwallData);
                      Text "% (threshold: "; NumberQ (batteryHigh st); Text "%)"];
          alert_timestamp := now |} ]
   else [])
  ++ (if gridDown st && (grid_power powerwallData <=? 0) then
     [ {| alert_id := "grid-down"; alert_type := "error"; severity := "critical";
          title := "⚡ Grid Down";
          message := [Text "Grid power is off - running on battery/solar only"];
          alert_timestamp := now |} ]
   else [])
  ++ (if Qle_bool (highLoad st) (inject_Z (load_power powerwallData)) then
     [ {| alert_id := "high-load"; alert_type := "warning"; severity := "medium";
          title := "📊 High Load";
          message := [Text "Load at "; NumberZ (load_power powerwallData);
                      Text "W (threshold: "; NumberQ (highLoad st); Text "W)"];
          alert_timestamp := now |} ]
   else [])
  ++ match tempsData with
     | None => []
     | Some inside =>
         (if Qle_bool (highTemp st) (inject_Z inside) then
            [ {| alert_id := "high-temp"; alert_type := "warning";
                 severity := "high"; title := "🌡️ High Temperature";
                 message := [Text "Inside temp at "; NumberZ inside;
                             Text "°F (threshold: "; NumberQ (highTemp st);
                             Text "°F)"];
                 alert_timestamp := now |} ]
          else [])
         ++ (if Qle_bool (inject_Z inside) (lowTemp st) then
            [ {| alert_id := "low-temp"; alert_type := "warning";
                 severity := "medium"; title := "🌡️ Low Temperature";
                 message := [Text "Inside temp at "; NumberZ inside;
                             Text "°F (threshold: "; NumberQ (lowTemp st);
                             Text "°F)"];
                 alert_timestamp := now |} ]
          else [])
     end.

(** The body of [newAlerts.forEach] (lines 295-300). *)
Definition raiseAlert (s : Server) (alert : Alert) : Server :=
  match List.find (fun a => String.eqb (alert_id a) (alert_id alert)) (alerts s) with
  | Some _ => s
  | None =>
      broadcastUpdate (EvAlert alert) (with_alerts (alerts s ++ [alert]) s)
  end.

Definition checkAlerts (now : Z) (powerwallData : Reading)
    (tempsData : option Z) (s : Server) : Server :=
  let s1 :=
    foldl raiseAlert s (newAlerts now (settings_alerts s) powerwallData tempsData) in
  let kept := sliceLast 100 (alerts s1) in
  saveJSON ALERTS_FILE (JsonAlerts kept) (with_alerts kept s1).

(** [DELETE /api/alerts/:id]. *)
Definition clearAlert (id : string) (s : Server) : Server :=
  let kept := filter (fun a => alert_id a <> id) (alerts s) in
  saveJSON ALERTS_FILE (JsonAlerts kept) (with_alerts kept s).

(** ** Analytics roll-up (lines 313-370) *)

(** [arr.reduce((a, b) => a + b, 0) / arr.length]. *)
Definition avg (arr : list Q) : Q :=
  fdiv (foldl fadd 0%Q arr) (inject_Z (Z.of_nat (length arr))).

(** [Math.max(...arr)] and [Math.min(...arr)] of an array given by its
    first element and the rest. *)
Definition maxOf (x : Z) (rest : list Z) : Z := foldl Z.max x rest.
Definition minOf (x : Z) (rest : list Z) : Z := foldl Z.min x rest.
Definition maxOfQ (x : Q) (rest : list Q) : Q := foldl Qmax x rest.
Definition minOfQ (x : Q) (rest : list Q) : Q := foldl Qmin x rest.

(** The [filter] of lines 317-320. *)
Definition hourWindow (now : Z) (hist : list HistoryPoint) : list HistoryPoint :=
  let hourAgo := now - 60 * 60 * 1000 in
  filter (fun h => hourAgo < h_timestamp h /\ h_timestamp h <= now) hist.

(** [reduce((sum, h) => sum + (h.x / 3600 / 1000), 0)]. *)
Definition energyTotal (power : HistoryPoint -> Z) (hourlyData : list HistoryPoint)
  : Q :=
  foldl (fun sum h => fadd sum (fdiv (fdiv (inject_Z (power h)) 3600) 1000))
        0%Q hourlyData.

Definition calculateHourlyAnalytics (now : Z) (hist : list HistoryPoint)
  : option AnalyticsEntry :=
  let hourlyData := hourWindow now hist in
  match hourlyData with
  | [] => None
  | h0 :: hs =>
      Some
        {| hour := now;
           grid_avg := jsRound (avg ((fun h => inject_Z (h_grid h)) <$> hourlyData));
           grid_max := maxOf (h_grid h0) (h_grid <$> hs);
           grid_min := minOf (h_grid h0) (h_grid <$> hs);
           grid_samples := length hourlyData;
           solar_avg := jsRound (avg ((fun h => inject_Z (h_solar h)) <$> hourlyData));
           solar_max := maxOf (h_solar h0) (h_solar <$> hs);
           solar_min := minOf (h_solar h0) (h_solar <$> hs);
           solar_total := energyTotal h_solar hourlyData;
           load_avg := jsRound (avg ((fun h => inject_Z (h_load h)) <$> hourlyData));
           load_max := maxOf (h_load h0) (h_load <$> hs);
           load_min := minOf (h_load h0) (h_load <$> hs);
           load_total := energyTotal h_load hourlyData;
           avgSoe := jsRound (avg (h_soe <$> hourlyData));
           maxSoe := maxOfQ (h_soe h0) (h_soe <$> hs);
           minSoe := minOfQ (h_soe h0) (h_soe <$> hs) |}
  end.

(** The hourly timer (lines 360-370). *)
Definition hourlyTick (now : Z) (s : Server) : Server :=
  match calculateHourlyAnalytics now (history s) with
  | None => s
  | Some hourlyAnalytics =>
      let kept := sliceLast 720 (analytics s ++ [hourlyAnalytics]) in
      broadcastUpdate (EvAnalytics hourlyAnalytics)
        (saveJSON ANALYTICS_FILE (JsonAnalytics kept) (with_analytics kept s))
  end.

(** ** Poll scheduler and the on-demand route (lines 1206-1291) *)

Definition historyPointOf (data : Reading) : HistoryPoint :=
  {| h_timestamp := timestamp data;
     h_grid := grid_power data;
     h_battery := battery_power data;
     h_solar := solar_power data;
     h_load := load_power data;
     h_soe := battery_soe data |}.

Definition sampleOf (data : Reading) : Sample :=
  {| ts := timestamp data;
     solar_w := solar_power data;
     battery_w := battery_power data;
     grid_w := grid_power data;
     load_w := load_power data;
     sample_soe := battery_soe data;
     sample_status := battery_status data |}.

(** [history.push(...)], the 24-hour retention filter and the snapshot. *)
Definition appendHistory (e : Env) (data : Reading) (s : Server) : Server :=
  let cutoff := clockStored e - 24 * 60 * 60 * 1000 in
  let kept :=
    filter (fun h => cutoff < h_timestamp h) (history s ++ [historyPointOf data]) in
  saveJSON HISTORY_FILE (JsonHistory kept) (with_history kept s).

(** [try { insertSample.run(...) } catch (e) { console.error(...) }]. *)
Definition insertSample (e : Env) (data : Reading) (s : Server) : Server :=
  if sampleWrite e then with_samples (power_samples s ++ [sampleOf data]) s
  else s.

(** The 10-second timer (lines 1266-1291). *)
Definition ssePoll (e : Env) (s : Server) : Server :=
  match sseClients s with
  | [] => s
  | _ :: _ =>
      let '(tbl, fetched) := fetchPowerwallData e (daily_baselines s) in
      let s0 := with_baselines tbl s in
      match fetched with
      | None => s0
      | Some data =>
          let s1 := with_cache (Some data) (lastUpdate_powerwall s0) s0 in
          let s2 := appendHistory e data s1 in
          let s3 := insertSample e data s2 in
          let s4 := checkAlerts (clockStored e) data (cached_temps s3) s3 in
          broadcastUpdate (EvPowerwall data) s4
      end
  end.

(** What [GET /api/powerwall] answers. *)
Inductive Response : Type :=
  | Ok (body : Reading)
  | Unavailable.            (* status 500, error 'Powerwall data unavailable' *)

(** [cachedData.powerwall && now - cachedData.lastUpdate.powerwall < 15000]. *)
Definition freshCache (now : Z) (s : Server) : option Reading :=
  match cached_powerwall s, lastUpdate_powerwall s with
  | Some r, Some t => if now - t <? 15000 then Some r else None
  | _, _ => None
  end.

(** [GET /api/powerwall] (lines 1206-1250). *)
Definition getPowerwall (e : Env) (s : Server) : Server * Response :=
  match freshCache (clockRequest e) s with
  | Some r => (s, Ok r)
  | None =>
      let '(tbl, fetched) := fetchPowerwallData e (daily_baselines s) in
      let s0 := with_baselines tbl s in
      match fetched with
      | None => (s0, Unavailable)
      | Some powerwallData =>
          let s1 := with_cache (Some powerwallData) (Some (clockRequest e)) s0 in
          let s2 := appendHistory e powerwallData s1 in
          let s3 := insertSample e powerwallData s2 in
          let s4 := checkAlerts (clockStored e) powerwallData (cached_temps s3) s3 in
          (* broadcast and answer with cachedData.powerwall, set just above *)
          (broadcastUpdate (EvPowerwall powerwallData) s4, Ok powerwallData)
      end
  end.

(** ** Scenario data *)

Definition idleMeter : Meter :=
  {| instant_power := 0; energy_exported := 0; energy_imported := 0 |}.

(** A gateway answer with the given cumulative solar and load counters and
    everything else at rest. *)
Definition gatewayWith (solarCum loadCum : Q) : Gateway :=
  {| agg_solar :=
       {| instant_power := 0; energy_exported := solarCum; energy_imported := 0 |};
     agg_battery := idleMeter;
     agg_load :=
       {| instant_power := 0; energy_exported := 0; energy_imported := loadCum |};
     agg_site := idleMeter;
     soe_percentage := 50 |}.

(** A poll cycle at time [t] of 2024-06-01 in which every store write
    succeeds. *)
Definition pollAt (t : Z) (g : option Gateway) : Env :=
  {| gateway := g; todayKey := "2024-06-01";
     clockRequest := t; clockReading := t; clockStored := t;
     baselineWrite := true; sampleWrite := true |}.

(** Counters whose solar figure is [x], the rest at zero. *)
Definition solarCounters (x : Q) : Counters :=
  {| cumSolar := x; cumBatteryOut := 0; cumBatteryIn := 0;
     cumGridIn := 0; cumGridOut := 0; cumLoad := 0 |}.

(** The day-deltas of one channel over a run, poll by poll ([None] where
    the poll produced none). *)
Definition channelDeltas (ch : Channel) (todayKey : string) (tbl : Baselines)
    (polls : list (bool * Counters)) : list (option Q) :=
  (fun d : option DayDeltas => deltaOf ch <$> d)
    <$> (dayDeltaRun todayKey tbl polls).2.

(** A counter that reads 100, then 150, then momentarily 120. *)
Definition glitchPolls : list (bool * Counters) :=
  [(true, solarCounters 100); (true, solarCounters 150); (true, solarCounters 120)].

(** A sequence of figures, one per poll, never goes down. *)
Definition nondecreasing (qs : list (option Q)) : Prop :=
  forall (i j : nat) (x y : Q),
    (i <= j)%nat -> qs !! i = Some (Some x) -> qs !! j = Some (Some y) ->
    (x <= y)%Q.

(** The cumulative counter of one channel over a run. *)
Definition channelCounters (ch : Channel) (polls : list (bool * Counters))
  : list (option Q) :=
  (fun p : bool * Counters => Some (cumOf ch p.2)) <$> polls.

(** A subscriber whose connection has failed, followed by a live one. *)
Definition deadThenLive : list Client :=
  [ {| cid := 1; broken := true |}; {| cid := 2; broken := false |} ].

(** A server with the given subscribers and nothing else. *)
Definition serverWith (clients : list Client) : Server :=
  {| alerts := []; history := []; analytics := [];
     settings_alerts :=
       {| batteryLow := 20; batteryHigh := 95; gridDown := true;
          highLoad := 5000; highTemp := 85; lowTemp := 50 |};
     sseClients := clients;
     cached_powerwall := None; lastUpdate_powerwall := None;
     cached_temps := None; daily_baselines := ∅; power_samples := [];
     files := ∅; wire := [] |}.

(** The frames a broadcast of [data] owes the subscribers [clients]. *)
Definition framesFor (data : Event) (clients : list Client)
  : list (nat * Event) :=
  (fun c => (cid c, data)) <$> clients.

(** ** Vocabulary for the daily metrics *)

(** The field shows [n] tenths: the digits of [n / 10], a point, and one
    more digit. *)
Definition showsTenths (field : KwhField) (n : Z) : Prop :=
  field = KwhFixed (decimalDigits (n / 10) +:+ "." +:+ decimalDigits (n mod 10)).

(** [pct] is within a half, and the two rounding errors of its quotient
    and product, of the exact percentage [part / whole * 100]. *)
Definition percentageOf (pct : Z) (part whole : Q) : Prop :=
  (Qabs (inject_Z pct - part / whole * 100)
   <= (1 # 2) + (3 # 9007199254740992) * Qabs (part / whole * 100)
      + 202 * tiny)%Q.

(** [field] shows, in tenths of a kWh, the millionth of [wh] to within a
    twentieth and the rounding error of the quotient. *)
Definition kwhOf (field : KwhField) (wh : Q) : Prop :=
  exists n : Z,
    showsTenths field n /\ 0 <= n /\
    (Qabs (inject_Z n * (1 # 10) - wh * (1 # 1000000))
     <= (1 # 20) + (1 # 9007199254740992) * (wh * (1 # 1000000)) + tiny)%Q.

(** The kWh field of a channel. *)
Definition kwhShown (ch : Channel) (bd : DailyBreakdown) : KwhField :=
  match ch with
  | Solar => solarKwh bd
  | Battery => batteryKwh bd
  | Grid => gridKwh bd
  | Load => loadKwh bd
  end.

(** ** Vocabulary for the alert list *)

(** The identifiers checkAlerts can raise, one per kind of alert. *)
Definition alertKinds : list string :=
  ["battery-low"; "battery-high"; "grid-down"; "high-load"; "high-temp";
   "low-temp"].

Definition alertIds (l : list Alert) : list string := alert_id <$> l.

(** The alert list of a running server: identifiers of known kinds, none
    twice. It holds of the empty list and is kept by checkAlerts and by
    clearAlert. *)
Definition alertsInv (l : list Alert) : Prop :=
  NoDup (alertIds l) /\ Forall (fun i => i ∈ alertKinds) (alertIds l).

(** The entries of the list that carry a given identifier. *)
Definition entriesOf (id : string) (l : list Alert) : list Alert :=
  filter (fun a => alert_id a = id) l.

(** What raiseAlert does to the list alone. *)
Definition addIfNew (l : list Alert) (alert : Alert) : list Alert :=
  match List.find (fun a => String.eqb (alert_id a) (alert_id alert)) l with
  | Some _ => l
  | None => l ++ [alert]
  end.

(** ** Vocabulary for the analytics roll-up *)

(** The sum of a list of numbers. *)
Definition sumQ (l : list Q) : Q := foldr Qplus 0%Q l.

(** The magnitudes of an integer figure over the samples, added up. *)
Definition magnitude (f : HistoryPoint -> Z) (window : list HistoryPoint) : Z :=
  foldr (fun z acc => Z.abs z + acc) 0 (f <$> window).

(** [a], [mx] and [mn] are the rounded mean, the largest and the smallest
    of the integer figure [f] over the samples [window]; the mean is the
    exact one as long as the magnitudes sum to less than 2^52 (and there
    are at most 2^40 samples), where binary64 adds integers exactly. *)
Definition summarises (f : HistoryPoint -> Z) (window : list HistoryPoint)
    (a mx mn : Z) : Prop :=
  (magnitude f window < 2 ^ 52 -> Z.of_nat (length window) <= 2 ^ 40 ->
   a = jsRound (sumQ ((fun h => inject_Z (f h)) <$> window)
                / inject_Z (Z.of_nat (length window)))) /\
  (forall h, h ∈ window -> mn <= f h <= mx) /\
  (exists h, h ∈ window /\ f h = mx) /\
  (exists h, h ∈ window /\ f h = mn).

(** The same for the state of energy, a figure with a fraction: its mean
    is within a half, and the rounding of the additions and the quotient,
    of the exact one. *)
Definition summarisesSoe (window : list HistoryPoint) (a : Z) (mx mn : Q)
  : Prop :=
  (Z.of_nat (length window) <= 2 ^ 40 ->
   (Qabs (inject_Z a
          - sumQ (h_soe <$> window) / inject_Z (Z.of_nat (length window)))
    <= (1 # 2)
       + 7 * ((1 # 9007199254740992) * sumQ (Qabs <$> (h_soe <$> window))
              + tiny))%Q) /\
  (forall h, h ∈ window -> (mn <= h_soe h)%Q /\ (h_soe h <= mx)%Q) /\
  (exists h, h ∈ window /\ h_soe h = mx) /\
  (exists h, h ∈ window /\ h_soe h = mn).

(** [total] is what adding [f h / 3600 / 1000] over the window, sample by
    sample in binary64 arithmetic, gives; for a window of at most 2^40
    samples it lies within the stated distance of the exact sum. *)
Definition integrates (f : HistoryPoint -> Z) (window : list HistoryPoint)
    (total : Q) : Prop :=
  total =
    foldl (fun sum h => fadd sum (fdiv (fdiv (inject_Z (f h)) 3600) 1000))
          0%Q window /\
  (Z.of_nat (length window) <= 2 ^ 40 ->
   (Qabs (total - sumQ ((fun h => inject_Z (f h) / 3600 / 1000) <$> window))
    <= 5 * inject_Z (Z.of_nat (length window))
       * ((1 # 9007199254740992)
          * sumQ ((fun h => Qabs (inject_Z (f h) / 3600 / 1000)) <$> window)
          + tiny))%Q).

(** A reading with the battery at 10 percent. *)
Definition lowBatteryReading : Reading :=
  {| timestamp := 1000; grid_power := 500; battery_power := 0;
     battery_soe := 10; battery_status := "standby"; load_power := 500;
     solar_power := 0; reading_selfPoweredPercent := 0;
     reading_dailyBreakdown :=
       dailyBreakdown
         {| daySolar := 0; dayBattery := 0; dayGrid := 0; dayLoad := 0 |} |}.

Definition liveClient : Client := {| cid := 7; broken := false |}.

(** The same poll cycle with the outcome of [insertSample.run] fixed. *)
Definition withSampleWrite (outcome : bool) (e : Env) : Env :=
  {| gateway := gateway e; todayKey := todayKey e;
     clockRequest := clockRequest e; clockReading := clockReading e;
     clockStored := clockStored e; baselineWrite := baselineWrite e;
     sampleWrite := outcome |}.



(** Three samples, the first older than the hour before 4,000,000. *)
Definition threeSamples : list HistoryPoint :=
  [ {| h_timestamp := 100000; h_grid := 900; h_battery := 0; h_solar := 0;
       h_load := 900; h_soe := 40 |};
    {| h_timestamp := 1000000; h_grid := 200; h_battery := 0; h_solar := 3600;
       h_load := 1500; h_soe := 50 |};
    {| h_timestamp := 4000000; h_grid := -101; h_battery := 0; h_solar := 7200;
       h_load := 2100; h_soe := 61 |} ].

(** The first poll of the scenario day and the reading it produces. *)
Definition firstPoll : Env := pollAt 1000 (Some (gatewayWith 1000000 2000000)).

Definition firstReading : Reading :=
  {| timestamp := 1000; grid_power := 0; battery_power := 0;
     battery_soe := 50; battery_status := "standby"; load_power := 0;
     solar_power := 0; reading_selfPoweredPercent := 0;
     reading_dailyBreakdown :=
       {| solarPct := 0; batteryPct := 0; gridPct := 0;
          solarKwh := KwhNumber 0; batteryKwh := KwhNumber 0;
          gridKwh := KwhNumber 0; loadKwh := KwhNumber 0 |} |}.

(** ** The handlers as steps of the server *)

(** One handler of this file running to completion. *)
Inductive ServerStep : Server -> Server -> Prop :=
  | StepTimer (e : Env) (s : Server) : ServerStep s (ssePoll e s)
  | StepRoute (e : Env) (s : Server) : ServerStep s (getPowerwall e s).1
  | StepHourly (now : Z) (s : Server) : ServerStep s (hourlyTick now s)
  | StepClear (id : string) (s : Server) : ServerStep s (clearAlert id s).

(** The states the server passes through from [s0]. *)
Inductive Reachable (s0 : Server) : Server -> Prop :=
  | ReachedStart : Reachable s0 s0
  | ReachedStep (s s' : Server) :
      Reachable s0 s -> ServerStep s s' -> Reachable s0 s'.

(** * Further handlers of the server

    The routes and timers beside the poll pipeline, over the same state. *)

(** ** Live-view subscriptions (lines 477-497) *)

(** Two connections are the same connection when they agree on who they
    are; [indexOf] compares with that. *)
#[global] Instance Client_eq_dec : EqDecision Client.
Proof. solve_decision. Defined.

(** [arr.indexOf(x)], with [None] for -1. *)
Fixpoint indexOf {A : Type} `{EqDecision A} (x : A) (arr : list A)
  : option nat :=
  match arr with
  | [] => None
  | y :: rest => if decide (y = x) then Some 0%nat else S <$> indexOf x rest
  end.

(** [GET /api/powerwall/stream]: the connection is pushed, then sent the
    cached reading when there is one. That write is not guarded: when it
    throws the handler ends there, the connection already pushed. *)
Definition subscribe (res : Client) (s : Server) : Server :=
  let clients := sseClients s ++ [res] in
  match cached_powerwall s with
  | Some r =>
      if broken res then with_connections clients (wire s) s
      else with_connections clients (wire s ++ [(cid res, EvPowerwall r)]) s
  | None => with_connections clients (wire s) s
  end.

(** The [close] listener of a subscription. *)
Definition unsubscribe (res : Client) (s : Server) : Server :=
  match indexOf res (sseClients s) with
  | Some index => with_connections (delete index (sseClients s)) (wire s) s
  | None => s
  end.

(** Whether the stream route reaches [req.on('close', ...)] (line 490):
    the write of the cached reading (line 487), when one is cached, has
    to return. *)
Definition registersClose (res : Client) (s : Server) : bool :=
  match cached_powerwall s with
  | Some _ => negb (broken res)
  | None => true
  end.

(** The server together with the connections whose [close] listener is
    registered. *)
Record Streams : Type := {
  server : Server;
  closeListeners : list Client
}.

(** [GET /api/powerwall/stream] with the listener it leaves behind. *)
Definition openStream (res : Client) (st : Streams) : Streams :=
  {| server := subscribe res (server st);
     closeListeners :=
       if registersClose res (server st) then closeListeners st ++ [res]
       else closeListeners st |}.

(** The connection [res] closes: its listener runs when one was
    registered, and nothing happens otherwise. *)
Definition closeStream (res : Client) (st : Streams) : Streams :=
  if decide (res ∈ closeListeners st) then
    {| server := unsubscribe res (server st);
       closeListeners := filter (fun c => c <> res) (closeListeners st) |}
  else st.

(** The file watcher's broadcast (lines 178-189), as far as this state
    sees it. *)
Definition announceCode (hash : string) (s : Server) : Server :=
  broadcastUpdate (EvCodeUpdate hash) s.

(** Every handler that touches the server state. *)
Inductive HandlerStep : Server -> Server -> Prop :=
  | HandlerCore (s s' : Server) : ServerStep s s' -> HandlerStep s s'
  | HandlerSubscribe (res : Client) (s : Server) :
      HandlerStep s (subscribe res s)
  | HandlerUnsubscribe (res : Client) (s : Server) :
      HandlerStep s (unsubscribe res s)
  | HandlerAnnounce (hash : string) (s : Server) :
      HandlerStep s (announceCode hash s).

(** ** Read-only routes *)

(** [arr.slice(start)] for an integer [start]: a negative start counts
    from the end, and both ends are capped. *)
Definition sliceFrom {A : Type} (start : Z) (arr : list A) : list A :=
  let len := Z.of_nat (length arr) in
  let k := if start <? 0 then Z.max (len + start) 0 else Z.min start len in
  drop (Z.to_nat k) arr.

(** [parseInt(req.query.limit) || 20], from what [parseInt] returned
    ([None] for NaN). *)
Definition alertsLimit (parsed : option Z) : Z :=
  match parsed with
  | Some n => if n =? 0 then 20 else n
  | None => 20
  end.

(** [GET /api/alerts] (lines 400-403). *)
Definition getAlerts (parsed : option Z) (s : Server) : list Alert :=
  reverse (sliceFrom (- alertsLimit parsed) (alerts s)).

(** [q || fallback] on an optional string: the empty string is falsy. *)
Definition orString (q : option string) (fallback : string) : string :=
  match q with
  | Some v => if decide (v = "") then fallback else v
  | None => fallback
  end.

(** Lines 438-442. *)
Definition analyticsLimit (range : option string) : Z :=
  let range := orString range "24h" in
  if decide (range = "7d") then 168
  else if decide (range = "30d") then 720
  else 24.

(** [GET /api/analytics] (lines 437-445). *)
Definition getAnalytics (range : option string) (s : Server)
  : list AnalyticsEntry :=
  sliceFrom (- analyticsLimit range) (analytics s).

(** Lines 538-544. *)
Definition historyCutoff (range : option string) (now : Z) : Z :=
  let range := orString range "24h" in
  if decide (range = "7d") then now - 7 * 24 * 60 * 60 * 1000
  else if decide (range = "30d") then now - 30 * 24 * 60 * 60 * 1000
  else now - 24 * 60 * 60 * 1000.

(** [GET /api/admin/history] (lines 537-548). *)
Definition getAdminHistory (range : option string) (now : Z) (s : Server)
  : list HistoryPoint :=
  filter (fun h => historyCutoff range now < h_timestamp h) (history s).

(** What both poll handlers do with a reading [data] fetched against the
    baseline table [tbl]; [stamp] is the cache age to record. *)
Definition publish (e : Env) (data : Reading) (stamp : option Z)
    (tbl : Baselines) (s : Server) : Server :=
  let s1 := with_cache (Some data) stamp (with_baselines tbl s) in
  let s2 := appendHistory e data s1 in
  let s3 := insertSample e data s2 in
  let s4 := checkAlerts (clockStored e) data (cached_temps s3) s3 in
  broadcastUpdate (EvPowerwall data) s4.

(** A reading as the fetch builds it. *)
Definition wellFormed (r : Reading) : Prop :=
  battery_status r = batteryStatus (battery_power r) /\
  0 <= reading_selfPoweredPercent r <= 100 /\
  0 <= solarPct (reading_dailyBreakdown r) /\
  0 <= batteryPct (reading_dailyBreakdown r) /\
  0 <= gridPct (reading_dailyBreakdown r).

(** What is cached, stored and sent is well formed. *)
Definition storeInv (s : Server) : Prop :=
  (forall r, cached_powerwall s = Some r -> wellFormed r) /\
  Forall (fun row => sample_status row = batteryStatus (battery_w row))
    (power_samples s) /\
  Forall (fun f => forall r, f.2 = EvPowerwall r -> wellFormed r) (wire s).

(** The handlers, leaving out a subscription by a connection that
    identifies as [c0]. *)
Inductive StepWithout (c0 : nat) : Server -> Server -> Prop :=
  | WithoutCore (s s' : Server) : ServerStep s s' -> StepWithout c0 s s'
  | WithoutSubscribe (res : Client) (s : Server) :
      cid res <> c0 -> StepWithout c0 s (subscribe res s)
  | WithoutUnsubscribe (res : Client) (s : Server) :
      StepWithout c0 s (unsubscribe res s)
  | WithoutAnnounce (hash : string) (s : Server) :
      StepWithout c0 s (announceCode hash s).

(** Between [s] and [s'] frames were written, all of them to subscribers
    of [s], and nobody joined. *)
Definition writesToSubscribers (s s' : Server) : Prop :=
  sseClients s' `sublist_of` sseClients s /\
  exists extra,
    wire s' = wire s ++ extra /\
    Forall (fun f => f.1 ∈ cid <$> sseClients s) extra.

(** ** The analytics summary (lines 450-471) *)

(** Two digits after the point. *)
Definition twoDigits (k : Z) : string :=
  if k <? 10 then "0" +:+ decimalDigits k else decimalDigits k.

(** [x.toFixed(2)], as [toFixed1] with two fraction digits. *)
Definition toFixed2 (x : Q) : KwhField :=
  let s := if Qlt_le_dec x 0 then "-"%string else ""%string in
  let m := Qabs x in
  if Qlt_le_dec m (inject_Z (10 ^ 21)) then
    let n := Qfloor (m * 100 + (1 # 2)) in
    KwhFixed (s +:+ decimalDigits (n / 100) +:+ "." +:+ twoDigits (n mod 100))
  else KwhExponent x.

(** The body of the summary answer. *)
Record Summary : Type := {
  summary_grid_avg : Z;
  summary_solar_avg : Z;
  summary_solar_total : KwhField;
  summary_load_avg : Z;
  summary_load_total : KwhField;
  trend : string;
  peakLoad : Z;
  peakSolar : Z
}.

(** [Math.round(arr.reduce((sum, h) => sum + f(h), 0) / arr.length)]. *)
Definition meanOf (f : AnalyticsEntry -> Z) (arr : list AnalyticsEntry) : Z :=
  jsRound (foldl (fun sum h => (sum + inject_Z (f h))%Q) 0%Q arr
           / inject_Z (Z.of_nat (length arr))).

(** [arr.reduce((sum, h) => sum + f(h), 0)]. *)
Definition totalOf (f : AnalyticsEntry -> Q) (arr : list AnalyticsEntry) : Q :=
  foldl (fun sum h => fadd sum (f h)) 0%Q arr.

(** [GET /api/analytics/summary]; [None] is the answer
    [{ error: 'No analytics data yet' }]. The last 24 entries of a list
    that is not empty are not empty, so the second [None] is never
    reached. *)
Definition getAnalyticsSummary (s : Server) : option Summary :=
  match analytics s with
  | [] => None
  | _ :: _ =>
      let last24h := sliceFrom (-24) (analytics s) in
      match last24h with
      | [] => None
      | h0 :: hs =>
          let avgGrid := meanOf grid_avg last24h in
          let avgSolar := meanOf solar_avg last24h in
          let avgLoad := meanOf load_avg last24h in
          let totalSolarGen := totalOf solar_total last24h in
          let totalLoadUsed := totalOf load_total last24h in
          Some {| summary_grid_avg := avgGrid;
                  summary_solar_avg := avgSolar;
                  summary_solar_total := toFixed2 totalSolarGen;
                  summary_load_avg := avgLoad;
                  summary_load_total := toFixed2 totalLoadUsed;
                  trend := if avgLoad <? avgSolar then "surplus" else "deficit";
                  peakLoad := maxOf (load_max h0) (load_max <$> hs);
                  peakSolar := maxOf (solar_max h0) (solar_max <$> hs) |}
      end
  end.

(** A server that has rolled up the scenario's three samples once. *)
Definition rolledUp : Server :=
  hourlyTick 4000000 (with_history threeSamples (serverWith [liveClient])).

(** ** Start-up (lines 117-148, 192-202) *)

(** [loadJSON(file, defaultValue)]: the document when the file is there,
    the default otherwise. *)
Definition loadJSON (file : string) (defaultValue : Json)
    (fs : gmap string Json) : Json :=
  default defaultValue (fs !! file).

Definition asAlerts (doc : Json) : list Alert :=
  match doc with JsonAlerts l => l | _ => [] end.

Definition asHistory (doc : Json) : list HistoryPoint :=
  match doc with JsonHistory l => l | _ => [] end.

Definition asAnalytics (doc : Json) : list AnalyticsEntry :=
  match doc with JsonAnalytics l => l | _ => [] end.

(** The state of a process that starts on the files [fs] and the two
    SQLite tables, with the alert settings its settings file gives: the
    three lists are loaded, nobody is subscribed and nothing is cached. *)
Definition boot (fs : gmap string Json) (baselines : Baselines)
    (samples : list Sample) (st : AlertSettings) : Server :=
  {| alerts := asAlerts (loadJSON ALERTS_FILE (JsonAlerts []) fs);
     history := asHistory (loadJSON HISTORY_FILE (JsonHistory []) fs);
     analytics := asAnalytics (loadJSON ANALYTICS_FILE (JsonAnalytics []) fs);
     settings_alerts := st;
     sseClients := [];
     cached_powerwall := None;
     lastUpdate_powerwall := None;
     cached_temps := None;
     daily_baselines := baselines;
     power_samples := samples;
     files := fs;
     wire := [] |}.

(** The process restarted on what [s] has on disk. *)
Definition restart (s : Server) : Server :=
  boot (files s) (daily_baselines s) (power_samples s) (settings_alerts s).

(** One list in memory is what its file holds. *)
Definition alertsMirrored (s : Server) : Prop :=
  asAlerts (loadJSON ALERTS_FILE (JsonAlerts []) (files s)) = alerts s.

Definition historyMirrored (s : Server) : Prop :=
  asHistory (loadJSON HISTORY_FILE (JsonHistory []) (files s)) = history s.

Definition analyticsMirrored (s : Server) : Prop :=
  asAnalytics (loadJSON ANALYTICS_FILE (JsonAnalytics []) (files s))
    = analytics s.

(** A server whose history is ahead of its file: three points in memory,
    no file written yet. *)
Definition unsavedHistory : Server :=
  with_history threeSamples (serverWith [liveClient]).

(** The three lists in memory are what the files hold. *)
Definition mirrored (s : Server) : Prop :=
  asAlerts (loadJSON ALERTS_FILE (JsonAlerts []) (files s)) = alerts s /\
  asHistory (loadJSON HISTORY_FILE (JsonHistory []) (files s)) = history s /\
  asAnalytics (loadJSON ANALYTICS_FILE (JsonAnalytics []) (files s))
    = analytics s.

(** ** Administrative timers (lines 503-525) *)

(** [String(n)] of an integer. *)
Definition jsIntToString (n : Z) : string :=
  if n <? 0 then "-" +:+ decimalDigits (- n) else decimalDigits n.

Record Timer : Type := {
  timer_id : string;
  timer_name : string;
  targetTime : option string;
  timer_color : string;
  createdAt : Z
}.

(** The fields [POST /api/admin/timers] reads from the request body, each
    possibly missing. *)
Record TimerBody : Type := {
  body_name : option string;
  body_targetTime : option string;
  body_color : option string
}.

(** The [timers] variable and the document of [timers.json]. *)
Record TimerStore : Type := {
  timers : list Timer;
  timersFile : option (list Timer)
}.

(** [POST /api/admin/timers]; the two clock readings are [Date.now()] for
    the identifier and [new Date()] for [createdAt]. *)
Definition postTimer (idClock createdClock : Z) (body : TimerBody)
    (st : TimerStore) : TimerStore * Timer :=
  let timer :=
    {| timer_id := jsIntToString idClock;
       timer_name := orString (body_name body) "Timer";
       targetTime := body_targetTime body;
       timer_color := orString (body_color body) "#4caf50";
       createdAt := createdClock |} in
  ({| timers := timers st ++ [timer];
      timersFile := Some (timers st ++ [timer]) |}, timer).

(** [DELETE /api/admin/timers/:id]. *)
Definition deleteTimer (id : string) (st : TimerStore) : TimerStore :=
  let kept := filter (fun t => timer_id t <> id) (timers st) in
  {| timers := kept; timersFile := Some kept |}.

(** ** Daily highs and lows of the weather forecast (lines 594-618) *)

(** One entry of the forecast list, with the fields the grouping reads:
    [f.dt], [f.main.temp], [f.weather[0].main], [f.weather[0].icon]. *)
Record ForecastItem : Type := {
  forecast_dt : Z;
  forecast_temp : Q;
  forecast_main : string;
  forecast_icon : string
}.

Record DailyForecast : Type := {
  date : string;
  high : Z;
  low : Z;
  description : string;
  icon : string
}.

(** [new Date(f.dt * 1000).toISOString().split('T')[0]]; [isoDate] is the
    calendar date the runtime prints for a millisecond timestamp. *)
Definition dateStrOf (isoDate : Z -> string) (f : ForecastItem) : string :=
  isoDate (forecast_dt f * 1000).

(** The object [dailyForecasts], as its entries in insertion order, which
    is the order [Object.values] lists them in (a date is no array index).
    [lookupDay] is [dailyForecasts[dateStr]]. *)
Definition lookupDay (dateStr : string) (days : list DailyForecast)
    : option DailyForecast :=
  List.find (fun d => bool_decide (date d = dateStr)) days.

Definition updateDay (dateStr : string) (f : DailyForecast -> DailyForecast)
    (days : list DailyForecast) : list DailyForecast :=
  (fun d => if bool_decide (date d = dateStr) then f d else d) <$> days.

(** The body of the [forEach] over the forecast list. *)
Definition addForecast (isoDate : Z -> string) (days : list DailyForecast)
    (f : ForecastItem) : list DailyForecast :=
  let dateStr := dateStrOf isoDate f in
  match lookupDay dateStr days with
  | None =>
      days ++ [ {| date := dateStr;
                   high := jsRound (forecast_temp f);
                   low := jsRound (forecast_temp f);
                   description := forecast_main f;
                   icon := forecast_icon f |} ]
  | Some _ =>
      updateDay dateStr
        (fun d => {| date := date d;
                     high := Z.max (high d) (jsRound (forecast_temp f));
                     low := Z.min (low d) (jsRound (forecast_temp f));
                     description := description d;
                     icon := icon d |})
        days
  end.

Definition dailyForecasts (isoDate : Z -> string) (fs : list ForecastItem)
    : list DailyForecast :=
  foldl (addForecast isoDate) [] fs.

(** [Object.values(dailyForecasts).slice(0, 5)]. *)
Definition dailyArray (isoDate : Z -> string) (fs : list ForecastItem)
    : list DailyForecast :=
  take 5 (dailyForecasts isoDate fs).

(** The forecast entries of one date, and what an entry of the daily list
    says about them. *)
Definition itemsOn (isoDate : Z -> string) (day : string)
    (fs : list ForecastItem) : list ForecastItem :=
  filter (fun f => dateStrOf isoDate f = day) fs.

Definition summarisesDay (isoDate : Z -> string) (fs : list ForecastItem)
    (d : DailyForecast) : Prop :=
  let items := itemsOn isoDate (date d) fs in
  Forall (fun f => low d <= jsRound (forecast_temp f) <= high d) items /\
  (exists f, f ∈ items /\ high d = jsRound (forecast_temp f)) /\
  (exists f, f ∈ items /\ low d = jsRound (forecast_temp f)) /\
  (exists f, head items = Some f /\
             description d = forecast_main f /\ icon d = forecast_icon f).

Definition grouped (isoDate : Z -> string) (fs : list ForecastItem)
    (days : list DailyForecast) : Prop :=
  NoDup (date <$> days) /\
  (forall day, day ∈ date <$> days <-> exists f, f ∈ fs /\ dateStrOf isoDate f = day) /\
  Forall (summarisesDay isoDate fs) days.

(** ** Alarm panel and sensors (lines 876-917) *)

Definition ALARM_PANEL_STATES (state : Z) : option string :=
  match state with
  | 1 => Some "Disarmed"
  | 2 => Some "Armed Stay"
  | 3 => Some "Armed Away"
  | 4 => Some "Armed Night"
  | _ => None
  end.

Definition ALARM_SENSOR_STATES (state : Z) : option string :=
  match state with
  | 0 => Some "unknown"
  | 1 => Some "closed"
  | 2 => Some "open"
  | 3 => Some "active"
  | 4 => Some "idle"
  | 5 => Some "bypassed"
  | _ => None
  end.

(** [s.attributes] of a reported sensor, and the entry the route makes of
    it. *)
Record SensorAttributes : Type := {
  attributes_description : string;
  attributes_state : Z
}.

Record Sensor : Type := {
  sensor_name : string;
  sensor_state : string;
  rawState : Z
}.

Definition sensorOf (s : SensorAttributes) : Sensor :=
  {| sensor_name := attributes_description s;
     sensor_state :=
       match ALARM_SENSOR_STATES (attributes_state s) with
       | Some label => label
       | None => jsIntToString (attributes_state s)
       end;
     rawState := attributes_state s |}.

Definition nonEntrySensors : list string :=
  ["Freeze Sensor"; "Basement Flood"; "Smoke Detector"; "Glass Break";
   "Panel Glass Break"; "Panel Camera"; "IQ Remote 1"].

Record AlarmResult : Type := {
  panel : string;
  panelState : Z;
  armed : bool;
  hasAlarm : bool;
  sensors : list Sensor;
  openSensors : list Sensor
}.

(** The result [GET /api/alarm] builds from the reported state:
    [partition.attributes.state], [partition.attributes.hasActiveAlarm]
    (possibly missing) and [state.sensors]. *)
Definition alarmResult (state : Z) (hasActiveAlarm : option bool)
    (reported : list SensorAttributes) : AlarmResult :=
  let sensors := sensorOf <$> reported in
  {| panel :=
       match ALARM_PANEL_STATES state with
       | Some label => label
       | None => "Unknown (" +:+ jsIntToString state +:+ ")"
       end;
     panelState := state;
     armed := 1 <? state;
     hasAlarm := default false hasActiveAlarm;
     sensors := sensors;
     openSensors :=
       filter (fun s => sensor_state s = "open" /\ sensor_name s ∉ nonEntrySensors)
              sensors |}.

(** * Properties *)

(** ** The primitives on concrete figures *)

Example jsRound_ties_up : jsRound (5 # 2) = 3 /\ jsRound (- (5 # 2)) = -2.
Proof. split; reflexivity. Qed.

Example toFixed1_half : toFixed1 (500000 / 1000000) = KwhFixed "0.5".
Proof. vm_compute. reflexivity. Qed.

Example toFixed1_quarter : toFixed1 (25 # 100) = KwhFixed "0.3".
Proof. vm_compute. reflexivity. Qed.

Example toFixed1_negative : toFixed1 (- (4 # 100)) = KwhFixed "-0.0".
Proof. vm_compute. reflexivity. Qed.

Example toFixed1_thousands : toFixed1 (123456 # 10) = KwhFixed "12345.6".
Proof. vm_compute. reflexivity. Qed.

Example sliceLast_two : sliceLast 2 [1; 2; 3] = [2; 3] /\ sliceLast 5 [1; 2] = [1; 2].
Proof. split; reflexivity. Qed.

(** ** Rounding and clamping *)

Lemma jsRound_inject_Z (n : Z) : jsRound (inject_Z n) = n.
Proof.
  unfold jsRound.
  assert (H : (inject_Z n + (1 # 2) == (2 * n + 1) # 2)%Q).
  { unfold Qeq, Qplus, inject_Z; simpl. lia. }
  rewrite (Qfloor_comp _ _ H). unfold Qfloor.
  symmetry. apply Z.div_unique with (r := 1); lia.
Qed.

Lemma jsRound_comp (x y : Q) : (x == y)%Q -> jsRound x = jsRound y.
Proof.
  intros H. unfold jsRound. apply Qfloor_comp. now rewrite H.
Qed.

Lemma jsRound_nonneg (x : Q) : (0 <= x)%Q -> 0 <= jsRound x.
Proof.
  intros H. unfold jsRound.
  change 0 with (Qfloor 0). apply Qfloor_resp_le.
  apply Qle_trans with x; [exact H|].
  rewrite <- (Qplus_0_r x) at 1. apply Qplus_le_r. discriminate.
Qed.

Lemma clampPercent_range (p : Z) : 0 <= clampPercent p <= 100.
Proof. unfold clampPercent. lia. Qed.

Lemma clampPercent_id (p : Z) : 0 <= p <= 100 -> clampPercent p = p.
Proof. unfold clampPercent. lia. Qed.

(** ** binary64 arithmetic *)

Lemma pow2_pos (k : Z) : (0 < pow2 k)%Q.
Proof. apply Qpower_0_lt. reflexivity. Qed.

Lemma pow2_plus (a b : Z) : (pow2 (a + b) == pow2 a * pow2 b)%Q.
Proof. apply Qpower_plus. discriminate. Qed.

Lemma pow2_le (a b : Z) : a <= b -> (pow2 a <= pow2 b)%Q.
Proof. intros H. apply Qpower_le_compat_l; [exact H | discriminate]. Qed.

Lemma pow2_nonneg (k : Z) : 0 <= k -> (pow2 k == inject_Z (2 ^ k))%Q.
Proof. intros H. unfold pow2. symmetry. apply (Zpower_Qpower 2 k H). Qed.

Lemma roundHalfEven_near (x : Q) :
  (inject_Z (roundHalfEven x) - (1 # 2) <= x)%Q /\
  (x <= inject_Z (roundHalfEven x) + (1 # 2))%Q.
Proof.
  unfold roundHalfEven.
  pose proof (Qfloor_le x) as Hlo. pose proof (Qlt_floor x) as Hhi.
  rewrite inject_Z_plus in Hhi. change (inject_Z 1) with 1%Q in Hhi.
  destruct (Qcompare_spec (x - inject_Z (Qfloor x)) (1 # 2)) as [He | Hl | Hg].
  - destruct (Z.even (Qfloor x)).
    + split; lra.
    + rewrite inject_Z_plus. change (inject_Z 1) with 1%Q. split; lra.
  - split; lra.
  - rewrite inject_Z_plus. change (inject_Z 1) with 1%Q. split; lra.
Qed.

Lemma roundHalfEven_nonneg (x : Q) : (0 <= x)%Q -> 0 <= roundHalfEven x.
Proof.
  intros H. unfold roundHalfEven.
  assert (Hf : 0 <= Qfloor x).
  { change 0 with (Qfloor 0). now apply Qfloor_resp_le. }
  destruct (_ ?= _)%Q; [destruct (Z.even _)| |]; lia.
Qed.

Lemma roundHalfEven_nonpos (x : Q) : (x <= 0)%Q -> roundHalfEven x <= 0.
Proof.
  intros H.
  destruct (roundHalfEven_near x) as [Hlo _].
  assert (Hq : (inject_Z (roundHalfEven x) < 1)%Q) by lra.
  change 1%Q with (inject_Z 1) in Hq. rewrite <- Zlt_Qlt in Hq. lia.
Qed.

Lemma ilog2_spec (x : Q) :
  (0 < x)%Q -> (pow2 (ilog2 x) <= x)%Q /\ (x < pow2 (ilog2 x + 1))%Q.
Proof.
  intros Hx. destruct x as [n d]. unfold ilog2. cbn [Qnum Qden].
  assert (Hn : 0 < n). { unfold Qlt in Hx. cbn in Hx. lia. }
  set (a := Z.log2 n). set (b := Z.log2 (Z.pos d)).
  destruct (Z.log2_spec n Hn) as [Ha1 Ha2]. fold a in Ha1, Ha2.
  destruct (Z.log2_spec (Z.pos d) ltac:(lia)) as [Hb1 Hb2]. fold b in Hb1, Hb2.
  assert (Ha0 : 0 <= a) by apply Z.log2_nonneg.
  assert (Hb0 : 0 <= b) by apply Z.log2_nonneg.
  assert (Hx' : (n # d == inject_Z n / inject_Z (Z.pos d))%Q) by apply Qmake_Qdiv.
  assert (Hd : (0 < inject_Z (Z.pos d))%Q) by reflexivity.
  (* x < 2^(a-b+1) and 2^(a-b-1) < x *)
  assert (Hup : (n # d < pow2 (a - b + 1))%Q).
  { rewrite Hx'. apply Qlt_shift_div_r; [exact Hd|].
    replace (a - b + 1) with ((a + 1) + - b) by lia.
    rewrite pow2_plus. unfold pow2 at 2. rewrite Qpower_opp.
    fold (pow2 b). rewrite (pow2_nonneg (a + 1)) by lia.
    rewrite (pow2_nonneg b) by lia.
    assert (Hpb : (0 < inject_Z (2 ^ b))%Q).
    { rewrite <- (pow2_nonneg b) by lia. apply pow2_pos. }
    apply Qlt_le_trans with (inject_Z (2 ^ (a + 1))).
    - rewrite <- Zlt_Qlt. exact Ha2.
    - assert (Hle : (inject_Z (2 ^ b) <= inject_Z (Z.pos d))%Q)
        by (rewrite <- Zle_Qle; exact Hb1).
      assert (Hpa : (0 < inject_Z (2 ^ (a + 1)))%Q).
      { rewrite <- (pow2_nonneg (a + 1)) by lia. apply pow2_pos. }
      rewrite <- Qmult_assoc.
      rewrite <- (Qmult_1_r (inject_Z (2 ^ (a + 1)))) at 1.
      apply Qmult_le_l; [exact Hpa|].
      rewrite Qmult_comm. apply Qle_shift_div_l; [exact Hpb | lra]. }
  assert (Hlow : (pow2 (a - b - 1) < n # d)%Q).
  { rewrite Hx'. apply Qlt_shift_div_l; [exact Hd|].
    replace (a - b - 1) with (a + - (b + 1)) by lia.
    rewrite pow2_plus. unfold pow2 at 2. rewrite Qpower_opp.
    fold (pow2 (b + 1)). rewrite (pow2_nonneg a) by lia.
    rewrite (pow2_nonneg (b + 1)) by lia.
    assert (Hpb : (0 < inject_Z (2 ^ (b + 1)))%Q).
    { rewrite <- (pow2_nonneg (b + 1)) by lia. apply pow2_pos. }
    apply Qlt_le_trans with (inject_Z (2 ^ a)).
    - assert (Hlt : (inject_Z (Z.pos d) < inject_Z (2 ^ (b + 1)))%Q)
        by (rewrite <- Zlt_Qlt; exact Hb2).
      assert (Hpa : (0 < inject_Z (2 ^ a))%Q).
      { rewrite <- (pow2_nonneg a) by lia. apply pow2_pos. }
      rewrite <- Qmult_assoc.
      rewrite <- (Qmult_1_r (inject_Z (2 ^ a))) at 2.
      apply Qmult_lt_l; [exact Hpa|].
      rewrite Qmult_comm. apply Qlt_shift_div_r; [exact Hpb | lra].
    - rewrite <- Zle_Qle. exact Ha1. }
  destruct (Qle_bool (pow2 (a - b)) (n # d)) eqn:Hc.
  - apply Qle_bool_iff in Hc. split; [exact Hc | exact Hup].
  - split.
    + apply Qlt_le_weak. exact Hlow.
    + replace (a - b - 1 + 1) with (a - b) by lia.
      apply Qnot_le_lt. intros Hle. apply Qle_bool_iff in Hle. congruence.
Qed.

Lemma tiny_pos : (0 < tiny)%Q.
Proof. apply pow2_pos. Qed.

Lemma tiny_small : (tiny <= 1 # 1267650600228229401496703205376)%Q.
Proof.
  unfold tiny. apply Qle_trans with (pow2 (-100)).
  - apply pow2_le. lia.
  - vm_compute. discriminate.
Qed.

Lemma double_comp (x y : Q) : (x == y)%Q -> double x = double y.
Proof. intros H. unfold double. now rewrite (Qred_complete _ _ H). Qed.

Lemma double_zero (x : Q) : (x == 0)%Q -> double x = 0%Q.
Proof. intros H. rewrite (double_comp _ _ H). reflexivity. Qed.

Lemma roundHalfEven_comp (x y : Q) :
  (x == y)%Q -> roundHalfEven x = roundHalfEven y.
Proof.
  intros H. unfold roundHalfEven. rewrite (Qfloor_comp _ _ H).
  assert (Hc : ((x - inject_Z (Qfloor y) ?= 1 # 2) =
                (y - inject_Z (Qfloor y) ?= 1 # 2))%Q).
  { apply Qcompare_comp; [now rewrite H | reflexivity]. }
  now rewrite Hc.
Qed.

(** What [double] returns for a number other than 0. *)
Lemma double_value (x : Q) :
  ~ (x == 0)%Q ->
  let q := Z.max (ilog2 (Qabs (Qred x)) - 52) (-1074) in
  (double x == inject_Z (roundHalfEven (x / pow2 q)) * pow2 q)%Q.
Proof.
  intros Hne q. unfold double.
  destruct (Qeq_bool (Qred x) 0) eqn:Hz.
  - exfalso. apply Hne. apply Qeq_bool_iff in Hz.
    now rewrite <- (Qred_correct x).
  - rewrite Qred_correct. fold q.
    assert (Hx : (Qred x / pow2 q == x / pow2 q)%Q)
      by now rewrite Qred_correct.
    now rewrite (roundHalfEven_comp _ _ Hx).
Qed.

Lemma double_nonneg (x : Q) : (0 <= x)%Q -> (0 <= double x)%Q.
Proof.
  intros H. destruct (Qeq_dec x 0) as [Hz | Hne].
  - rewrite (double_zero x Hz). apply Qle_refl.
  - rewrite (double_value x Hne). cbv zeta.
    set (q := Z.max _ _).
    apply Qmult_le_0_compat; [|apply Qlt_le_weak, pow2_pos].
    change 0%Q with (inject_Z 0). rewrite <- Zle_Qle.
    apply roundHalfEven_nonneg.
    apply Qle_shift_div_l; [apply pow2_pos | now rewrite Qmult_0_l].
Qed.

Lemma double_nonpos (x : Q) : (x <= 0)%Q -> (double x <= 0)%Q.
Proof.
  intros H. destruct (Qeq_dec x 0) as [Hz | Hne].
  - rewrite (double_zero x Hz). apply Qle_refl.
  - rewrite (double_value x Hne). cbv zeta.
    set (q := Z.max _ _).
    assert (Hr : roundHalfEven (x / pow2 q) <= 0).
    { apply roundHalfEven_nonpos.
      apply Qle_shift_div_r; [apply pow2_pos | now rewrite Qmult_0_l]. }
    assert (Hq : (inject_Z (roundHalfEven (x / pow2 q)) <= 0)%Q).
    { change 0%Q with (inject_Z 0). now rewrite <- Zle_Qle. }
    pose proof (pow2_pos q) as Hp.
    setoid_replace 0%Q with (0 * pow2 q)%Q using relation Qeq by ring.
    apply Qmult_le_compat_r; [exact Hq | now apply Qlt_le_weak].
Qed.

(** The rounding error: half a unit in the last place, which is at most
    [2^-53] of the number, or [2^-1075] among the subnormal numbers. *)
Lemma double_error (x : Q) :
  (Qabs (double x - x) <= (1 # 9007199254740992) * Qabs x + tiny)%Q.
Proof.
  pose proof tiny_pos as Ht. pose proof (Qabs_nonneg x) as Hax.
  destruct (Qeq_dec x 0) as [Hz | Hne].
  { rewrite (double_zero x Hz).
    assert (H0 : (Qabs (0 - x) == 0)%Q) by (rewrite Hz; reflexivity).
    rewrite H0. lra. }
  rewrite (double_value x Hne). cbv zeta.
  set (e := ilog2 (Qabs (Qred x))). set (q := Z.max (e - 52) (-1074)).
  pose proof (pow2_pos q) as Hq.
  destruct (roundHalfEven_near (x / pow2 q)) as [Hlo Hhi].
  set (n := inject_Z (roundHalfEven (x / pow2 q))) in *.
  assert (Hx : (x == x / pow2 q * pow2 q)%Q) by (field; lra).
  assert (Hhalf : (Qabs (n * pow2 q - x) <= (1 # 2) * pow2 q)%Q).
  { apply Qabs_Qle_condition. split.
    - assert (H : ((x / pow2 q - (1 # 2)) * pow2 q <= n * pow2 q)%Q).
      { apply Qmult_le_compat_r; [lra | now apply Qlt_le_weak]. }
      lra.
    - assert (H : (n * pow2 q <= (x / pow2 q + (1 # 2)) * pow2 q)%Q).
      { apply Qmult_le_compat_r; [lra | now apply Qlt_le_weak]. }
      lra. }
  eapply Qle_trans; [exact Hhalf|].
  assert (Hpos : (0 < Qabs (Qred x))%Q).
  { rewrite Qred_correct.
    destruct (Qlt_le_dec 0 (Qabs x)) as [|Hle]; [assumption|].
    exfalso. apply Hne.
    assert (Hz : (Qabs x == 0)%Q) by lra.
    apply Qabs_Qle_condition in Hle. lra. }
  destruct (ilog2_spec _ Hpos) as [Hpe _]. fold e in Hpe.
  rewrite Qred_correct in Hpe.
  destruct (Z.max_spec (e - 52) (-1074)) as [[_ Hm] | [_ Hm]]; fold q in Hm.
  - rewrite Hm. change ((1 # 2) * pow2 (-1074))%Q with tiny.
    assert (H : (0 <= (1 # 9007199254740992) * Qabs x)%Q) by lra. lra.
  - rewrite Hm. replace (e - 52) with (e + -52) by lia. rewrite pow2_plus.
    change (pow2 (-52)) with (1 # 4503599627370496)%Q. lra.
Qed.

(** [double] returns the kernel's binary64 results on the expressions of
    the pipeline: the percentages of every pair up to 60, negative parts,
    the kWh quotients and energy terms of a range of figures (among them
    23 of 40, 41 of 40, 150000 Wh, 1 W and 54000 W), running sums, and
    ties among the subnormal numbers. *)
Lemma double_agrees_with_binary64 :
  forallb (fun b => forallb (fun a => percentAgrees a b) (integersFrom (-20) 81))
          (integersFrom 1 60) = true /\
  forallb kwhAgrees ((fun k => 50000 * k) <$> integersFrom 0 200) = true /\
  forallb energyAgrees (integersFrom (-100) 700 ++ [3600; 7200; 54000]) = true /\
  forallb sumAgrees [integersFrom 0 100; integersFrom 4000 100; [54000];
                     [3600; 7200]; integersFrom (-50) 100] = true /\
  forallb subnormalAgrees (integersFrom 0 20) = true.
Proof. vm_compute. repeat split. Qed.

Lemma Qfloor_unique (x : Q) (k : Z) :
  (inject_Z k <= x)%Q -> (x < inject_Z k + 1)%Q -> Qfloor x = k.
Proof.
  intros Hlo Hhi.
  pose proof (Qfloor_le x) as H1. pose proof (Qlt_floor x) as H2.
  rewrite inject_Z_plus in H2. change (inject_Z 1) with 1%Q in H2.
  assert (Ha : (inject_Z k < inject_Z (Qfloor x) + 1)%Q) by lra.
  assert (Hb : (inject_Z (Qfloor x) < inject_Z k + 1)%Q) by lra.
  change 1%Q with (inject_Z 1) in Ha, Hb.
  rewrite <- inject_Z_plus, <- Zlt_Qlt in Ha, Hb. lia.
Qed.

Lemma jsRound_near (x : Q) :
  (x - (1 # 2) < inject_Z (jsRound x))%Q /\ (inject_Z (jsRound x) <= x + (1 # 2))%Q.
Proof.
  unfold jsRound.
  pose proof (Qfloor_le (x + (1 # 2))) as H1.
  pose proof (Qlt_floor (x + (1 # 2))) as H2.
  rewrite inject_Z_plus in H2. change (inject_Z 1) with 1%Q in H2.
  split; lra.
Qed.

Lemma jsRound_nonpos (x : Q) : (x <= 0)%Q -> jsRound x <= 0.
Proof.
  intros H. destruct (jsRound_near x) as [_ Hhi].
  assert (Hq : (inject_Z (jsRound x) < inject_Z 1)%Q).
  { change (inject_Z 1) with 1%Q. lra. }
  rewrite <- Zlt_Qlt in Hq. lia.
Qed.

(** Two numbers closer than [delta] round to the same integer unless a
    half-integer lies within [delta] of one of them. *)
Lemma jsRound_close (x y delta : Q) :
  (Qabs (x - y) <= delta)%Q ->
  (forall k : Z, (delta < Qabs (y - (inject_Z k + (1 # 2))))%Q) ->
  jsRound x = jsRound y.
Proof.
  intros Hd Hfar. apply Qabs_Qle_condition in Hd. destruct Hd as [Hd1 Hd2].
  destruct (jsRound_near y) as [Hlo Hhi].
  set (k := jsRound y) in *.
  pose proof (Hfar (k - 1)) as Hk1. pose proof (Hfar k) as Hk0.
  unfold Z.sub in Hk1. rewrite inject_Z_plus in Hk1.
  change (inject_Z (-1)) with (-1)%Q in Hk1.
  assert (E1 : (Qabs (y - (inject_Z k + -1 + (1 # 2)))
                == y - (inject_Z k + -1 + (1 # 2)))%Q) by (apply Qabs_pos; lra).
  assert (E0 : (Qabs (y - (inject_Z k + (1 # 2)))
                == - (y - (inject_Z k + (1 # 2))))%Q) by (apply Qabs_neg; lra).
  rewrite E1 in Hk1. rewrite E0 in Hk0.
  unfold jsRound at 1. apply Qfloor_unique; lra.
Qed.

Lemma jsRound_within_one (x y : Q) :
  (Qabs (x - y) < 1)%Q -> Z.abs (jsRound x - jsRound y) <= 1.
Proof.
  intros Hd. apply Qabs_Qlt_condition in Hd. destruct Hd as [Hd1 Hd2].
  destruct (jsRound_near x) as [Hx1 Hx2]. destruct (jsRound_near y) as [Hy1 Hy2].
  assert (Ha : (inject_Z (jsRound x) < inject_Z (jsRound y + 2))%Q).
  { rewrite inject_Z_plus. change (inject_Z 2) with 2%Q. lra. }
  assert (Hb : (inject_Z (jsRound y) < inject_Z (jsRound x + 2))%Q).
  { rewrite inject_Z_plus. change (inject_Z 2) with 2%Q. lra. }
  rewrite <- Zlt_Qlt in Ha, Hb. lia.
Qed.

(** Two-sided form of the rounding error, with the magnitude named. *)
Lemma double_error_bounds (x m : Q) :
  (Qabs x <= m)%Q ->
  (x - ((1 # 9007199254740992) * m + tiny) <= double x)%Q /\
  (double x <= x + ((1 # 9007199254740992) * m + tiny))%Q.
Proof.
  intros Hm. pose proof (double_error x) as H.
  apply Qabs_Qle_condition in H. destruct H as [H1 H2]. split; lra.
Qed.

(** [(a / b) * 100] in binary64 against the exact percentage. *)
Lemma percent_error (a b : Q) :
  (Qabs (fmul (fdiv a b) 100 - a / b * 100)
   <= (3 # 9007199254740992) * Qabs (a / b * 100) + 202 * tiny)%Q.
Proof.
  unfold fmul, fdiv. set (x := (a / b)%Q).
  pose proof tiny_pos as Ht. pose proof tiny_small as Hts.
  pose proof (Qabs_nonneg x) as HA.
  assert (Hx100 : (Qabs (x * 100) == Qabs x * 100)%Q).
  { rewrite Qabs_Qmult. reflexivity. }
  rewrite Hx100.
  destruct (double_error_bounds x (Qabs x) (Qle_refl _)) as [H1 H2].
  set (r1 := double x) in *.
  pose proof (Qle_Qabs x) as Hxa.
  assert (Hxb : (- x <= Qabs x)%Q).
  { rewrite <- Qabs_opp. apply Qle_Qabs. }
  assert (Hr1 : (Qabs (r1 * 100)
                 <= 100 * (Qabs x + (1 # 9007199254740992) * Qabs x + tiny))%Q).
  { apply Qabs_Qle_condition. split; lra. }
  destruct (double_error_bounds (r1 * 100) _ Hr1) as [H3 H4].
  set (r2 := double (r1 * 100)) in *.
  apply Qabs_Qle_condition. split; lra.
Qed.

(** The printed percentage is within a half, and a rounding error, of the
    exact one. *)
Lemma jsRound_error (x y bound : Q) :
  (Qabs (x - y) <= bound)%Q ->
  (Qabs (inject_Z (jsRound x) - y) <= (1 # 2) + bound)%Q.
Proof.
  intros H. apply Qabs_Qle_condition in H. destruct H as [H1 H2].
  destruct (jsRound_near x) as [Hlo Hhi].
  apply Qabs_Qle_condition. split; lra.
Qed.

(** *** Numbers that binary64 holds exactly *)

Lemma roundHalfEven_inject_Z (n : Z) : roundHalfEven (inject_Z n) = n.
Proof.
  unfold roundHalfEven. rewrite Qfloor_Z.
  assert (H : ((inject_Z n - inject_Z n ?= 1 # 2) = Lt)%Q).
  { apply -> Qlt_alt.
    assert (H0 : (inject_Z n - inject_Z n == 0)%Q) by ring.
    rewrite H0. reflexivity. }
  now rewrite H.
Qed.

Lemma double_reduced (x : Q) : Qred (double x) = double x.
Proof.
  unfold double. destruct (Qeq_bool (Qred x) 0); [reflexivity|].
  apply Qcanon.Qred_involutive.
Qed.

Lemma double_eq (x y : Q) : (double x == y)%Q -> double x = Qred y.
Proof. intros H. rewrite <- double_reduced. now apply Qred_complete. Qed.

Lemma pow2_lt_inv (a b : Z) : (pow2 a < pow2 b)%Q -> a < b.
Proof. intros H. apply (Qpower_lt_compat_l_inv 2); [exact H | reflexivity]. Qed.

(** A number [N * 2^q] with fewer than 53 bits in [N] and [q >= -1074] is
    a binary64 number: rounding returns it. *)
Lemma double_exact (x : Q) (N q : Z) :
  (x == inject_Z N * pow2 q)%Q -> Z.abs N < 2 ^ 53 -> -1074 <= q ->
  (double x == x)%Q.
Proof.
  intros Hx HN Hq.
  destruct (Qeq_dec x 0) as [Hz | Hne].
  { rewrite (double_zero x Hz). now symmetry. }
  rewrite (double_value x Hne). cbv zeta.
  set (e := ilog2 (Qabs (Qred x))). set (q0 := Z.max (e - 52) (-1074)).
  assert (Hpos : (0 < Qabs (Qred x))%Q).
  { rewrite Qred_correct.
    destruct (Qlt_le_dec 0 (Qabs x)) as [|Hle]; [assumption|].
    exfalso. apply Hne. apply Qabs_Qle_condition in Hle. lra. }
  destruct (ilog2_spec _ Hpos) as [Hpe _]. fold e in Hpe.
  rewrite Qred_correct in Hpe.
  assert (Hlt : (Qabs x < pow2 (53 + q))%Q).
  { rewrite Hx, Qabs_Qmult, pow2_plus.
    rewrite (Qabs_pos (pow2 q)) by apply Qlt_le_weak, pow2_pos.
    apply Qmult_lt_compat_r; [apply pow2_pos|].
    rewrite (pow2_nonneg 53) by lia.
    assert (Habs : (Qabs (inject_Z N) == inject_Z (Z.abs N))%Q).
    { unfold Qabs, inject_Z. cbn. reflexivity. }
    rewrite Habs. rewrite <- Zlt_Qlt. exact HN. }
  assert (He : e < 53 + q).
  { apply pow2_lt_inv. eapply Qle_lt_trans; [exact Hpe | exact Hlt]. }
  assert (Hq0 : q0 <= q) by (subst q0; lia).
  assert (Hint : (x / pow2 q0 == inject_Z (N * 2 ^ (q - q0)))%Q).
  { rewrite Hx. rewrite inject_Z_mult.
    rewrite <- (pow2_nonneg (q - q0)) by lia.
    replace q with ((q - q0) + q0) at 1 by lia. rewrite pow2_plus.
    pose proof (pow2_pos q0). field. lra. }
  rewrite (roundHalfEven_comp _ _ Hint), roundHalfEven_inject_Z.
  rewrite <- Hint. pose proof (pow2_pos q0). field. lra.
Qed.

Lemma double_integer (m : Z) :
  Z.abs m < 2 ^ 53 -> double (inject_Z m) = inject_Z m.
Proof.
  intros Hm.
  assert (H : (double (inject_Z m) == inject_Z m)%Q).
  { apply (double_exact _ m 0); [|exact Hm | lia].
    change (pow2 0) with 1%Q. ring. }
  rewrite (double_eq _ _ H). unfold inject_Z.
  apply Qcanon.Qred_identity. apply Z.gcd_1_r.
Qed.

Lemma sumAbs_nonneg (zs : list Z) :
  0 <= foldr (fun z acc => Z.abs z + acc) 0 zs.
Proof. induction zs as [|z zs IH]; cbn; lia. Qed.

(** Adding integers whose magnitudes sum to less than 2^53 is exact. *)
Lemma foldl_fadd_integers (zs : list Z) (m : Z) :
  Z.abs m + foldr (fun z acc => Z.abs z + acc) 0 zs < 2 ^ 53 ->
  foldl fadd (inject_Z m) (inject_Z <$> zs) = inject_Z (m + foldr Z.add 0 zs).
Proof.
  revert m. induction zs as [|z zs IH]; intros m Hm;
    cbn [foldl foldr fmap list_fmap] in *.
  - now rewrite Z.add_0_r.
  - pose proof (sumAbs_nonneg zs) as H0.
    assert (Hstep : fadd (inject_Z m) (inject_Z z) = inject_Z (m + z)).
    { unfold fadd.
      rewrite (double_comp _ (inject_Z (m + z)))
        by (rewrite inject_Z_plus; reflexivity).
      apply double_integer. lia. }
    rewrite Hstep, IH by lia. f_equal. lia.
Qed.

(** The rounded quotient of an integer below 2^52 in magnitude by a count:
    rounding the quotient to binary64 first does not change it. *)
Lemma jsRound_double_quotient (s n : Z) :
  Z.abs s < 2 ^ 52 -> 1 <= n <= 2 ^ 40 ->
  jsRound (double (inject_Z s / inject_Z n)) = jsRound (inject_Z s / inject_Z n).
Proof.
  intros Hs Hn.
  set (x := (inject_Z s / inject_Z n)%Q).
  assert (Hnq : (1 <= inject_Z n)%Q).
  { change 1%Q with (inject_Z 1). rewrite <- Zle_Qle. lia. }
  assert (Hnq2 : (inject_Z n <= 1099511627776)%Q).
  { change 1099511627776%Q with (inject_Z (2 ^ 40)). rewrite <- Zle_Qle. lia. }
  assert (Hxn : (x * inject_Z n == inject_Z s)%Q) by (subst x; field; lra).
  destruct (jsRound_near x) as [Hlo Hhi].
  set (k := jsRound x) in *.
  (* the integer facts: (2k - 1) n < 2 s + ... *)
  assert (Hz1 : 2 * s < (2 * k + 1) * n).
  { rewrite Zlt_Qlt. rewrite !inject_Z_mult, inject_Z_plus, inject_Z_mult.
    change (inject_Z 2) with 2%Q. change (inject_Z 1) with 1%Q.
    rewrite <- Hxn.
    assert (H : (x * inject_Z n < (inject_Z k + (1 # 2)) * inject_Z n)%Q).
    { apply Qmult_lt_compat_r; lra. }
    lra. }
  assert (Hz2 : (2 * k - 1) * n <= 2 * s).
  { rewrite Zle_Qle. unfold Z.sub.
    rewrite !inject_Z_mult, inject_Z_plus, inject_Z_mult, inject_Z_opp.
    change (inject_Z 2) with 2%Q. change (inject_Z 1) with 1%Q.
    rewrite <- Hxn.
    assert (H : ((inject_Z k - (1 # 2)) * inject_Z n <= x * inject_Z n)%Q).
    { apply Qmult_le_compat_r; lra. }
    lra. }
  destruct (Z.eq_dec ((2 * k - 1) * n) (2 * s)) as [Heq | Hneq].
  - (* the quotient is the half-integer k - 1/2 *)
    assert (Hx : (x == inject_Z (2 * k - 1) * pow2 (-1))%Q).
    { change (pow2 (-1)) with (1 # 2)%Q.
      assert (H : (x * inject_Z n == inject_Z (2 * k - 1) * (1 # 2) * inject_Z n)%Q).
      { assert (H2 : (inject_Z (2 * k - 1) * inject_Z n == 2 * inject_Z s)%Q).
        { change 2%Q with (inject_Z 2). rewrite <- !inject_Z_mult.
          now rewrite Heq. }
        lra. }
      apply (Qmult_inj_r _ _ (inject_Z n)); [lra | exact H]. }
    assert (Hk : Z.abs (2 * k - 1) < 2 ^ 53) by nia.
    pose proof (double_exact x (2 * k - 1) (-1) Hx Hk ltac:(lia)) as Hd.
    subst k. unfold jsRound. apply Qfloor_comp. now rewrite Hd.
  - assert (Hz3 : (2 * k - 1) * n + 1 <= 2 * s) by lia.
    assert (Hz4 : 2 * s + 1 <= (2 * k + 1) * n) by lia.
    rewrite Zle_Qle in Hz3, Hz4.
    unfold Z.sub in Hz3.
    rewrite !inject_Z_plus, !inject_Z_mult, ?inject_Z_plus, ?inject_Z_mult,
      ?inject_Z_opp in Hz3, Hz4.
    change (inject_Z 2) with 2%Q in Hz3, Hz4.
    change (inject_Z 1) with 1%Q in Hz3, Hz4.
    change (inject_Z (Z.opp 1)) with (- (1))%Q in Hz3.
    (* the rounding error, scaled by n *)
    pose proof (double_error x) as Herr.
    apply Qabs_Qle_condition in Herr. destruct Herr as [He1 He2].
    pose proof tiny_pos as Ht. pose proof tiny_small as Hts.
    set (D := double x) in *.
    assert (Hsq : (Qabs (inject_Z s) <= 4503599627370495)%Q).
    { assert (Habs : (Qabs (inject_Z s) == inject_Z (Z.abs s))%Q)
        by (unfold Qabs, inject_Z; cbn; reflexivity).
      rewrite Habs. change 4503599627370495%Q with (inject_Z (2 ^ 52 - 1)).
      rewrite <- Zle_Qle. lia. }
    assert (Hax : (Qabs x * inject_Z n == Qabs (inject_Z s))%Q).
    { rewrite <- Hxn, Qabs_Qmult. rewrite (Qabs_pos (inject_Z n)) by lra.
      reflexivity. }
    pose proof (Qabs_nonneg x) as HA0.
    assert (HtN : (tiny * inject_Z n <= tiny * 1099511627776)%Q).
    { apply Qmult_le_l; [exact Ht | exact Hnq2]. }
    assert (HD1 : ((D - x) * inject_Z n
                   <= ((1 # 9007199254740992) * Qabs x + tiny) * inject_Z n)%Q).
    { apply Qmult_le_compat_r; lra. }
    assert (HD2 : (- (((1 # 9007199254740992) * Qabs x + tiny) * inject_Z n)
                   <= (D - x) * inject_Z n)%Q).
    { assert (H : ((- ((1 # 9007199254740992) * Qabs x + tiny)) * inject_Z n
                   <= (D - x) * inject_Z n)%Q)
        by (apply Qmult_le_compat_r; lra).
      lra. }
    unfold jsRound at 1. fold D. apply Qfloor_unique.
    + apply (Qmult_le_r _ _ (inject_Z n)); [lra|]. lra.
    + apply (Qmult_lt_r _ _ (inject_Z n)); [lra|]. lra.
Qed.

(** ** Battery status *)

(** C10. The battery status is a dead-band on the reading's battery power
    (integer watts): above +10 it is "discharging", below -10 it is
    "charging", and everywhere in [-10, 10], both ends and 0 included, it
    is "standby". *)
Theorem batteryStatus_dead_band (batteryPower : Z) :
  (10 < batteryPower -> batteryStatus batteryPower = "discharging") /\
  (batteryPower < -10 -> batteryStatus batteryPower = "charging") /\
  (-10 <= batteryPower <= 10 -> batteryStatus batteryPower = "standby") /\
  batteryStatus 0 = "standby" /\
  batteryStatus 10 = "standby" /\
  batteryStatus (-10) = "standby" /\
  batteryStatus 11 = "discharging" /\
  batteryStatus (-11) = "charging".
Proof.
  unfold batteryStatus. repeat split; try reflexivity; intros H.
  - destruct (Z.ltb_spec 10 batteryPower); [reflexivity | lia].
  - destruct (Z.ltb_spec 10 batteryPower); [lia|].
    destruct (Z.ltb_spec batteryPower (-10)); [reflexivity | lia].
  - destruct (Z.ltb_spec 10 batteryPower); [lia|].
    destruct (Z.ltb_spec batteryPower (-10)); [lia | reflexivity].
Qed.

Lemma batteryStatus_dead_band_witness :
  batteryStatus 7 = "standby".
Proof.
  apply (proj1 (proj2 (proj2 (batteryStatus_dead_band 7)))). lia.
Defined.

(** ** Instantaneous self-powered percentage *)

Lemma selfPoweredPercent_range (loadPower gridPower : Z) :
  0 <= selfPoweredPercent loadPower gridPower <= 100.
Proof.
  unfold selfPoweredPercent.
  destruct (0 <? loadPower); [apply clampPercent_range | lia].
Qed.

Lemma roundedPercentOf_comp (a a' b b' : Q) :
  (a == a')%Q -> (b == b')%Q -> roundedPercentOf a b = roundedPercentOf a' b'.
Proof.
  intros Ha Hb. unfold roundedPercentOf, fmul, fdiv.
  assert (H : (a / b == a' / b')%Q) by now rewrite Ha, Hb.
  now rewrite (double_comp _ _ H).
Qed.

Lemma roundedPercentOf_nonneg (a b : Q) :
  (0 <= a)%Q -> (0 < b)%Q -> 0 <= roundedPercentOf a b.
Proof.
  intros Ha Hb. unfold roundedPercentOf, fmul, fdiv.
  apply jsRound_nonneg, double_nonneg.
  apply Qmult_le_0_compat; [|discriminate].
  apply double_nonneg.
  apply Qle_shift_div_l; [exact Hb|]. now rewrite Qmult_0_l.
Qed.

Lemma roundedPercentOf_nonpos (a b : Q) :
  (a <= 0)%Q -> (0 < b)%Q -> roundedPercentOf a b <= 0.
Proof.
  intros Ha Hb. unfold roundedPercentOf, fmul, fdiv.
  apply jsRound_nonpos, double_nonpos.
  assert (H : (double (a / b) <= 0)%Q).
  { apply double_nonpos.
    apply Qle_shift_div_r; [exact Hb|]. now rewrite Qmult_0_l. }
  lra.
Qed.

(** The whole of a quantity is 100 percent of it, with no rounding. *)
Lemma roundedPercentOf_whole (a : Q) :
  ~ (a == 0)%Q -> roundedPercentOf a a = 100.
Proof.
  intros Hne. unfold roundedPercentOf, fmul, fdiv.
  assert (H : (a / a == 1)%Q) by (field; exact Hne).
  rewrite (double_comp _ _ H). vm_compute. reflexivity.
Qed.

(** A share between 0 and 1 is computed to within [2^-44] of the exact
    percentage. *)
Lemma share_error (a b : Q) :
  (0 <= a)%Q -> (a <= b)%Q -> (0 < b)%Q ->
  (Qabs (fmul (fdiv a b) 100 - a / b * 100) <= 1 # 17592186044416)%Q.
Proof.
  intros Ha Hab Hb. eapply Qle_trans; [apply percent_error|].
  pose proof tiny_pos as Ht. pose proof tiny_small as Hts.
  assert (H0 : (0 <= a / b)%Q).
  { apply Qle_shift_div_l; [exact Hb|]. now rewrite Qmult_0_l. }
  assert (H1 : (a / b <= 1)%Q).
  { apply Qle_shift_div_r; [exact Hb|]. now rewrite Qmult_1_l. }
  assert (Habs : (Qabs (a / b * 100) == a / b * 100)%Q)
    by (apply Qabs_pos; lra).
  rewrite Habs. lra.
Qed.

Lemma selfPoweredPercent_exporting (loadPower gridPower : Z) :
  0 < loadPower -> gridPower <= 0 ->
  selfPoweredPercent loadPower gridPower = 100.
Proof.
  intros Hl Hg. unfold selfPoweredPercent.
  destruct (Z.ltb_spec 0 loadPower); [|lia].
  rewrite Z.max_l by lia. rewrite Z.sub_0_r.
  rewrite roundedPercentOf_whole; [reflexivity|].
  unfold Qeq, inject_Z; simpl. lia.
Qed.

(** C4. The instantaneous self-powered percentage is 0 when the load is
    not positive; otherwise it is the rounded share of the load not
    imported from the grid, clamped to [0, 100], the quotient and the
    product being those of binary64 arithmetic. It agrees with the same
    formula over the exact quotient whenever the exact percentage is
    further than 2^-44 from every half-integer, and is never more than one
    away from it: 17 W of grid for 40 W of load, an exact 57.5, gives 57.
    It always lies in [0, 100]; 980 W of grid for 990 W of load gives 1,
    and an exporting (negative) grid gives 100. *)
Theorem selfPoweredPercent_spec (loadPower gridPower : Z) :
  let share :=
    ((inject_Z loadPower - inject_Z (Z.max 0 gridPower))
     / inject_Z loadPower * 100)%Q in
  (loadPower <= 0 -> selfPoweredPercent loadPower gridPower = 0) /\
  (0 < loadPower ->
   selfPoweredPercent loadPower gridPower =
     Z.max 0 (Z.min 100
       (jsRound
          (fmul (fdiv (inject_Z loadPower - inject_Z (Z.max 0 gridPower))
                      (inject_Z loadPower)) 100))) /\
   ((forall k : Z,
       (1 # 17592186044416 < Qabs (share - (inject_Z k + (1 # 2))))%Q) ->
    selfPoweredPercent loadPower gridPower =
      Z.max 0 (Z.min 100 (jsRound share))) /\
   Z.abs (selfPoweredPercent loadPower gridPower
          - Z.max 0 (Z.min 100 (jsRound share))) <= 1) /\
  0 <= selfPoweredPercent loadPower gridPower <= 100 /\
  (0 < loadPower -> gridPower < 0 ->
   selfPoweredPercent loadPower gridPower = 100) /\
  selfPoweredPercent 990 980 = 1 /\
  selfPoweredPercent 990 (-20) = 100 /\
  selfPoweredPercent 40 17 = 57.
Proof.
  cbv zeta. split; [|split; [|split; [|split; [|split; [|split]]]]].
  - intros H. unfold selfPoweredPercent.
    destruct (Z.ltb_spec 0 loadPower); [lia | reflexivity].
  - intros Hl.
    set (a := (inject_Z loadPower - inject_Z (Z.max 0 gridPower))%Q).
    set (b := inject_Z loadPower).
    assert (Hb : (0 < b)%Q).
    { subst b. change 0%Q with (inject_Z 0). now rewrite <- Zlt_Qlt. }
    assert (Hdef : selfPoweredPercent loadPower gridPower =
                   Z.max 0 (Z.min 100 (roundedPercentOf a b))).
    { unfold selfPoweredPercent.
      destruct (Z.ltb_spec 0 loadPower); [|lia].
      unfold clampPercent. do 2 f_equal.
      apply roundedPercentOf_comp; [|reflexivity].
      subst a. unfold Z.sub. rewrite inject_Z_plus, inject_Z_opp. reflexivity. }
    split; [exact Hdef|]. rewrite Hdef.
    assert (Hab : (a <= b)%Q).
    { subst a b.
      assert (H0 : (inject_Z 0 <= inject_Z (Z.max 0 gridPower))%Q)
        by (rewrite <- Zle_Qle; lia).
      change (inject_Z 0) with 0%Q in H0. lra. }
    destruct (Qlt_le_dec 0 a) as [Hpos | Hneg].
    + pose proof (share_error a b (Qlt_le_weak _ _ Hpos) Hab Hb) as Herr.
      fold (roundedPercentOf a b) in Herr. unfold roundedPercentOf.
      split.
      * intros Hfar.
        rewrite (jsRound_close _ _ _ Herr Hfar). reflexivity.
      * assert (Hone : (Qabs (fmul (fdiv a b) 100 - a / b * 100) < 1)%Q).
        { eapply Qle_lt_trans; [exact Herr | reflexivity]. }
        pose proof (jsRound_within_one _ _ Hone). lia.
    + pose proof (roundedPercentOf_nonpos a b Hneg Hb) as H1.
      assert (H2 : jsRound (a / b * 100) <= 0).
      { apply jsRound_nonpos.
        assert (H : (a / b <= 0)%Q).
        { apply Qle_shift_div_r; [exact Hb|]. now rewrite Qmult_0_l. }
        lra. }
      split; [intros _|]; lia.
  - apply selfPoweredPercent_range.
  - intros Hl Hg. apply selfPoweredPercent_exporting; lia.
  - vm_compute. reflexivity.
  - vm_compute. reflexivity.
  - vm_compute. reflexivity.
Qed.

Lemma selfPoweredPercent_spec_witness :
  selfPoweredPercent 0 500 = 0 /\ selfPoweredPercent 1200 (-300) = 100 /\
  selfPoweredPercent 990 980 =
    Z.max 0 (Z.min 100 (jsRound ((990 - 980) / 990 * 100))).
Proof.
  split; [|split].
  - apply (proj1 (selfPoweredPercent_spec 0 500)). lia.
  - apply (proj1 (proj2 (proj2 (proj2 (selfPoweredPercent_spec 1200 (-300)))))); lia.
  - refine (proj1 (proj2 (proj1 (proj2 (selfPoweredPercent_spec 990 980))
                            ltac:(lia))) _).
    intros k.
    set (share := ((inject_Z 990 - inject_Z (Z.max 0 980)) / inject_Z 990 * 100)%Q).
    assert (Hs : (share == 100 # 99)%Q) by reflexivity.
    assert (Hk : k <= 0 \/ 1 <= k) by lia.
    destruct Hk as [Hk | Hk].
    + assert (Hq : (inject_Z k <= 0)%Q).
      { change 0%Q with (inject_Z 0). now rewrite <- Zle_Qle. }
      apply Qlt_le_trans with (1 # 2)%Q; [reflexivity|].
      apply Qabs_ge. lra.
    + assert (Hq : (1 <= inject_Z k)%Q).
      { change 1%Q with (inject_Z 1). now rewrite <- Zle_Qle. }
      apply Qlt_le_trans with (48 # 100)%Q; [reflexivity|].
      rewrite Qabs_Qminus. apply Qabs_ge. lra.
Defined.

(** ** Daily metrics *)

Lemma Qabs_of_nonneg (x : Q) : (0 <= x)%Q -> Qabs x = x.
Proof.
  destruct x as [a b]. unfold Qle; simpl. intros H.
  rewrite Z.abs_eq by lia. reflexivity.
Qed.

(** [toFixed(1)] prints the nearest number of tenths. *)
Lemma toFixed1_nearest_tenth (x : Q) :
  (0 <= x)%Q -> (x < inject_Z (10 ^ 21))%Q ->
  exists n : Z,
    toFixed1 x =
      KwhFixed (decimalDigits (n / 10) +:+ "." +:+ decimalDigits (n mod 10)) /\
    0 <= n /\
    (inject_Z n - (1 # 2) <= x * 10)%Q /\ (x * 10 < inject_Z n + (1 # 2))%Q.
Proof.
  intros H0 Hbig. exists (Qfloor (x * 10 + (1 # 2))).
  unfold toFixed1. rewrite (Qabs_of_nonneg x H0).
  destruct (Qlt_le_dec x 0) as [Hneg | _].
  { exfalso. exact (Qlt_not_le _ _ Hneg H0). }
  destruct (Qlt_le_dec x (inject_Z (10 ^ 21))) as [_ | Hge].
  2:{ exfalso. exact (Qlt_not_le _ _ Hbig Hge). }
  split; [reflexivity|]. split; [|split].
  - change 0 with (Qfloor 0). apply Qfloor_resp_le.
    apply Qle_trans with (x * 10)%Q.
    + apply Qmult_le_0_compat; [exact H0 | discriminate].
    + rewrite <- (Qplus_0_r (x * 10)) at 1. apply Qplus_le_r. discriminate.
  - pose proof (Qfloor_le (x * 10 + (1 # 2))) as Hle. lra.
  - pose proof (Qlt_floor (x * 10 + (1 # 2))) as Hlt.
    rewrite inject_Z_plus in Hlt. change (inject_Z 1) with 1%Q in Hlt. lra.
Qed.

Lemma dailySelfPowered_range (inst : Z) (d : DayDeltas) :
  0 <= inst <= 100 -> 0 <= dailySelfPowered inst d <= 100.
Proof.
  intros H. unfold dailySelfPowered.
  destruct (Qlt_le_dec 0 (dayLoad d)); [apply clampPercent_range | exact H].
Qed.

Lemma roundedPercentOf_percentageOf (part whole : Q) :
  percentageOf (roundedPercentOf part whole) part whole.
Proof.
  unfold percentageOf, roundedPercentOf.
  pose proof (jsRound_error _ _ _ (percent_error part whole)) as H. lra.
Qed.

(** The kWh text of an energy below 10^26 Wh. *)
Lemma toFixed1_kwhOf (wh : Q) :
  (0 <= wh)%Q -> (wh <= inject_Z (10 ^ 26))%Q ->
  kwhOf (toFixed1 (fdiv wh 1000000)) wh.
Proof.
  intros H0 Hbig. unfold fdiv, kwhOf.
  change (wh / 1000000)%Q with (wh * (1 # 1000000))%Q.
  set (x := (wh * (1 # 1000000))%Q).
  pose proof tiny_pos as Ht. pose proof tiny_small as Hts.
  change (inject_Z (10 ^ 26)) with 100000000000000000000000000%Q in Hbig.
  assert (Hx0 : (0 <= x)%Q) by (subst x; lra).
  assert (Hx1 : (x <= 100000000000000000000)%Q) by (subst x; lra).
  assert (Hax : (Qabs x <= x)%Q) by (rewrite Qabs_pos by exact Hx0; lra).
  destruct (double_error_bounds x x Hax) as [H1 H2].
  pose proof (double_nonneg x Hx0) as Hy0.
  set (y := double x) in *.
  assert (Hy1 : (y < inject_Z (10 ^ 21))%Q).
  { change (inject_Z (10 ^ 21)) with 1000000000000000000000%Q. lra. }
  destruct (toFixed1_nearest_tenth y Hy0 Hy1) as (n & Htext & Hn & Hlo & Hhi).
  exists n. split; [exact Htext|]. split; [exact Hn|].
  apply Qabs_Qle_condition. split; lra.
Qed.

(** C5. With a positive day load the breakdown holds, per channel, the
    rounded percentage of the day load and the channel's figure divided by
    1e6 printed with one decimal, and the daily self-powered percentage is
    the clamped rounded share of solar plus battery; quotients, products
    and the sum are those of binary64 arithmetic. Each percentage is
    within a half (and the rounding error of its quotient and product) of
    the exact one, and each kWh text within a twentieth (and the rounding
    error of its quotient) of the exact millionth: 41 of 40, an exact
    102.5, gives 102, and 150000 prints as "0.1". With a zero day load the
    breakdown is all zeros and the percentage is the instantaneous one. In
    the scenario (solar 1,000,000 then 1,500,000; load 2,000,000 then
    2,800,000) the second reading shows solarKwh "0.5" and solarPct 63. *)
Theorem daily_metrics_spec (inst : Z) (d : DayDeltas) :
  ((0 < dayLoad d)%Q ->
   dailyBreakdown d =
     {| solarPct := jsRound (fmul (fdiv (daySolar d) (dayLoad d)) 100);
        batteryPct := jsRound (fmul (fdiv (dayBattery d) (dayLoad d)) 100);
        gridPct := jsRound (fmul (fdiv (dayGrid d) (dayLoad d)) 100);
        solarKwh := toFixed1 (fdiv (daySolar d) 1000000);
        batteryKwh := toFixed1 (fdiv (dayBattery d) 1000000);
        gridKwh := toFixed1 (fdiv (dayGrid d) 1000000);
        loadKwh := toFixed1 (fdiv (dayLoad d) 1000000) |} /\
   dailySelfPowered inst d =
     Z.max 0 (Z.min 100
       (jsRound (fmul (fdiv (fadd (daySolar d) (dayBattery d)) (dayLoad d))
                      100))) /\
   percentageOf (solarPct (dailyBreakdown d)) (daySolar d) (dayLoad d) /\
   percentageOf (batteryPct (dailyBreakdown d)) (dayBattery d) (dayLoad d) /\
   percentageOf (gridPct (dailyBreakdown d)) (dayGrid d) (dayLoad d) /\
   (forall ch : Channel,
      (0 <= deltaOf ch d)%Q -> (deltaOf ch d <= inject_Z (10 ^ 26))%Q ->
      kwhOf (kwhShown ch (dailyBreakdown d)) (deltaOf ch d))) /\
  ((dayLoad d == 0)%Q ->
   dailyBreakdown d =
     {| solarPct := 0; batteryPct := 0; gridPct := 0;
        solarKwh := KwhNumber 0; batteryKwh := KwhNumber 0;
        gridKwh := KwhNumber 0; loadKwh := KwhNumber 0 |} /\
   dailySelfPowered inst d = inst) /\
  (let first := fetchPowerwallData (pollAt 1000 (Some (gatewayWith 1000000 2000000))) ∅ in
   let later := fetchPowerwallData (pollAt 2000 (Some (gatewayWith 1500000 2800000))) first.1 in
   let deltas := dayDeltas (countersOf (gatewayWith 1500000 2800000))
                   (baselineRowOf (countersOf (gatewayWith 1000000 2000000))) in
   daySolar deltas = 500000%Q /\ dayLoad deltas = 800000%Q /\
   (reading_dailyBreakdown <$> later.2) = Some (dailyBreakdown deltas) /\
   solarKwh (dailyBreakdown deltas) = KwhFixed "0.5" /\
   solarPct (dailyBreakdown deltas) = 63) /\
  (let tie := dailyBreakdown
                {| daySolar := 41; dayBattery := 150000; dayGrid := 0;
                   dayLoad := 40 |} in
   solarPct tie = 102 /\ batteryKwh tie = KwhFixed "0.1").
Proof.
  split; [|split; [|split]].
  - intros Hpos. unfold dailyBreakdown, dailySelfPowered.
    destruct (Qlt_le_dec 0 (dayLoad d)) as [_ | Hle].
    2:{ exfalso. exact (Qlt_not_le _ _ Hpos Hle). }
    split; [reflexivity|]. split; [reflexivity|].
    cbn [solarPct batteryPct gridPct].
    split; [apply roundedPercentOf_percentageOf|].
    split; [apply roundedPercentOf_percentageOf|].
    split; [apply roundedPercentOf_percentageOf|].
    intros ch H0 Hbig.
    destruct ch; cbn [kwhShown solarKwh batteryKwh gridKwh loadKwh deltaOf] in *;
      now apply toFixed1_kwhOf.
  - intros Hz. unfold dailyBreakdown, dailySelfPowered.
    destruct (Qlt_le_dec 0 (dayLoad d)) as [Hlt | _].
    + exfalso. rewrite Hz in Hlt. discriminate Hlt.
    + split; reflexivity.
  - cbv zeta. repeat split; vm_compute; reflexivity.
  - cbv zeta. split; vm_compute; reflexivity.
Qed.

Lemma daily_metrics_spec_witness :
  dailySelfPowered 40
    {| daySolar := 300000; dayBattery := 100000; dayGrid := 400000;
       dayLoad := 800000 |} = 50 /\
  dailySelfPowered 40
    {| daySolar := 0; dayBattery := 0; dayGrid := 0; dayLoad := 0 |} = 40 /\
  kwhOf (KwhFixed "0.5") 500000.
Proof.
  split; [|split].
  - pose proof (proj1 (daily_metrics_spec 40
      {| daySolar := 300000; dayBattery := 100000; dayGrid := 400000;
         dayLoad := 800000 |})) as H.
    cbn [dayLoad daySolar dayBattery] in H.
    rewrite (proj1 (proj2 (H eq_refl))). vm_compute. reflexivity.
  - pose proof (proj1 (proj2 (daily_metrics_spec 40
      {| daySolar := 0; dayBattery := 0; dayGrid := 0; dayLoad := 0 |}))) as H.
    simpl in H. exact (proj2 (H eq_refl)).
  - pose proof (proj1 (daily_metrics_spec 40
      {| daySolar := 500000; dayBattery := 0; dayGrid := 300000;
         dayLoad := 800000 |})) as H.
    cbn [dayLoad] in H.
    pose proof (proj2 (proj2 (proj2 (proj2 (proj2 (H eq_refl))))) Solar) as Hk.
    cbn [deltaOf daySolar] in Hk.
    assert (H0 : (0 <= 500000)%Q) by discriminate.
    assert (H1 : (500000 <= inject_Z (10 ^ 26))%Q) by discriminate.
    specialize (Hk H0 H1).
    assert (Hfield : kwhShown Solar
              (dailyBreakdown
                 {| daySolar := 500000; dayBattery := 0; dayGrid := 300000;
                    dayLoad := 800000 |}) = KwhFixed "0.5")
      by (vm_compute; reflexivity).
    rewrite Hfield in Hk. exact Hk.
Defined.

(** ** Baseline tracker *)

Section BaselineTracker.

Variable todayKey : string.

Lemma trackBaseline_present (w : bool) (c : Counters) (tbl : Baselines)
    (b : BaselineRow) :
  tbl !! todayKey = Some b ->
  trackBaseline w todayKey c tbl = (tbl, Some b).
Proof. intros H. unfold trackBaseline, getBaseline. now rewrite H. Qed.

Lemma trackBaseline_absent_ok (c : Counters) (tbl : Baselines) :
  tbl !! todayKey = None ->
  trackBaseline true todayKey c tbl =
    (<[todayKey := baselineRowOf c]> tbl, Some (baselineRowOf c)).
Proof.
  intros H. unfold trackBaseline, getBaseline, insertBaseline.
  rewrite H. now rewrite lookup_insert_eq.
Qed.

Lemma trackBaseline_absent_fail (c : Counters) (tbl : Baselines) :
  tbl !! todayKey = None ->
  trackBaseline false todayKey c tbl = (tbl, None).
Proof. intros H. unfold trackBaseline, getBaseline. now rewrite H. Qed.

(** Once the date has a row, every later poll reads that row and the
    table stays as it is. *)
Lemma baselineRun_present (tbl : Baselines) (b : BaselineRow)
    (polls : list (bool * Counters)) :
  tbl !! todayKey = Some b ->
  baselineRun todayKey tbl polls = (tbl, replicate (length polls) (Some b)).
Proof.
  intros H. induction polls as [|[w c] rest IH]; [reflexivity|].
  cbn [baselineRun]. rewrite (trackBaseline_present w c tbl b H), IH.
  reflexivity.
Qed.

(** Until an insert succeeds, polls fail and the table is untouched;
    the first insert that succeeds fixes the row for good. *)
Lemma baselineRun_absent (tbl : Baselines)
    (failed rest : list (bool * Counters)) (c0 : Counters) :
  tbl !! todayKey = None ->
  Forall (fun p => p.1 = false) failed ->
  baselineRun todayKey tbl (failed ++ (true, c0) :: rest) =
    (<[todayKey := baselineRowOf c0]> tbl,
     replicate (length failed) None
       ++ replicate (S (length rest)) (Some (baselineRowOf c0))).
Proof.
  intros Hnone Hfailed.
  induction Hfailed as [|[w c] failed Hw _ IH]; cbn [app baselineRun].
  - rewrite (trackBaseline_absent_ok c0 tbl Hnone).
    rewrite (baselineRun_present _ (baselineRowOf c0)) by apply lookup_insert_eq.
    reflexivity.
  - simpl in Hw. subst w.
    rewrite (trackBaseline_absent_fail c tbl Hnone), IH. reflexivity.
Qed.

Lemma dayDeltaRun_baselineRun (tbl : Baselines) (polls : list (bool * Counters)) :
  dayDeltaRun todayKey tbl polls =
    ((baselineRun todayKey tbl polls).1,
     zip_with (fun p b => dayDeltas p.2 <$> b) polls
       (baselineRun todayKey tbl polls).2).
Proof.
  revert tbl. induction polls as [|[w c] rest IH]; intros tbl; [reflexivity|].
  cbn [dayDeltaRun baselineRun].
  destruct (trackBaseline w todayKey c tbl) as [tbl1 b].
  rewrite IH. destruct (baselineRun todayKey tbl1 rest) as [tbl2 bs].
  reflexivity.
Qed.

(** One row serves the whole run: every poll that produces deltas
    computes them against the same baseline. *)
Lemma baselineRun_single_row (tbl : Baselines) (polls : list (bool * Counters)) :
  exists b : BaselineRow,
    forall i r, (baselineRun todayKey tbl polls).2 !! i = Some (Some r) -> r = b.
Proof.
  revert tbl. induction polls as [|[w c] rest IH]; intros tbl.
  - exists (baselineRowOf (solarCounters 0)). intros i r H.
    cbn in H. discriminate.
  - destruct (tbl !! todayKey) as [b|] eqn:Hb.
    + exists b. rewrite (baselineRun_present tbl b _ Hb). intros i r H.
      cbn [snd] in H. apply lookup_replicate in H. destruct H as [H _].
      congruence.
    + destruct w.
      * exists (baselineRowOf c).
        pose proof (baselineRun_absent tbl [] rest c Hb (Forall_nil_2 _)) as Hrun.
        cbn [app length replicate] in Hrun. rewrite Hrun.
        intros i r H. cbn [snd] in H. change (Some (baselineRowOf c) ::
          replicate (length rest) (Some (baselineRowOf c)))
          with (replicate (S (length rest)) (Some (baselineRowOf c))) in H.
        apply lookup_replicate in H. destruct H as [H _]. congruence.
      * destruct (IH tbl) as [b Hrest]. exists b. intros i r H.
        cbn [baselineRun] in H.
        rewrite (trackBaseline_absent_fail c tbl Hb) in H.
        destruct (baselineRun todayKey tbl rest) as [tbl2 bs] eqn:Hrun.
        cbn [snd] in H, Hrest. destruct i as [|i]; [discriminate|].
        exact (Hrest i r H).
Qed.

End BaselineTracker.

(** C2. The baseline step is an insert-if-absent. On a date without a row,
    polls whose insert fails leave the table as it was; the first insert
    that succeeds writes its own counters, and that poll and every later
    one, whatever counters it carries, is handed that row; the table ends
    as the starting table with that single row added under the date. On a
    date that has a row, every poll is handed it and the table does not
    change. *)
Theorem baseline_insert_if_absent_idempotent
    (todayKey : string) (tbl : Baselines) :
  (forall (failed rest : list (bool * Counters)) (c0 : Counters),
     tbl !! todayKey = None ->
     Forall (fun p => p.1 = false) failed ->
     let run := baselineRun todayKey tbl (failed ++ (true, c0) :: rest) in
     run.2 = replicate (length failed) None
         ++ replicate (S (length rest)) (Some (baselineRowOf c0)) /\
     run.1 = <[todayKey := baselineRowOf c0]> tbl /\
     (forall r, (todayKey, r) ∈ map_to_list run.1 -> r = baselineRowOf c0) /\
     (forall k, k <> todayKey -> run.1 !! k = tbl !! k)) /\
  (forall (b : BaselineRow) (polls : list (bool * Counters)),
     tbl !! todayKey = Some b ->
     baselineRun todayKey tbl polls = (tbl, replicate (length polls) (Some b))).
Proof.
  split.
  - intros failed rest c0 Hnone Hfailed run. subst run.
    rewrite (baselineRun_absent todayKey tbl failed rest c0 Hnone Hfailed).
    cbn [fst snd]. repeat split.
    + intros r Hin. apply elem_of_map_to_list in Hin.
      rewrite lookup_insert_eq in Hin. congruence.
    + intros k Hk. now rewrite lookup_insert_ne.
  - intros b polls Hb. exact (baselineRun_present todayKey tbl b polls Hb).
Qed.

Lemma baseline_insert_if_absent_idempotent_witness :
  (baselineRun "2024-06-01" ∅
     [(false, solarCounters 90); (true, solarCounters 100);
      (true, solarCounters 150); (false, solarCounters 120)]).2
  = [None; Some (baselineRowOf (solarCounters 100));
     Some (baselineRowOf (solarCounters 100));
     Some (baselineRowOf (solarCounters 100))].
Proof.
  exact (proj1 (proj1 (baseline_insert_if_absent_idempotent "2024-06-01" ∅)
    [(false, solarCounters 90)]
    [(true, solarCounters 150); (false, solarCounters 120)]
    (solarCounters 100) (lookup_empty _)
    (Forall_cons_2 (fun p : bool * Counters => p.1 = false)
       (false, solarCounters 90) [] eq_refl (Forall_nil_2 _)))).
Defined.

(** ** Day-deltas over a run of polls *)

Lemma deltaOf_dayDeltas (ch : Channel) (c : Counters) (b : BaselineRow) :
  deltaOf ch (dayDeltas c b) = Qmax 0 (cumOf ch c - orZero (baselineOf ch b)).
Proof. destruct ch; reflexivity. Qed.

(** Every delta of a run is computed from its own poll's counter and one
    common baseline value. *)
Lemma channelDeltas_lookup (ch : Channel) (todayKey : string) (tbl : Baselines)
    (polls : list (bool * Counters)) :
  exists base : Q,
    forall (i : nat) (x : Q),
      channelDeltas ch todayKey tbl polls !! i = Some (Some x) ->
      exists w c, polls !! i = Some (w, c) /\ x = Qmax 0 (cumOf ch c - base).
Proof.
  destruct (baselineRun_single_row todayKey tbl polls) as [b Hb].
  exists (orZero (baselineOf ch b)). intros i x H.
  unfold channelDeltas in H. rewrite dayDeltaRun_baselineRun in H.
  cbn [snd] in H. rewrite list_lookup_fmap, lookup_zip_with in H.
  destruct (polls !! i) as [[w c]|] eqn:Hp; [|discriminate].
  destruct ((baselineRun todayKey tbl polls).2 !! i) as [[r|]|] eqn:Hr;
    try discriminate.
  cbn in H. injection H as <-. rewrite (Hb i r Hr).
  exists w, c. split; [reflexivity | apply deltaOf_dayDeltas].
Qed.

(** C1, the part that fails: after readings 100, 150 and a momentary 120
    the solar day-delta goes 0, 50, 20. *)
Lemma dayDelta_glitch_not_monotone :
  ~ nondecreasing (channelDeltas Solar "2024-06-01" ∅ glitchPolls).
Proof.
  intros H.
  assert (Hle : (50 <= 20)%Q).
  { apply (H 1%nat 2%nat); [lia | vm_compute; reflexivity ..]. }
  revert Hle. unfold Qle. simpl. lia.
Qed.

(** C1, as the code has it. In a run of polls on one date key every
    day-delta of every channel is at least 0; between any two polls the
    delta does not go down when the cumulative counter has not gone down,
    so a run whose counter never decreases has deltas that never
    decrease. *)
Theorem dayDelta_nonneg_and_monotone_in_counter
    (ch : Channel) (todayKey : string) (tbl : Baselines)
    (polls : list (bool * Counters)) :
  (forall (i : nat) (x : Q),
     channelDeltas ch todayKey tbl polls !! i = Some (Some x) -> (0 <= x)%Q) /\
  (forall (i j : nat) (wi wj : bool) (ci cj : Counters) (x y : Q),
     polls !! i = Some (wi, ci) -> polls !! j = Some (wj, cj) ->
     channelDeltas ch todayKey tbl polls !! i = Some (Some x) ->
     channelDeltas ch todayKey tbl polls !! j = Some (Some y) ->
     (cumOf ch ci <= cumOf ch cj)%Q -> (x <= y)%Q) /\
  (nondecreasing (channelCounters ch polls) ->
   nondecreasing (channelDeltas ch todayKey tbl polls)).
Proof.
  destruct (channelDeltas_lookup ch todayKey tbl polls) as [base Hbase].
  assert (Hmono : forall i j wi wj ci cj x y,
     polls !! i = Some (wi, ci) -> polls !! j = Some (wj, cj) ->
     channelDeltas ch todayKey tbl polls !! i = Some (Some x) ->
     channelDeltas ch todayKey tbl polls !! j = Some (Some y) ->
     (cumOf ch ci <= cumOf ch cj)%Q -> (x <= y)%Q).
  { intros i j wi wj ci cj x y Hi Hj Hx Hy Hle.
    destruct (Hbase i x Hx) as (w1 & c1 & Hp1 & ->).
    destruct (Hbase j y Hy) as (w2 & c2 & Hp2 & ->).
    rewrite Hi in Hp1. rewrite Hj in Hp2.
    injection Hp1 as <- <-. injection Hp2 as <- <-.
    apply Q.max_le_compat_l. unfold Qminus. apply Qplus_le_l. exact Hle. }
  split; [|split].
  - intros i x Hx. destruct (Hbase i x Hx) as (w & c & _ & ->).
    apply Q.le_max_l.
  - exact Hmono.
  - intros Hcum i j x y Hij Hx Hy.
    destruct (Hbase i x Hx) as (wi & ci & Hi & _).
    destruct (Hbase j y Hy) as (wj & cj & Hj & _).
    apply (Hmono i j wi wj ci cj x y Hi Hj Hx Hy).
    apply (Hcum i j); [exact Hij | |]; unfold channelCounters;
      rewrite list_lookup_fmap; [rewrite Hi | rewrite Hj]; reflexivity.
Qed.

Lemma dayDelta_nonneg_and_monotone_in_counter_witness :
  channelDeltas Solar "2024-06-01" ∅ glitchPolls !! 0%nat = Some (Some 0%Q) /\
  channelDeltas Solar "2024-06-01" ∅ glitchPolls !! 1%nat = Some (Some 50%Q) /\
  (cumOf Solar (solarCounters 100) <= cumOf Solar (solarCounters 150))%Q /\
  (0 <= 50)%Q.
Proof.
  assert (H0 : channelDeltas Solar "2024-06-01" ∅ glitchPolls !! 0%nat
               = Some (Some 0%Q)) by (vm_compute; reflexivity).
  assert (H1 : channelDeltas Solar "2024-06-01" ∅ glitchPolls !! 1%nat
               = Some (Some 50%Q)) by (vm_compute; reflexivity).
  assert (Hle : (cumOf Solar (solarCounters 100)
                 <= cumOf Solar (solarCounters 150))%Q)
    by (vm_compute; discriminate).
  split; [exact H0|]. split; [exact H1|]. split; [exact Hle|].
  exact (proj1 (proj2 (dayDelta_nonneg_and_monotone_in_counter
           Solar "2024-06-01" ∅ glitchPolls))
         0%nat 1%nat true true (solarCounters 100) (solarCounters 150)
         0%Q 50%Q eq_refl eq_refl H0 H1 Hle).
Defined.

(** ** Broadcast fan-out *)

Section ForEach.

Context {A St : Type}.
Variable callback : A -> nat -> list A * St -> list A * St.

(** Whatever every call of the callback preserves, the loop preserves. *)
Lemma forEachFrom_preserves (P : list A * St -> Prop) :
  (forall x k st, st.1 !! k = Some x -> P st -> P (callback x k st)) ->
  forall remaining k st, P st -> P (forEachFrom callback remaining k st).
Proof.
  intros Hstep remaining.
  induction remaining as [|n IH]; intros k st Hst; [exact Hst|].
  cbn [forEachFrom]. apply IH.
  destruct (st.1 !! k) eqn:Hk; [apply Hstep; assumption | exact Hst].
Qed.

End ForEach.

(** With every connection alive the loop visits each index once and leaves
    the array alone. *)
Lemma forEachFrom_all_alive (data : Event) (clients : list Client) :
  Forall (fun c => broken c = false) clients ->
  forall remaining k w,
    (k + remaining = length clients)%nat ->
    forEachFrom (writeOrDrop data) remaining k (clients, w) =
      (clients, w ++ framesFor data (drop k clients)).
Proof.
  intros Halive remaining.
  induction remaining as [|n IH]; intros k w Hlen.
  - cbn [forEachFrom]. rewrite drop_ge by lia.
    cbn. now rewrite app_nil_r.
  - cbn [forEachFrom fst].
    destruct (clients !! k) as [c|] eqn:Hc.
    2:{ apply lookup_ge_None in Hc. lia. }
    unfold writeOrDrop at 2.
    rewrite (proj1 (Forall_lookup _ _) Halive k c Hc). cbn [fst snd].
    rewrite IH by lia.
    rewrite (drop_S clients c k Hc). unfold framesFor.
    cbn [fmap list_fmap]. now rewrite <- app_assoc.
Qed.

Lemma broadcastUpdate_all_alive (data : Event) (s : Server) :
  Forall (fun c => broken c = false) (sseClients s) ->
  broadcastUpdate data s =
    with_connections (sseClients s)
      (wire s ++ framesFor data (sseClients s)) s.
Proof.
  intros Halive. unfold broadcastUpdate, forEach.
  rewrite (forEachFrom_all_alive data _ Halive) by lia.
  reflexivity.
Qed.

(** A broadcast only ever adds frames of its own event to the wire. *)
Lemma broadcastUpdate_wire (data : Event) (s : Server) :
  exists extra,
    wire (broadcastUpdate data s) = wire s ++ extra /\
    Forall (fun f => f.2 = data) extra.
Proof.
  unfold broadcastUpdate, forEach.
  pose proof (forEachFrom_preserves (writeOrDrop data)
    (fun st => exists extra, st.2 = wire s ++ extra /\
                             Forall (fun f => f.2 = data) extra)) as H.
  destruct (H) with (remaining := length (sseClients s)) (k := 0%nat)
    (st := (sseClients s, wire s)) as (extra & Hw & Hall).
  - intros x k st _ (extra & Hw & Hall). unfold writeOrDrop.
    destruct (broken x); cbn [snd].
    + exists extra. split; assumption.
    + exists (extra ++ [(cid x, data)]). split.
      * rewrite Hw. now rewrite app_assoc.
      * apply Forall_app. split; [exact Hall|].
        apply Forall_cons_2; [reflexivity | apply Forall_nil_2].
  - exists []. split; [now rewrite app_nil_r | apply Forall_nil_2].
  - destruct (forEachFrom _ _ _ _) as [cl w]. cbn [snd] in Hw.
    exists extra. split; [exact Hw | exact Hall].
Qed.

(** A broadcast touches nothing but the subscriber array and the wire. *)
Lemma broadcastUpdate_frame (data : Event) (s : Server) :
  let s' := broadcastUpdate data s in
  alerts s' = alerts s /\ history s' = history s /\
  analytics s' = analytics s /\ settings_alerts s' = settings_alerts s /\
  cached_powerwall s' = cached_powerwall s /\
  lastUpdate_powerwall s' = lastUpdate_powerwall s /\
  cached_temps s' = cached_temps s /\
  daily_baselines s' = daily_baselines s /\
  power_samples s' = power_samples s /\ files s' = files s.
Proof.
  unfold broadcastUpdate.
  destruct (forEach _ _ _) as [cl w]. cbn. repeat split.
Qed.

(** A failed write removes the failing subscriber and no live one. *)
Lemma broadcastUpdate_keeps_alive (data : Event) (s : Server) :
  filter (fun c => broken c = false) (sseClients (broadcastUpdate data s)) =
  filter (fun c => broken c = false) (sseClients s).
Proof.
  unfold broadcastUpdate, forEach.
  pose proof (forEachFrom_preserves (writeOrDrop data)
    (fun st => filter (fun c => broken c = false) st.1 =
               filter (fun c => broken c = false) (sseClients s))) as H.
  specialize (H) with (remaining := length (sseClients s)) (k := 0%nat)
    (st := (sseClients s, wire s)).
  destruct (forEachFrom _ _ _ _) as [cl w]. cbn [fst] in H. cbn.
  apply H; [|reflexivity].
  intros x k st Hk Hst. unfold writeOrDrop.
  destruct (broken x) eqn:Hx; cbn [fst]; [|exact Hst].
  rewrite <- Hst. rewrite delete_take_drop.
  rewrite <- (take_drop_middle st.1 k x Hk) at 3.
  rewrite !filter_app, filter_cons_False; [reflexivity|].
  rewrite Hx. discriminate.
Qed.

(** The frames of one broadcast go to a sub-sequence of the subscribers,
    live ones only: nobody is written twice. *)
Lemma forEachFrom_sent (data : Event) (l0 : list Client) :
  forall (remaining k : nat) (cur sent : list Client) (w : list (nat * Event)),
    (sent ++ drop k cur) `sublist_of` l0 ->
    Forall (fun c => broken c = false) sent ->
    exists sent',
      (forEachFrom (writeOrDrop data) remaining k
         (cur, w ++ framesFor data sent)).2 = w ++ framesFor data sent' /\
      sent' `sublist_of` l0 /\
      Forall (fun c => broken c = false) sent'.
Proof.
  induction remaining as [|n IH]; intros k cur sent w Hsub Hsent.
  - exists sent. split; [reflexivity|]. split; [|exact Hsent].
    etrans; [|exact Hsub]. apply sublist_inserts_r. reflexivity.
  - cbn [forEachFrom fst]. destruct (cur !! k) as [c|] eqn:Hk.
    + unfold writeOrDrop. destruct (broken c) eqn:Hc; cbn [fst snd].
      * apply IH; [|exact Hsent]. etrans; [|exact Hsub].
        apply sublist_app; [reflexivity|].
        rewrite delete_take_drop.
        rewrite drop_app_ge by (rewrite length_take; lia).
        rewrite length_take.
        pose proof (lookup_lt_Some _ _ _ Hk) as Hlt.
        replace (S k - k `min` length cur)%nat with 1%nat by lia.
        rewrite (drop_S cur c k Hk). cbn.
        apply sublist_cons, sublist_drop.
      * replace ((w ++ framesFor data sent) ++ [(cid c, data)])
          with (w ++ framesFor data (sent ++ [c])).
        2:{ unfold framesFor. rewrite fmap_app, app_assoc. reflexivity. }
        apply IH.
        -- rewrite <- app_assoc. cbn. rewrite <- (drop_S cur c k Hk).
           exact Hsub.
        -- apply Forall_app. split; [exact Hsent|].
           apply Forall_cons_2; [exact Hc | apply Forall_nil_2].
    + apply IH; [|exact Hsent]. etrans; [|exact Hsub].
      apply sublist_app; [reflexivity|].
      apply lookup_ge_None in Hk. rewrite drop_ge by lia.
      apply sublist_nil_l.
Qed.

Lemma broadcastUpdate_sent (data : Event) (s : Server) :
  exists sent,
    wire (broadcastUpdate data s) = wire s ++ framesFor data sent /\
    sent `sublist_of` sseClients s /\
    Forall (fun c => broken c = false) sent.
Proof.
  destruct (forEachFrom_sent data (sseClients s) (length (sseClients s)) 0
              (sseClients s) [] (wire s)) as (sent & Hw & Hsub & Hall).
  - reflexivity.
  - apply Forall_nil_2.
  - exists sent. split; [|split; assumption].
    unfold broadcastUpdate, forEach. cbn [framesFor fmap list_fmap] in Hw.
    rewrite app_nil_r in Hw.
    destruct (forEachFrom _ _ _ _) as [cl w]. exact Hw.
Qed.

(** C7, at the failing input: the first subscriber's write throws and the
    live subscriber behind it is passed over; it stays subscribed and is
    sent nothing. *)
Theorem broadcastUpdate_skips_after_failure :
  let s' := broadcastUpdate (EvCodeUpdate "abc123") (serverWith deadThenLive) in
  sseClients s' = [ {| cid := 2; broken := false |} ] /\
  wire s' = [] /\
  ~ (2%nat, EvCodeUpdate "abc123") ∈ wire s'.
Proof.
  cbv zeta. split; [reflexivity|]. split; [reflexivity|].
  cbn. apply not_elem_of_nil.
Qed.

(** ** Alert engine *)

Lemma find_id_None (l : list Alert) (alert : Alert) :
  List.find (fun a => String.eqb (alert_id a) (alert_id alert)) l = None <->
  alert_id alert ∉ alertIds l.
Proof.
  unfold alertIds. induction l as [|a l IH]; cbn.
  - split; [intros _; apply not_elem_of_nil | reflexivity].
  - destruct (String.eqb_spec (alert_id a) (alert_id alert)) as [Heq | Hne].
    + split; [discriminate|]. intros H. exfalso. apply H.
      rewrite Heq. apply list_elem_of_here.
    + rewrite IH. rewrite not_elem_of_cons. split; [|tauto].
      intros H. split; [congruence | exact H].
Qed.

Lemma addIfNew_present (l : list Alert) (alert : Alert) :
  alert_id alert ∈ alertIds l -> addIfNew l alert = l.
Proof.
  intros H. unfold addIfNew.
  destruct (List.find _ l) eqn:Hf; [reflexivity|].
  apply find_id_None in Hf. contradiction.
Qed.

Lemma addIfNew_absent (l : list Alert) (alert : Alert) :
  alert_id alert ∉ alertIds l -> addIfNew l alert = l ++ [alert].
Proof.
  intros H. unfold addIfNew. apply find_id_None in H. now rewrite H.
Qed.

Lemma raiseAlert_present (s : Server) (alert : Alert) :
  alert_id alert ∈ alertIds (alerts s) -> raiseAlert s alert = s.
Proof.
  intros H. unfold raiseAlert.
  destruct (List.find _ (alerts s)) eqn:Hf; [reflexivity|].
  apply find_id_None in Hf. contradiction.
Qed.

Lemma raiseAlert_absent (s : Server) (alert : Alert) :
  alert_id alert ∉ alertIds (alerts s) ->
  raiseAlert s alert =
    broadcastUpdate (EvAlert alert) (with_alerts (alerts s ++ [alert]) s).
Proof.
  intros H. unfold raiseAlert. apply find_id_None in H. now rewrite H.
Qed.

Lemma alerts_raiseAlert (s : Server) (alert : Alert) :
  alerts (raiseAlert s alert) = addIfNew (alerts s) alert.
Proof.
  unfold raiseAlert, addIfNew.
  destruct (List.find _ (alerts s)); [reflexivity|].
  now rewrite (proj1 (broadcastUpdate_frame _ _)).
Qed.

Lemma alerts_foldl_raiseAlert (cs : list Alert) (s : Server) :
  alerts (foldl raiseAlert s cs) = foldl addIfNew (alerts s) cs.
Proof.
  revert s. induction cs as [|a cs IH]; intros s; [reflexivity|].
  cbn [foldl]. now rewrite IH, alerts_raiseAlert.
Qed.

(** Raising alerts reads and writes only the alert list, the subscriber
    array and the wire. *)
Lemma raiseAlert_frame (s : Server) (alert : Alert) :
  let s' := raiseAlert s alert in
  settings_alerts s' = settings_alerts s /\ files s' = files s /\
  history s' = history s /\ analytics s' = analytics s /\
  cached_powerwall s' = cached_powerwall s /\
  lastUpdate_powerwall s' = lastUpdate_powerwall s /\
  cached_temps s' = cached_temps s /\
  daily_baselines s' = daily_baselines s /\
  power_samples s' = power_samples s.
Proof.
  cbv zeta. unfold raiseAlert.
  destruct (List.find _ (alerts s)); [repeat split|].
  pose proof (broadcastUpdate_frame (EvAlert alert)
    (with_alerts (alerts s ++ [alert]) s)) as H. cbv zeta in H.
  cbn in H. tauto.
Qed.

Lemma foldl_raiseAlert_frame (cs : list Alert) (s : Server) :
  let s' := foldl raiseAlert s cs in
  settings_alerts s' = settings_alerts s /\ files s' = files s /\
  history s' = history s /\ analytics s' = analytics s /\
  cached_powerwall s' = cached_powerwall s /\
  lastUpdate_powerwall s' = lastUpdate_powerwall s /\
  cached_temps s' = cached_temps s /\
  daily_baselines s' = daily_baselines s /\
  power_samples s' = power_samples s.
Proof.
  cbv zeta. revert s. induction cs as [|a cs IH]; intros s; [repeat split|].
  cbn [foldl]. specialize (IH (raiseAlert s a)).
  pose proof (raiseAlert_frame s a) as H. cbv zeta in H.
  destruct IH as (-> & -> & -> & -> & -> & -> & -> & -> & ->). exact H.
Qed.

Lemma sliceLast_short {A : Type} (n : nat) (l : list A) :
  (length l <= n)%nat -> sliceLast n l = l.
Proof.
  intros H. unfold sliceLast.
  replace (length l - n)%nat with 0%nat by lia. reflexivity.
Qed.

Lemma alertIds_addIfNew_elem (l : list Alert) (alert : Alert) (x : string) :
  x ∈ alertIds (addIfNew l alert) <-> x ∈ alertIds l \/ x = alert_id alert.
Proof.
  destruct (decide (alert_id alert ∈ alertIds l)) as [Hin | Hout].
  - rewrite (addIfNew_present l alert Hin). split; [tauto|].
    intros [H | ->]; assumption.
  - rewrite (addIfNew_absent l alert Hout). unfold alertIds.
    rewrite fmap_app, elem_of_app. cbn. rewrite list_elem_of_singleton.
    reflexivity.
Qed.

Lemma addIfNew_keeps (l : list Alert) (alert a : Alert) :
  a ∈ l -> a ∈ addIfNew l alert.
Proof.
  intros H. unfold addIfNew. destruct (List.find _ l); [exact H|].
  apply elem_of_app. now left.
Qed.

Lemma alertsInv_addIfNew (l : list Alert) (alert : Alert) :
  alertsInv l -> alert_id alert ∈ alertKinds -> alertsInv (addIfNew l alert).
Proof.
  intros [Hnd Hk] Hkind.
  destruct (decide (alert_id alert ∈ alertIds l)) as [Hin | Hout].
  - rewrite (addIfNew_present l alert Hin). split; assumption.
  - rewrite (addIfNew_absent l alert Hout). unfold alertsInv, alertIds in *.
    rewrite fmap_app. cbn. split.
    + apply NoDup_app. split; [exact Hnd|]. split.
      * intros x Hx Hx'. apply list_elem_of_singleton in Hx'. subst x.
        contradiction.
      * apply NoDup_singleton.
    + apply Forall_app. split; [exact Hk|].
      apply Forall_cons_2; [exact Hkind | apply Forall_nil_2].
Qed.

Lemma alertsInv_foldl (cs l : list Alert) :
  alertsInv l -> Forall (fun i => i ∈ alertKinds) (alertIds cs) ->
  alertsInv (foldl addIfNew l cs).
Proof.
  revert l. induction cs as [|a cs IH]; intros l Hl Hcs; [exact Hl|].
  cbn [foldl]. unfold alertIds in Hcs. cbn in Hcs.
  apply Forall_cons in Hcs. destruct Hcs as [Ha Hcs].
  apply IH; [apply alertsInv_addIfNew; assumption | exact Hcs].
Qed.

Lemma alertIds_foldl_elem (cs l : list Alert) (x : string) :
  x ∈ alertIds (foldl addIfNew l cs) <-> x ∈ alertIds l \/ x ∈ alertIds cs.
Proof.
  revert l. induction cs as [|a cs IH]; intros l; cbn [foldl].
  - unfold alertIds at 3. cbn. rewrite elem_of_nil. tauto.
  - rewrite IH, alertIds_addIfNew_elem. unfold alertIds at 4. cbn.
    rewrite elem_of_cons. tauto.
Qed.

Lemma alertsInv_length (l : list Alert) : alertsInv l -> (length l <= 6)%nat.
Proof.
  intros [Hnd Hk].
  assert (H : alertIds l ⊆+ alertKinds).
  { apply NoDup_submseteq; [exact Hnd|]. intros x Hx.
    exact (proj1 (Forall_forall _ _) Hk x Hx). }
  apply submseteq_length in H. unfold alertIds in H.
  rewrite length_fmap in H. exact H.
Qed.

Ltac split_conditions :=
  repeat match goal with
         | |- context [if ?b then _ else _] => destruct b
         | |- context [match ?t with Some _ => _ | None => _ end] => destruct t
         end.

Lemma newAlerts_kinds (now : Z) (st : AlertSettings) (p : Reading)
    (t : option Z) :
  Forall (fun i => i ∈ alertKinds) (alertIds (newAlerts now st p t)).
Proof.
  unfold newAlerts, alertIds, alertKinds. split_conditions; cbn;
    repeat (apply Forall_cons_2; [compute_done|]); apply Forall_nil_2.
Qed.

Lemma newAlerts_NoDup (now : Z) (st : AlertSettings) (p : Reading)
    (t : option Z) :
  NoDup (alertIds (newAlerts now st p t)).
Proof.
  unfold newAlerts, alertIds. split_conditions; cbn;
    repeat (apply NoDup_cons_2; [compute_done|]); apply NoDup_nil_2.
Qed.

(** The candidates of two evaluations of the same condition differ in
    their timestamps only. *)
Lemma newAlerts_ids_time (n1 n2 : Z) (st : AlertSettings) (p : Reading)
    (t : option Z) :
  alertIds (newAlerts n1 st p t) = alertIds (newAlerts n2 st p t).
Proof. unfold newAlerts, alertIds. split_conditions; reflexivity. Qed.

Lemma newAlerts_timestamp (now : Z) (st : AlertSettings) (p : Reading)
    (t : option Z) :
  Forall (fun a => alert_timestamp a = now) (newAlerts now st p t).
Proof.
  unfold newAlerts. split_conditions; cbn;
    repeat (apply Forall_cons_2; [reflexivity|]); apply Forall_nil_2.
Qed.

Lemma alerts_checkAlerts (now : Z) (p : Reading) (t : option Z) (s : Server) :
  alerts (checkAlerts now p t s) =
    sliceLast 100
      (foldl addIfNew (alerts s) (newAlerts now (settings_alerts s) p t)).
Proof. unfold checkAlerts. cbn. now rewrite alerts_foldl_raiseAlert. Qed.

Lemma alertsInv_candidates (now : Z) (p : Reading) (t : option Z) (s : Server) :
  alertsInv (alerts s) ->
  alertsInv (foldl addIfNew (alerts s) (newAlerts now (settings_alerts s) p t)).
Proof. intros H. apply alertsInv_foldl; [exact H | apply newAlerts_kinds]. Qed.

(** With the invariant the trim to 100 entries never bites. *)
Lemma alerts_checkAlerts_inv (now : Z) (p : Reading) (t : option Z) (s : Server) :
  alertsInv (alerts s) ->
  alerts (checkAlerts now p t s) =
    foldl addIfNew (alerts s) (newAlerts now (settings_alerts s) p t).
Proof.
  intros H. rewrite alerts_checkAlerts. apply sliceLast_short.
  pose proof (alertsInv_length _ (alertsInv_candidates now p t s H)). lia.
Qed.

Lemma alertsInv_checkAlerts (now : Z) (p : Reading) (t : option Z) (s : Server) :
  alertsInv (alerts s) -> alertsInv (alerts (checkAlerts now p t s)).
Proof.
  intros H. rewrite (alerts_checkAlerts_inv now p t s H).
  apply alertsInv_candidates, H.
Qed.

Lemma alertsInv_filter (P : Alert -> Prop) `{!forall a, Decision (P a)}
    (l : list Alert) :
  alertsInv l -> alertsInv (filter P l).
Proof.
  unfold alertsInv, alertIds. induction l as [|a l IH]; [tauto|].
  cbn [fmap list_fmap]. rewrite NoDup_cons, Forall_cons.
  intros [[Hnotin Hnd] [Hk Hks]]. specialize (IH (conj Hnd Hks)).
  rewrite filter_cons. destruct (decide (P a)); [|exact IH].
  cbn [fmap list_fmap]. rewrite NoDup_cons, Forall_cons.
  destruct IH as [IHnd IHk]. repeat split; try assumption.
  intros Hin. apply Hnotin. apply list_elem_of_fmap in Hin.
  destruct Hin as (b & Hb & Hin). apply list_elem_of_filter in Hin.
  apply list_elem_of_fmap. exists b. tauto.
Qed.

Lemma alertsInv_clearAlert (id : string) (s : Server) :
  alertsInv (alerts s) -> alertsInv (alerts (clearAlert id s)).
Proof. intros H. unfold clearAlert. cbn. now apply alertsInv_filter. Qed.

Lemma foldl_raiseAlert_present (cs : list Alert) (s : Server) :
  (forall x, x ∈ alertIds cs -> x ∈ alertIds (alerts s)) ->
  foldl raiseAlert s cs = s.
Proof.
  induction cs as [|a cs IH]; intros H; [reflexivity|].
  cbn [foldl]. rewrite raiseAlert_present.
  - apply IH. intros x Hx. apply H. unfold alertIds. cbn.
    apply list_elem_of_further, Hx.
  - apply H. unfold alertIds. cbn. apply list_elem_of_here.
Qed.

Lemma snapshot_again (kept : list Alert) (s : Server) :
  let s1 := saveJSON ALERTS_FILE (JsonAlerts kept) (with_alerts kept s) in
  saveJSON ALERTS_FILE (JsonAlerts kept) (with_alerts kept s1) = s1.
Proof.
  cbv zeta. unfold saveJSON, with_alerts. cbn. f_equal.
  apply insert_insert_eq.
Qed.

Lemma settings_checkAlerts (now : Z) (p : Reading) (t : option Z) (s : Server) :
  settings_alerts (checkAlerts now p t s) = settings_alerts s.
Proof.
  unfold checkAlerts. cbn.
  exact (proj1 (foldl_raiseAlert_frame _ s)).
Qed.

(** Evaluating the same condition again changes nothing at all: no entry
    is added or rewritten, nothing is sent. *)
Lemma checkAlerts_again (n1 n2 : Z) (p : Reading) (t : option Z) (s : Server) :
  alertsInv (alerts s) ->
  checkAlerts n2 p t (checkAlerts n1 p t s) = checkAlerts n1 p t s.
Proof.
  intros Hinv.
  pose proof (alerts_checkAlerts_inv n1 p t s Hinv) as Halerts.
  pose proof (alertsInv_checkAlerts n1 p t s Hinv) as Hinv1.
  pose proof (settings_checkAlerts n1 p t s) as Hset.
  set (s1 := checkAlerts n1 p t s) in *.
  unfold checkAlerts at 1.
  rewrite foldl_raiseAlert_present.
  - rewrite sliceLast_short by (pose proof (alertsInv_length _ Hinv1); lia).
    subst s1. unfold checkAlerts at 2 3 4.
    set (s0 := foldl raiseAlert s _).
    assert (Heq : alerts (checkAlerts n1 p t s) = sliceLast 100 (alerts s0))
      by reflexivity.
    rewrite Heq. apply snapshot_again.
  - intros x Hx. rewrite Hset in Hx.
    rewrite (newAlerts_ids_time n2 n1) in Hx.
    rewrite Halerts. apply alertIds_foldl_elem. now right.
Qed.

Lemma filter_none {A : Type} (P : A -> Prop) `{!forall x, Decision (P x)}
    (l : list A) :
  (forall x, x ∈ l -> ~ P x) -> filter P l = [].
Proof.
  intros Hno. destruct (filter P l) as [|x k] eqn:Hf; [reflexivity|].
  assert (Hx : x ∈ filter P l) by (rewrite Hf; apply list_elem_of_here).
  apply list_elem_of_filter in Hx. destruct Hx as [HP Hin].
  exfalso. exact (Hno x Hin HP).
Qed.

Lemma entriesOf_unique (l : list Alert) (a : Alert) :
  NoDup (alertIds l) -> a ∈ l -> entriesOf (alert_id a) l = [a].
Proof.
  unfold entriesOf, alertIds. induction l as [|b l IH]; intros Hnd Hin.
  - apply elem_of_nil in Hin. contradiction.
  - cbn in Hnd. apply NoDup_cons in Hnd. destruct Hnd as [Hnotin Hnd].
    rewrite filter_cons. apply elem_of_cons in Hin.
    destruct Hin as [<- | Hin].
    + destruct (decide (alert_id a = alert_id a)); [|congruence].
      f_equal. apply filter_none.
      intros x Hx Heq. apply Hnotin. rewrite <- Heq.
      apply list_elem_of_fmap. exists x. tauto.
    + destruct (decide (alert_id b = alert_id a)) as [Heq | _].
      * exfalso. apply Hnotin. rewrite Heq.
        apply list_elem_of_fmap. exists a. tauto.
      * apply IH; assumption.
Qed.

Lemma entriesOf_clearAlert (id : string) (s : Server) :
  entriesOf id (alerts (clearAlert id s)) = [].
Proof.
  unfold clearAlert, entriesOf. cbn. apply filter_none.
  intros a Ha. apply list_elem_of_filter in Ha. tauto.
Qed.

Lemma clearAlert_absent (id : string) (s : Server) :
  id ∉ alertIds (alerts (clearAlert id s)).
Proof.
  unfold clearAlert, alertIds. cbn. intros H.
  apply list_elem_of_fmap in H. destruct H as (a & -> & Ha).
  apply list_elem_of_filter in Ha. tauto.
Qed.

(** While every connection is alive, raising alerts leaves the subscriber
    array alone, and an alert that is new to the list ends up in it and is
    written to every subscriber. *)
Lemma foldl_raiseAlert_delivers (cs : list Alert) :
  forall s : Server,
    Forall (fun c => broken c = false) (sseClients s) ->
    NoDup (alertIds cs) ->
    let s' := foldl raiseAlert s cs in
    sseClients s' = sseClients s /\
    exists extra,
      wire s' = wire s ++ extra /\
      forall a, a ∈ cs -> alert_id a ∉ alertIds (alerts s) ->
        a ∈ alerts s' /\
        forall c, c ∈ sseClients s -> (cid c, EvAlert a) ∈ extra.
Proof.
  induction cs as [|b cs IH]; intros s Halive Hnd; cbv zeta.
  - split; [reflexivity|]. exists []. split; [now rewrite app_nil_r|].
    intros a Ha. apply elem_of_nil in Ha. contradiction.
  - unfold alertIds in Hnd. cbn in Hnd. apply NoDup_cons in Hnd.
    destruct Hnd as [Hb Hnd]. cbn [foldl].
    destruct (decide (alert_id b ∈ alertIds (alerts s))) as [Hin | Hout].
    + rewrite (raiseAlert_present s b Hin).
      destruct (IH s Halive Hnd) as (Hcl & extra & Hw & Hdel).
      split; [exact Hcl|]. exists extra. split; [exact Hw|].
      intros a Ha Hnew. apply elem_of_cons in Ha. destruct Ha as [-> | Ha].
      * contradiction.
      * apply Hdel; assumption.
    + rewrite (raiseAlert_absent s b Hout).
      set (s0 := with_alerts (alerts s ++ [b]) s).
      assert (Halive0 : Forall (fun c => broken c = false) (sseClients s0))
        by exact Halive.
      rewrite (broadcastUpdate_all_alive (EvAlert b) s0 Halive0).
      set (s1 := with_connections _ _ s0).
      destruct (IH s1 Halive Hnd) as (Hcl & extra & Hw & Hdel).
      split; [exact Hcl|].
      exists (framesFor (EvAlert b) (sseClients s) ++ extra).
      split; [rewrite Hw; cbn; now rewrite <- app_assoc|].
      intros a Ha Hnew. apply elem_of_cons in Ha. destruct Ha as [-> | Ha].
      * split.
        -- rewrite alerts_foldl_raiseAlert.
           assert (Hb1 : b ∈ alerts s1).
           { cbn. apply elem_of_app. right. apply list_elem_of_here. }
           clear -Hb1. revert Hb1. generalize (alerts s1).
           induction cs as [|c cs IHcs]; intros l Hl; [exact Hl|].
           cbn [foldl]. apply IHcs, addIfNew_keeps, Hl.
        -- intros c Hc. apply elem_of_app. left. unfold framesFor.
           apply list_elem_of_fmap. exists c. tauto.
      * assert (Hnew1 : alert_id a ∉ alertIds (alerts s1)).
        { cbn. unfold alertIds. rewrite fmap_app, elem_of_app. cbn.
          rewrite list_elem_of_singleton. intros [H | H]; [contradiction|].
          apply Hb. rewrite <- H. apply list_elem_of_fmap. exists a. tauto. }
        destruct (Hdel a Ha Hnew1) as [Hin Hall]. split; [exact Hin|].
        intros c Hc. apply elem_of_app. right. apply Hall, Hc.
Qed.

Lemma foldl_addIfNew_keeps (cs l : list Alert) (a : Alert) :
  a ∈ l -> a ∈ foldl addIfNew l cs.
Proof.
  revert l. induction cs as [|c cs IH]; intros l Hl; [exact Hl|].
  cbn [foldl]. apply IH, addIfNew_keeps, Hl.
Qed.

(** A candidate whose identifier the list lacks is appended as it is. *)
Lemma foldl_addIfNew_new (cs l : list Alert) (a : Alert) :
  NoDup (alertIds cs) -> a ∈ cs -> alert_id a ∉ alertIds l ->
  a ∈ foldl addIfNew l cs.
Proof.
  revert l. induction cs as [|b cs IH]; intros l Hnd Ha Hnew.
  - apply elem_of_nil in Ha. contradiction.
  - unfold alertIds in Hnd. cbn in Hnd. apply NoDup_cons in Hnd.
    destruct Hnd as [Hb Hnd]. cbn [foldl].
    apply elem_of_cons in Ha. destruct Ha as [-> | Ha].
    + apply foldl_addIfNew_keeps. rewrite (addIfNew_absent l b Hnew).
      apply elem_of_app. right. apply list_elem_of_here.
    + apply IH; [exact Hnd | exact Ha |].
      rewrite alertIds_addIfNew_elem. intros [H | H]; [contradiction|].
      apply Hb. rewrite <- H. apply list_elem_of_fmap. exists a. tauto.
Qed.

Lemma files_checkAlerts (now : Z) (p : Reading) (t : option Z) (s : Server) :
  files (checkAlerts now p t s) !! ALERTS_FILE =
    Some (JsonAlerts (alerts (checkAlerts now p t s))).
Proof. unfold checkAlerts. cbn. apply lookup_insert_eq. Qed.

(** *** The alert list of a running server *)

Lemma alertsInv_nil : alertsInv [].
Proof. split; [apply NoDup_nil_2 | apply Forall_nil_2]. Qed.

Lemma alertsInv_publish (e : Env) (data : Reading) (at_ : option Z)
    (tbl : Baselines) (s : Server) :
  alertsInv (alerts s) ->
  alertsInv
    (alerts
       (broadcastUpdate (EvPowerwall data)
          (checkAlerts (clockStored e) data
             (cached_temps
                (insertSample e data
                   (appendHistory e data
                      (with_cache (Some data) at_ (with_baselines tbl s)))))
             (insertSample e data
                (appendHistory e data
                   (with_cache (Some data) at_ (with_baselines tbl s))))))).
Proof.
  intros H. rewrite (proj1 (broadcastUpdate_frame _ _)).
  apply alertsInv_checkAlerts. unfold insertSample.
  destruct (sampleWrite e); exact H.
Qed.

Lemma alertsInv_step (s s' : Server) :
  ServerStep s s' -> alertsInv (alerts s) -> alertsInv (alerts s').
Proof.
  intros Hstep H. destruct Hstep as [e s | e s | now s | id s].
  - unfold ssePoll. destruct (sseClients s); [exact H|].
    destruct (fetchPowerwallData e (daily_baselines s)) as [tbl [data|]];
      [|exact H].
    apply alertsInv_publish, H.
  - unfold getPowerwall. destruct (freshCache (clockRequest e) s); [exact H|].
    destruct (fetchPowerwallData e (daily_baselines s)) as [tbl [data|]];
      [|exact H].
    cbn [fst]. apply alertsInv_publish, H.
  - unfold hourlyTick.
    destruct (calculateHourlyAnalytics now (history s)); [|exact H].
    rewrite (proj1 (broadcastUpdate_frame _ _)). exact H.
  - apply alertsInv_clearAlert, H.
Qed.

(** Started with an alert list that has the invariant (the empty list of
    a first start, or a list this server saved), the server keeps it. *)
Lemma alertsInv_reachable (s0 s : Server) :
  alertsInv (alerts s0) -> Reachable s0 s -> alertsInv (alerts s).
Proof.
  intros H0 Hreach. induction Hreach as [|s s' _ IH Hstep]; [exact H0|].
  exact (alertsInv_step s s' Hstep IH).
Qed.

(** C3. A candidate is appended and broadcast only when the list has no
    entry with its identifier: raising one whose identifier is present
    changes nothing. Evaluating a breach leaves exactly one entry with its
    identifier, persisted in the alerts file; evaluating the same breach
    again changes nothing (no second entry, no update, no frame sent);
    after clearAlert removes the entry, the next evaluation of the breach
    re-raises it: the new candidate is the one entry with that identifier,
    it is persisted, and it is written to every subscriber (all of them
    being alive). *)
Theorem alert_deduplication (s : Server) (n1 n2 n3 : Z) (p : Reading)
    (t : option Z) (id : string) :
  alertsInv (alerts s) ->
  id ∈ alertIds (newAlerts n1 (settings_alerts s) p t) ->
  let s1 := checkAlerts n1 p t s in
  let s2 := checkAlerts n2 p t s1 in
  let s3 := clearAlert id s2 in
  let s4 := checkAlerts n3 p t s3 in
  (forall alert, alert_id alert ∈ alertIds (alerts s) -> raiseAlert s alert = s) /\
  length (entriesOf id (alerts s1)) = 1%nat /\
  files s1 !! ALERTS_FILE = Some (JsonAlerts (alerts s1)) /\
  s2 = s1 /\
  entriesOf id (alerts s3) = [] /\
  exists a : Alert,
    a ∈ newAlerts n3 (settings_alerts s) p t /\
    alert_id a = id /\ alert_timestamp a = n3 /\
    entriesOf id (alerts s4) = [a] /\
    files s4 !! ALERTS_FILE = Some (JsonAlerts (alerts s4)) /\
    (Forall (fun c => broken c = false) (sseClients s3) ->
     exists extra,
       wire s4 = wire s3 ++ extra /\
       forall c, c ∈ sseClients s3 -> (cid c, EvAlert a) ∈ extra).
Proof.
  intros Hinv Hid s1 s2 s3 s4.
  assert (Hinv1 : alertsInv (alerts s1)) by exact (alertsInv_checkAlerts n1 p t s Hinv).
  assert (H21 : s2 = s1) by exact (checkAlerts_again n1 n2 p t s Hinv).
  assert (Hinv3 : alertsInv (alerts s3)).
  { subst s3. rewrite H21. apply alertsInv_clearAlert, Hinv1. }
  assert (Hset3 : settings_alerts s3 = settings_alerts s).
  { subst s3. rewrite H21. unfold clearAlert. cbn. apply settings_checkAlerts. }
  split; [exact (raiseAlert_present s)|]. split; [|split; [|split; [|split]]].
  - assert (Hin : id ∈ alertIds (alerts s1)).
    { subst s1. rewrite (alerts_checkAlerts_inv n1 p t s Hinv).
      apply alertIds_foldl_elem. now right. }
    apply list_elem_of_fmap in Hin. destruct Hin as (a & -> & Ha).
    rewrite (entriesOf_unique _ a (proj1 Hinv1) Ha). reflexivity.
  - apply files_checkAlerts.
  - exact H21.
  - apply entriesOf_clearAlert.
  - rewrite (newAlerts_ids_time n1 n3) in Hid.
    apply list_elem_of_fmap in Hid. destruct Hid as (a & Hida & Ha).
    exists a. split; [exact Ha|]. split; [now symmetry|]. split.
    { exact (proj1 (Forall_forall _ _) (newAlerts_timestamp n3 _ p t) a Ha). }
    assert (Hnew : alert_id a ∉ alertIds (alerts s3)).
    { rewrite <- Hida. subst s3. apply clearAlert_absent. }
    rewrite <- Hset3 in Ha. split; [|split].
    + rewrite Hida. apply entriesOf_unique.
      * exact (proj1 (alertsInv_checkAlerts n3 p t s3 Hinv3)).
      * subst s4. rewrite (alerts_checkAlerts_inv n3 p t s3 Hinv3).
        apply foldl_addIfNew_new; [apply newAlerts_NoDup | exact Ha | exact Hnew].
    + apply files_checkAlerts.
    + intros Halive.
      destruct (foldl_raiseAlert_delivers
                  (newAlerts n3 (settings_alerts s3) p t) s3 Halive
                  (newAlerts_NoDup n3 _ p t)) as (_ & extra & Hw & Hdel).
      exists extra. split; [exact Hw|].
      intros c Hc. exact (proj2 (Hdel a Ha Hnew) c Hc).
Qed.

Lemma alert_deduplication_witness :
  let s1 := checkAlerts 1000 lowBatteryReading None (serverWith [liveClient]) in
  length (entriesOf "battery-low" (alerts s1)) = 1%nat /\
  checkAlerts 2000 lowBatteryReading None s1 = s1.
Proof.
  pose proof (alert_deduplication (serverWith [liveClient]) 1000 2000 3000
    lowBatteryReading None "battery-low") as H.
  assert (Hinv : alertsInv (alerts (serverWith [liveClient]))).
  { split; [apply NoDup_nil_2 | apply Forall_nil_2]. }
  assert (Hid : "battery-low" ∈
    alertIds (newAlerts 1000 (settings_alerts (serverWith [liveClient]))
                lowBatteryReading None)).
  { vm_compute. apply list_elem_of_here. }
  specialize (H Hinv Hid). cbv zeta in H.
  destruct H as (_ & H1 & _ & H2 & _). cbv zeta. split; assumption.
Defined.

(** ** Analytics roll-up *)

Lemma foldl_Zmax_spec (l : list Z) (x : Z) :
  x <= foldl Z.max x l /\
  (forall y, y ∈ l -> y <= foldl Z.max x l) /\
  (foldl Z.max x l = x \/ foldl Z.max x l ∈ l).
Proof.
  revert x. induction l as [|z l IH]; intros x; cbn [foldl].
  - split; [lia|]. split; [|now left].
    intros y Hy. apply elem_of_nil in Hy. contradiction.
  - destruct (IH (Z.max x z)) as (H1 & H2 & H3). split; [lia|]. split.
    + intros y Hy. apply elem_of_cons in Hy. destruct Hy as [-> | Hy].
      * lia.
      * apply H2, Hy.
    + destruct H3 as [H3 | H3].
      * rewrite H3. destruct (Z.max_spec x z) as [[_ ->] | [_ ->]].
        -- right. apply list_elem_of_here.
        -- now left.
      * right. apply list_elem_of_further, H3.
Qed.

Lemma foldl_Zmin_spec (l : list Z) (x : Z) :
  foldl Z.min x l <= x /\
  (forall y, y ∈ l -> foldl Z.min x l <= y) /\
  (foldl Z.min x l = x \/ foldl Z.min x l ∈ l).
Proof.
  revert x. induction l as [|z l IH]; intros x; cbn [foldl].
  - split; [lia|]. split; [|now left].
    intros y Hy. apply elem_of_nil in Hy. contradiction.
  - destruct (IH (Z.min x z)) as (H1 & H2 & H3). split; [lia|]. split.
    + intros y Hy. apply elem_of_cons in Hy. destruct Hy as [-> | Hy].
      * lia.
      * apply H2, Hy.
    + destruct H3 as [H3 | H3].
      * rewrite H3. destruct (Z.min_spec x z) as [[_ ->] | [_ ->]].
        -- now left.
        -- right. apply list_elem_of_here.
      * right. apply list_elem_of_further, H3.
Qed.

Lemma Qmax_cases (x y : Q) : Qmax x y = x \/ Qmax x y = y.
Proof.
  unfold Qmax, GenericMinMax.gmax. destruct (x ?= y)%Q; auto.
Qed.

Lemma Qmin_cases (x y : Q) : Qmin x y = x \/ Qmin x y = y.
Proof.
  unfold Qmin, GenericMinMax.gmin. destruct (x ?= y)%Q; auto.
Qed.

Lemma foldl_Qmax_spec (l : list Q) (x : Q) :
  (x <= foldl Qmax x l)%Q /\
  (forall y, y ∈ l -> (y <= foldl Qmax x l)%Q) /\
  (foldl Qmax x l = x \/ foldl Qmax x l ∈ l).
Proof.
  revert x. induction l as [|z l IH]; intros x; cbn [foldl].
  - split; [apply Qle_refl|]. split; [|now left].
    intros y Hy. apply elem_of_nil in Hy. contradiction.
  - destruct (IH (Qmax x z)) as (H1 & H2 & H3). split; [|split].
    + eapply Qle_trans; [apply Q.le_max_l | exact H1].
    + intros y Hy. apply elem_of_cons in Hy. destruct Hy as [-> | Hy].
      * eapply Qle_trans; [apply Q.le_max_r | exact H1].
      * apply H2, Hy.
    + destruct H3 as [H3 | H3].
      * rewrite H3. destruct (Qmax_cases x z) as [-> | ->].
        -- now left.
        -- right. apply list_elem_of_here.
      * right. apply list_elem_of_further, H3.
Qed.

Lemma foldl_Qmin_spec (l : list Q) (x : Q) :
  (foldl Qmin x l <= x)%Q /\
  (forall y, y ∈ l -> (foldl Qmin x l <= y)%Q) /\
  (foldl Qmin x l = x \/ foldl Qmin x l ∈ l).
Proof.
  revert x. induction l as [|z l IH]; intros x; cbn [foldl].
  - split; [apply Qle_refl|]. split; [|now left].
    intros y Hy. apply elem_of_nil in Hy. contradiction.
  - destruct (IH (Qmin x z)) as (H1 & H2 & H3). split; [|split].
    + eapply Qle_trans; [exact H1 | apply Q.le_min_l].
    + intros y Hy. apply elem_of_cons in Hy. destruct Hy as [-> | Hy].
      * eapply Qle_trans; [exact H1 | apply Q.le_min_r].
      * apply H2, Hy.
    + destruct H3 as [H3 | H3].
      * rewrite H3. destruct (Qmin_cases x z) as [-> | ->].
        -- now left.
        -- right. apply list_elem_of_here.
      * right. apply list_elem_of_further, H3.
Qed.

(** A left fold that adds one term per element is the sum of the terms. *)
Lemma foldl_plus_sumQ {A : Type} (g : A -> Q) (l : list A) (acc : Q) :
  (foldl (fun sum h => sum + g h) acc l == acc + sumQ (g <$> l))%Q.
Proof.
  revert acc. induction l as [|h l IH]; intros acc; cbn [foldl].
  - change (acc == acc + 0)%Q. ring.
  - rewrite IH.
    change (sumQ (g <$> h :: l)) with (g h + sumQ (g <$> l))%Q. ring.
Qed.

Lemma sumQ_snoc (l : list Q) (x : Q) : (sumQ (l ++ [x]) == sumQ l + x)%Q.
Proof.
  induction l as [|y l IH]; cbn.
  - ring.
  - change (foldr Qplus 0%Q (l ++ [x])) with (sumQ (l ++ [x])).
    change (foldr Qplus 0%Q l) with (sumQ l). rewrite IH. ring.
Qed.

Lemma sumQ_magnitudes (l : list Q) :
  (0 <= sumQ (Qabs <$> l))%Q /\ (Qabs (sumQ l) <= sumQ (Qabs <$> l))%Q.
Proof.
  induction l as [|y l [IH0 IH]]; cbn.
  - split; [apply Qle_refl | discriminate].
  - change (foldr Qplus 0%Q (Qabs <$> l)) with (sumQ (Qabs <$> l)).
    change (foldr Qplus 0%Q l) with (sumQ l).
    pose proof (Qabs_nonneg y). split; [lra|].
    eapply Qle_trans; [apply Qabs_triangle|]. lra.
Qed.

(** [p / 3600 / 1000] in binary64 against the exact quotient. *)
Lemma energy_term_error (p : Q) :
  (Qabs (fdiv (fdiv p 3600) 1000 - p / 3600 / 1000)
   <= (3 # 9007199254740992) * Qabs (p / 3600 / 1000) + 2 * tiny)%Q.
Proof.
  unfold fdiv. set (y := (p / 3600)%Q).
  change (y / 1000)%Q with (y * (1 # 1000))%Q.
  change (double y / 1000)%Q with (double y * (1 # 1000))%Q.
  pose proof tiny_pos as Ht.
  pose proof (Qabs_nonneg y) as HA.
  assert (Ht1000 : (Qabs (y * (1 # 1000)) == Qabs y * (1 # 1000))%Q).
  { rewrite Qabs_Qmult. reflexivity. }
  rewrite Ht1000.
  destruct (double_error_bounds y (Qabs y) (Qle_refl _)) as [H1 H2].
  set (r1 := double y) in *.
  pose proof (Qle_Qabs y) as Hya.
  assert (Hyb : (- y <= Qabs y)%Q).
  { rewrite <- Qabs_opp. apply Qle_Qabs. }
  assert (Hr1 : (Qabs (r1 * (1 # 1000))
                 <= (Qabs y + (1 # 9007199254740992) * Qabs y + tiny)
                    * (1 # 1000))%Q).
  { apply Qabs_Qle_condition. split; lra. }
  destruct (double_error_bounds (r1 * (1 # 1000)) _ Hr1) as [H3 H4].
  set (r2 := double (r1 * (1 # 1000))) in *.
  apply Qabs_Qle_condition. split; lra.
Qed.

(** Adding terms one by one in binary64, each term within three rounding
    errors of its exact value: the distance of the result from the exact
    sum grows with the number of terms and the sum of their magnitudes. *)
Lemma accumulate_error {A : Type} (term exact : A -> Q) (l : list A) :
  (forall h, (Qabs (term h - exact h)
              <= (3 # 9007199254740992) * Qabs (exact h) + 2 * tiny)%Q) ->
  Z.of_nat (length l) <= 2 ^ 40 ->
  (Qabs (foldl (fun sum h => fadd sum (term h)) 0%Q l - sumQ (exact <$> l))
   <= 5 * inject_Z (Z.of_nat (length l))
      * ((1 # 9007199254740992) * sumQ (Qabs <$> (exact <$> l)) + tiny))%Q.
Proof.
  intros Hterm. induction l as [|h l IH] using rev_ind; intros Hlen.
  - cbn. discriminate.
  - rewrite length_app in Hlen. cbn [length] in Hlen.
    specialize (IH ltac:(lia)).
    rewrite foldl_app. cbn [foldl]. rewrite !fmap_app. cbn [fmap list_fmap].
    rewrite !sumQ_snoc. rewrite length_app. cbn [length].
    rewrite Nat2Z.inj_add, inject_Z_plus.
    change (inject_Z (Z.of_nat 1)) with 1%Q.
    set (S0 := foldl (fun sum h => fadd sum (term h)) 0%Q l) in *.
    set (E := sumQ (exact <$> l)) in *.
    set (a := sumQ (Qabs <$> (exact <$> l))) in *.
    set (K := inject_Z (Z.of_nat (length l))) in *.
    pose proof (Hterm h) as Hth.
    pose proof (Qabs_nonneg (exact h)) as HT0.
    pose proof (Qle_Qabs (exact h)) as Ht1.
    assert (Ht2 : (- exact h <= Qabs (exact h))%Q).
    { rewrite <- Qabs_opp. apply Qle_Qabs. }
    set (T := Qabs (exact h)) in *. set (t := exact h) in *.
    pose proof tiny_pos as Ht.
    destruct (sumQ_magnitudes (exact <$> l)) as [Ha0 HEa].
    fold E in HEa. fold a in Ha0, HEa.
    apply Qabs_Qle_condition in HEa. destruct HEa as [HE1 HE2].
    apply Qabs_Qle_condition in Hth. destruct Hth as [Hth1 Hth2].
    apply Qabs_Qle_condition in IH. destruct IH as [IH1 IH2].
    assert (HK0 : (0 <= K)%Q).
    { subst K. change 0%Q with (inject_Z 0). rewrite <- Zle_Qle. lia. }
    assert (HK1 : (K <= 1099511627776)%Q).
    { subst K. change 1099511627776%Q with (inject_Z (2 ^ 40)).
      rewrite <- Zle_Qle. lia. }
    assert (HKa0 : (0 <= K * a)%Q) by (apply Qmult_le_0_compat; assumption).
    assert (HKa1 : (K * a <= 1099511627776 * a)%Q)
      by (apply Qmult_le_compat_r; assumption).
    assert (HKt0 : (0 <= K * tiny)%Q)
      by (apply Qmult_le_0_compat; [assumption | lra]).
    assert (HKt1 : (K * tiny <= 1099511627776 * tiny)%Q)
      by (apply Qmult_le_compat_r; [assumption | lra]).
    assert (HKT0 : (0 <= K * T)%Q) by (apply Qmult_le_0_compat; assumption).
    unfold fadd at 1.
    set (m := (a + T + 5 * K * ((1 # 9007199254740992) * a + tiny)
               + ((3 # 9007199254740992) * T + 2 * tiny))%Q).
    assert (Hy : (Qabs (S0 + term h) <= m)%Q).
    { apply Qabs_Qle_condition. subst m. split; lra. }
    destruct (double_error_bounds (S0 + term h) m Hy) as [H1 H2].
    subst m. apply Qabs_Qle_condition. split; lra.
Qed.

Lemma energyTotal_integrates (power : HistoryPoint -> Z)
    (window : list HistoryPoint) :
  integrates power window (energyTotal power window).
Proof.
  split; [reflexivity|]. intros Hlen. unfold energyTotal.
  pose proof (accumulate_error
                (fun h => fdiv (fdiv (inject_Z (power h)) 3600) 1000)
                (fun h => inject_Z (power h) / 3600 / 1000)%Q window
                (fun h => energy_term_error (inject_Z (power h))) Hlen) as H.
  rewrite <- list_fmap_compose in H. exact H.
Qed.

Lemma sumQ_integers (zs : list Z) :
  (sumQ (inject_Z <$> zs) == inject_Z (foldr Z.add 0%Z zs))%Q.
Proof.
  induction zs as [|z zs IH]; [reflexivity|].
  rewrite fmap_cons. cbn [foldr].
  change (sumQ (inject_Z z :: (inject_Z <$> zs)))
    with (inject_Z z + sumQ (inject_Z <$> zs))%Q.
  rewrite IH, inject_Z_plus. reflexivity.
Qed.

Lemma sum_le_sumAbs (zs : list Z) :
  Z.abs (foldr Z.add 0 zs) <= foldr (fun z acc => Z.abs z + acc) 0 zs.
Proof. induction zs as [|z zs IH]; cbn; lia. Qed.

(** The rounded mean of integers whose magnitudes sum to less than 2^52
    is the rounded exact mean. *)
Lemma avg_integers (zs : list Z) :
  zs <> [] ->
  foldr (fun z acc => Z.abs z + acc) 0 zs < 2 ^ 52 ->
  Z.of_nat (length zs) <= 2 ^ 40 ->
  jsRound (avg (inject_Z <$> zs)) =
  jsRound (sumQ (inject_Z <$> zs) / inject_Z (Z.of_nat (length zs))).
Proof.
  intros Hne Hmag Hlen. unfold avg, fdiv. rewrite length_fmap.
  pose proof (foldl_fadd_integers zs 0) as Hsum.
  change (inject_Z 0) with 0%Q in Hsum.
  rewrite Hsum by (cbn; lia). rewrite Z.add_0_l.
  pose proof (sum_le_sumAbs zs) as Hs.
  assert (Hn : 1 <= Z.of_nat (length zs)).
  { destruct zs; [contradiction | cbn [length]; lia]. }
  rewrite jsRound_double_quotient by lia.
  unfold jsRound. apply Qfloor_comp. now rewrite sumQ_integers.
Qed.

Lemma Qmult_le_l_nonneg_aux (t a b : Q) :
  (0 <= t)%Q -> (a <= b)%Q -> (t * a <= t * b)%Q.
Proof.
  intros Ht Hab. rewrite (Qmult_comm t a), (Qmult_comm t b).
  now apply Qmult_le_compat_r.
Qed.

(** The mean of any numbers, computed in binary64, against the exact
    mean. *)
Lemma avg_error (arr : list Q) :
  arr <> [] -> Z.of_nat (length arr) <= 2 ^ 40 ->
  (Qabs (avg arr - sumQ arr / inject_Z (Z.of_nat (length arr)))
   <= 7 * ((1 # 9007199254740992) * sumQ (Qabs <$> arr) + tiny))%Q.
Proof.
  intros Hne Hlen. unfold avg, fdiv.
  set (n := inject_Z (Z.of_nat (length arr))).
  assert (Hn1 : (1 <= n)%Q).
  { subst n. change 1%Q with (inject_Z 1). rewrite <- Zle_Qle.
    destruct arr; [contradiction | cbn [length]; lia]. }
  pose proof (accumulate_error (fun x : Q => x) (fun x : Q => x) arr) as Hacc.
  rewrite !list_fmap_id in Hacc.
  assert (Hterm : forall h : Q,
            (Qabs (h - h) <= (3 # 9007199254740992) * Qabs h + 2 * tiny)%Q).
  { intros h. pose proof tiny_pos as Ht0. pose proof (Qabs_nonneg h) as Hh0.
    assert (Hzero : (Qabs (h - h) == 0)%Q).
    { assert (Hz : (h - h == 0)%Q) by ring. now rewrite Hz. }
    rewrite Hzero. lra. }
  specialize (Hacc Hterm Hlen). fold n in Hacc.
  change (foldl (fun sum h : Q => fadd sum h) 0%Q arr)
    with (foldl fadd 0%Q arr) in Hacc.
  set (S0 := foldl fadd 0%Q arr) in *.
  set (E := sumQ arr) in *. set (A := sumQ (Qabs <$> arr)) in *.
  destruct (sumQ_magnitudes arr) as [HA0 HEA]. fold E in HEA. fold A in HA0, HEA.
  pose proof tiny_pos as Ht.
  set (B := ((1 # 9007199254740992) * A + tiny)%Q) in *.
  assert (HB : (0 <= B)%Q) by (subst B; lra).
  set (x := (S0 / n)%Q). set (t := (E / n)%Q).
  assert (Hxn : (x * n == S0)%Q) by (subst x; field; lra).
  assert (Htn : (t * n == E)%Q) by (subst t; field; lra).
  apply Qabs_Qle_condition in Hacc. destruct Hacc as [Ha1 Ha2].
  apply Qabs_Qle_condition in HEA. destruct HEA as [HE1 HE2].
  assert (Hd1 : (x - t <= 5 * B)%Q).
  { apply (Qmult_le_r _ _ n); [lra|]. lra. }
  assert (Hd2 : (- (5 * B) <= x - t)%Q).
  { apply (Qmult_le_r _ _ n); [lra|]. lra. }
  assert (Ht1 : (t <= A)%Q).
  { destruct (Qlt_le_dec t 0) as [Hneg | Hpos]; [lra|].
    assert (H : (t * 1 <= t * n)%Q) by (apply Qmult_le_l_nonneg_aux; assumption).
    lra. }
  assert (Ht2 : (- A <= t)%Q).
  { destruct (Qlt_le_dec 0 t) as [Hpos | Hneg]; [lra|].
    assert (H : ((- t) * 1 <= (- t) * n)%Q)
      by (apply Qmult_le_l_nonneg_aux; [lra | assumption]).
    lra. }
  assert (Hx : (Qabs x <= A + 5 * B)%Q).
  { apply Qabs_Qle_condition. split; lra. }
  destruct (double_error_bounds x _ Hx) as [H1 H2].
  apply Qabs_Qle_condition. subst B. split; lra.
Qed.

Lemma summarises_window (f : HistoryPoint -> Z) (h0 : HistoryPoint)
    (hs : list HistoryPoint) :
  summarises f (h0 :: hs)
    (jsRound (avg ((fun h => inject_Z (f h)) <$> h0 :: hs)))
    (maxOf (f h0) (f <$> hs)) (minOf (f h0) (f <$> hs)).
Proof.
  unfold summarises, maxOf, minOf.
  destruct (foldl_Zmax_spec (f <$> hs) (f h0)) as (Hx1 & Hx2 & Hx3).
  destruct (foldl_Zmin_spec (f <$> hs) (f h0)) as (Hn1 & Hn2 & Hn3).
  split; [|split; [|split]].
  - intros Hmag Hlen. unfold magnitude in Hmag.
    rewrite (list_fmap_compose f inject_Z).
    rewrite <- (length_fmap f (h0 :: hs)).
    apply avg_integers; [discriminate | exact Hmag |].
    now rewrite length_fmap.
  - intros h Hh. apply elem_of_cons in Hh. destruct Hh as [-> | Hh].
    + lia.
    + assert (Hf : f h ∈ f <$> hs) by (apply list_elem_of_fmap; eauto).
      specialize (Hx2 _ Hf). specialize (Hn2 _ Hf). lia.
  - destruct Hx3 as [-> | Hx3].
    + exists h0. split; [apply list_elem_of_here | reflexivity].
    + apply list_elem_of_fmap in Hx3. destruct Hx3 as (h & Heq & Hh).
      exists h. split; [apply list_elem_of_further, Hh | now symmetry].
  - destruct Hn3 as [-> | Hn3].
    + exists h0. split; [apply list_elem_of_here | reflexivity].
    + apply list_elem_of_fmap in Hn3. destruct Hn3 as (h & Heq & Hh).
      exists h. split; [apply list_elem_of_further, Hh | now symmetry].
Qed.

Lemma summarisesSoe_window (h0 : HistoryPoint) (hs : list HistoryPoint) :
  summarisesSoe (h0 :: hs) (jsRound (avg (h_soe <$> h0 :: hs)))
    (maxOfQ (h_soe h0) (h_soe <$> hs)) (minOfQ (h_soe h0) (h_soe <$> hs)).
Proof.
  unfold summarisesSoe, maxOfQ, minOfQ.
  destruct (foldl_Qmax_spec (h_soe <$> hs) (h_soe h0)) as (Hx1 & Hx2 & Hx3).
  destruct (foldl_Qmin_spec (h_soe <$> hs) (h_soe h0)) as (Hn1 & Hn2 & Hn3).
  split; [|split; [|split]].
  - intros Hlen.
    rewrite <- (length_fmap h_soe (h0 :: hs)).
    apply jsRound_error. apply avg_error; [discriminate|].
    now rewrite length_fmap.
  - intros h Hh. apply elem_of_cons in Hh. destruct Hh as [-> | Hh].
    + split; assumption.
    + assert (Hf : h_soe h ∈ h_soe <$> hs) by (apply list_elem_of_fmap; eauto).
      split; [apply Hn2, Hf | apply Hx2, Hf].
  - destruct Hx3 as [-> | Hx3].
    + exists h0. split; [apply list_elem_of_here | reflexivity].
    + apply list_elem_of_fmap in Hx3. destruct Hx3 as (h & Heq & Hh).
      exists h. split; [apply list_elem_of_further, Hh | now symmetry].
  - destruct Hn3 as [-> | Hn3].
    + exists h0. split; [apply list_elem_of_here | reflexivity].
    + apply list_elem_of_fmap in Hn3. destruct Hn3 as (h & Heq & Hh).
      exists h. split; [apply list_elem_of_further, Hh | now symmetry].
Qed.

(** C6. The window of the roll-up is the samples of [history] stamped in
    (now - 1h, now]. When it is empty there is no entry and the hourly
    timer changes nothing (no entry stored, nothing sent). Otherwise there
    is one entry: for grid, solar and load its maximum and minimum are the
    largest and smallest figure over exactly the window's samples and its
    average is their rounded mean (the sum and the quotient are binary64
    operations, exact on integers whose magnitudes sum to less than 2^52);
    likewise for the state of energy, whose average is within a half and
    the rounding of its sum and quotient of the exact mean; its
    solar and load totals are the sum over those samples, in their order,
    of power / 3600 / 1000, quotients and additions being those of
    binary64 arithmetic; for a window of n samples (n up to 2^40) a total
    is within 5 n (2^-53 A + 2^-1075) of the exact sum, A being the sum of
    the magnitudes of the exact terms. The timer appends the entry, keeps
    the last 720, saves them and broadcasts the entry. *)
Theorem hourly_rollup_spec (now : Z) (s : Server) :
  let window := hourWindow now (history s) in
  (forall h, h ∈ window <->
     h ∈ history s /\ now - 3600000 < h_timestamp h <= now) /\
  (window = [] ->
   calculateHourlyAnalytics now (history s) = None /\ hourlyTick now s = s) /\
  (window <> [] ->
   exists e : AnalyticsEntry,
     calculateHourlyAnalytics now (history s) = Some e /\
     hour e = now /\ grid_samples e = length window /\
     summarises h_grid window (grid_avg e) (grid_max e) (grid_min e) /\
     summarises h_solar window (solar_avg e) (solar_max e) (solar_min e) /\
     summarises h_load window (load_avg e) (load_max e) (load_min e) /\
     summarisesSoe window (avgSoe e) (maxSoe e) (minSoe e) /\
     integrates h_solar window (solar_total e) /\
     integrates h_load window (load_total e) /\
     analytics (hourlyTick now s) = sliceLast 720 (analytics s ++ [e]) /\
     files (hourlyTick now s) !! ANALYTICS_FILE =
       Some (JsonAnalytics (analytics (hourlyTick now s))) /\
     (Forall (fun c => broken c = false) (sseClients s) ->
      wire (hourlyTick now s) =
        wire s ++ framesFor (EvAnalytics e) (sseClients s))).
Proof.
  intros window. split; [|split].
  - intros h. subst window. unfold hourWindow.
    rewrite list_elem_of_filter.
    replace (60 * 60 * 1000) with 3600000 by reflexivity. tauto.
  - intros Hempty. unfold hourlyTick, calculateHourlyAnalytics.
    fold window. rewrite Hempty. split; reflexivity.
  - intros Hne. unfold hourlyTick, calculateHourlyAnalytics. fold window.
    destruct window as [|h0 hs] eqn:Hw; [contradiction|].
    eexists. split; [reflexivity|]. cbn [hour grid_samples grid_avg grid_max
      grid_min solar_avg solar_max solar_min solar_total load_avg load_max
      load_min load_total avgSoe maxSoe minSoe].
    split; [reflexivity|]. split; [reflexivity|].
    split; [apply summarises_window|]. split; [apply summarises_window|].
    split; [apply summarises_window|]. split; [apply summarisesSoe_window|].
    split; [apply energyTotal_integrates|].
    split; [apply energyTotal_integrates|].
    match goal with
    | |- context [broadcastUpdate ?ev ?st] =>
        pose proof (broadcastUpdate_frame ev st) as Hframe;
        pose proof (broadcastUpdate_all_alive ev st) as Halive
    end.
    cbv zeta in Hframe.
    destruct Hframe as (_ & _ & Han & _ & _ & _ & _ & _ & _ & Hfiles).
    split; [rewrite Han; reflexivity|].
    split; [rewrite Hfiles, Han; cbn; apply lookup_insert_eq|].
    intros Hall. rewrite (Halive Hall). reflexivity.
Qed.

Lemma hourly_rollup_spec_witness :
  hourlyTick 5000 (serverWith [liveClient]) = serverWith [liveClient] /\
  exists e : AnalyticsEntry,
    calculateHourlyAnalytics 4000000 threeSamples = Some e /\
    grid_samples e = 2%nat /\
    summarises h_load (hourWindow 4000000 threeSamples)
      (load_avg e) (load_max e) (load_min e) /\
    integrates h_solar (hourWindow 4000000 threeSamples) (solar_total e) /\
    wire (hourlyTick 4000000 (with_history threeSamples (serverWith [liveClient])))
      = [(7%nat, EvAnalytics e)].
Proof.
  split.
  - exact (proj2 (proj1 (proj2 (hourly_rollup_spec 5000 (serverWith [liveClient])))
                    eq_refl)).
  - destruct (proj2 (proj2 (hourly_rollup_spec 4000000
                 (with_history threeSamples (serverWith [liveClient]))))
                ltac:(discriminate))
      as (e & He & _ & Hn & _ & _ & Hload & _ & Hsolar & _ & _ & _ & Hwire).
    exists e. split; [exact He|]. split; [exact Hn|].
    split; [exact Hload|]. split; [exact Hsolar|].
    apply Hwire. repeat constructor.
Defined.

(** The scenario's roll-up, and two totals whose exact value is no
    binary64 number: one sample of 1 W totals 2.7777777777777776e-7, not
    1/3600000, and 3600 W then 7200 W total the double nearest 0.003. *)
Example rollup_threeSamples :
  let e := calculateHourlyAnalytics 4000000 threeSamples in
  (grid_samples <$> e) = Some 2%nat /\
  (grid_avg <$> e) = Some 50 /\ (grid_max <$> e) = Some 200 /\
  (grid_min <$> e) = Some (-101) /\
  (solar_avg <$> e) = Some 5400 /\ (load_avg <$> e) = Some 1800 /\
  (avgSoe <$> e) = Some 56 /\ (maxSoe <$> e) = Some 61%Q /\
  (minSoe <$> e) = Some 50%Q.
Proof. vm_compute. repeat split. Qed.

Example rollup_threeSamples_total :
  energyTotal h_solar (hourWindow 4000000 threeSamples)
    = (3458764513820541 # 1152921504606846976)%Q /\
  energyTotal h_solar
    [ {| h_timestamp := 0; h_grid := 0; h_battery := 0; h_solar := 1;
         h_load := 0; h_soe := 0 |} ]
    = (5247073869855161 # 18889465931478580854784)%Q /\
  ~ (5247073869855161 # 18889465931478580854784 == 1 # 3600000)%Q.
Proof. split; [|split]; [vm_compute; reflexivity ..| discriminate]. Qed.

(** ** Poll cycles *)

Lemma with_baselines_same (s : Server) : with_baselines (daily_baselines s) s = s.
Proof. destruct s; reflexivity. Qed.

Lemma with_samples_same (s : Server) : with_samples (power_samples s) s = s.
Proof. destruct s; reflexivity. Qed.

(** A fetch that yields no reading leaves the baseline table as it was. *)
Lemma fetchPowerwallData_failure (e : Env) (tbl tbl' : Baselines) :
  fetchPowerwallData e tbl = (tbl', None) -> tbl' = tbl.
Proof.
  unfold fetchPowerwallData. destruct (gateway e) as [g|]; [|congruence].
  unfold trackBaseline, getBaseline, insertBaseline.
  destruct (tbl !! todayKey e) as [b|]; [discriminate|].
  destruct (baselineWrite e); [|congruence].
  rewrite lookup_insert_eq. discriminate.
Qed.

Lemma fetchPowerwallData_unreachable (e : Env) (tbl : Baselines) :
  gateway e = None -> fetchPowerwallData e tbl = (tbl, None).
Proof. intros H. unfold fetchPowerwallData. now rewrite H. Qed.

Lemma ssePoll_failure (e : Env) (s : Server) :
  (fetchPowerwallData e (daily_baselines s)).2 = None -> ssePoll e s = s.
Proof.
  intros H. unfold ssePoll. destruct (sseClients s); [reflexivity|].
  destruct (fetchPowerwallData e (daily_baselines s)) as [tbl fetched] eqn:Hf.
  cbn in H. subst fetched.
  rewrite (fetchPowerwallData_failure e _ _ Hf). apply with_baselines_same.
Qed.

Lemma getPowerwall_failure (e : Env) (s : Server) :
  (fetchPowerwallData e (daily_baselines s)).2 = None ->
  getPowerwall e s =
    (s, match freshCache (clockRequest e) s with
        | Some r => Ok r
        | None => Unavailable
        end).
Proof.
  intros H. unfold getPowerwall.
  destruct (freshCache (clockRequest e) s); [reflexivity|].
  destruct (fetchPowerwallData e (daily_baselines s)) as [tbl fetched] eqn:Hf.
  cbn in H. subst fetched.
  rewrite (fetchPowerwallData_failure e _ _ Hf). now rewrite with_baselines_same.
Qed.

(** C9. When the gateway cannot be read (login failure, primary read
    failure, timeout) the fetch yields nothing and the cycle is no update:
    the timer leaves the whole server state as it was (the cached reading,
    the history, the sample table, the alerts, the wire), the on-demand
    route leaves it as it was too and answers with the cached reading
    while it is fresh and with the unavailable-data error otherwise; the
    next cycle runs from that same state. *)
Theorem fetch_failure_no_update (e : Env) (s : Server) :
  gateway e = None ->
  (fetchPowerwallData e (daily_baselines s)).2 = None /\
  ssePoll e s = s /\
  (getPowerwall e s).1 = s /\
  (getPowerwall e s).2 =
    match freshCache (clockRequest e) s with
    | Some r => Ok r
    | None => Unavailable
    end /\
  forall e', ssePoll e' (ssePoll e s) = ssePoll e' s.
Proof.
  intros Hdown.
  assert (Hnone : (fetchPowerwallData e (daily_baselines s)).2 = None).
  { now rewrite (fetchPowerwallData_unreachable e _ Hdown). }
  split; [exact Hnone|]. split; [exact (ssePoll_failure e s Hnone)|].
  rewrite (getPowerwall_failure e s Hnone). cbn [fst snd].
  split; [reflexivity|]. split; [reflexivity|].
  intros e'. now rewrite (ssePoll_failure e s Hnone).
Qed.

Lemma fetch_failure_no_update_witness :
  ssePoll (pollAt 9000 None) (serverWith [liveClient]) = serverWith [liveClient].
Proof.
  exact (proj1 (proj2 (fetch_failure_no_update (pollAt 9000 None)
                         (serverWith [liveClient]) eq_refl))).
Defined.

(** *** The sample table is written and never read by the pipeline *)

Lemma broadcastUpdate_with_samples (data : Event) (rows : list Sample)
    (s : Server) :
  broadcastUpdate data (with_samples rows s) =
    with_samples rows (broadcastUpdate data s).
Proof.
  unfold broadcastUpdate. cbn [sseClients wire with_samples].
  destruct (forEach _ _ _) as [cl w]. reflexivity.
Qed.

Lemma raiseAlert_with_samples (rows : list Sample) (s : Server) (alert : Alert) :
  raiseAlert (with_samples rows s) alert = with_samples rows (raiseAlert s alert).
Proof.
  unfold raiseAlert. cbn [alerts with_samples].
  destruct (List.find _ (alerts s)); [reflexivity|].
  now rewrite <- broadcastUpdate_with_samples.
Qed.

Lemma foldl_raiseAlert_with_samples (rows : list Sample) (cs : list Alert)
    (s : Server) :
  foldl raiseAlert (with_samples rows s) cs =
    with_samples rows (foldl raiseAlert s cs).
Proof.
  revert s. induction cs as [|a cs IH]; intros s; [reflexivity|].
  cbn [foldl]. now rewrite raiseAlert_with_samples, IH.
Qed.

Lemma checkAlerts_with_samples (now : Z) (p : Reading) (t : option Z)
    (rows : list Sample) (s : Server) :
  checkAlerts now p t (with_samples rows s) =
    with_samples rows (checkAlerts now p t s).
Proof.
  unfold checkAlerts. cbn [settings_alerts with_samples].
  now rewrite foldl_raiseAlert_with_samples.
Qed.

Lemma sseClients_checkAlerts_alive (now : Z) (p : Reading) (t : option Z)
    (s : Server) :
  Forall (fun c => broken c = false) (sseClients s) ->
  sseClients (checkAlerts now p t s) = sseClients s.
Proof.
  intros Halive. unfold checkAlerts. cbn.
  exact (proj1 (foldl_raiseAlert_delivers _ s Halive (newAlerts_NoDup now _ p t))).
Qed.

Lemma power_samples_checkAlerts (now : Z) (p : Reading) (t : option Z)
    (s : Server) :
  power_samples (checkAlerts now p t s) = power_samples s.
Proof.
  unfold checkAlerts. cbn.
  exact (proj2 (proj2 (proj2 (proj2 (proj2 (proj2 (proj2 (proj2
           (foldl_raiseAlert_frame _ s))))))))).
Qed.

(** The tail of a poll cycle (alerts, then the broadcast) run with and
    without the new sample row. *)
Lemma publish_without_sample (now : Z) (data : Reading) (rows : list Sample)
    (s : Server) :
  broadcastUpdate (EvPowerwall data)
    (checkAlerts now data (cached_temps s) s) =
  with_samples (power_samples s)
    (broadcastUpdate (EvPowerwall data)
       (checkAlerts now data (cached_temps (with_samples rows s))
          (with_samples rows s))).
Proof.
  change (cached_temps (with_samples rows s)) with (cached_temps s).
  rewrite checkAlerts_with_samples, broadcastUpdate_with_samples.
  set (x := broadcastUpdate _ _).
  change (with_samples (power_samples s) (with_samples rows x))
    with (with_samples (power_samples s) x).
  assert (Hps : power_samples x = power_samples s).
  { subst x.
    rewrite (proj1 (proj2 (proj2 (proj2 (proj2 (proj2 (proj2 (proj2 (proj2
               (broadcastUpdate_frame _ _)))))))))).
    apply power_samples_checkAlerts. }
  rewrite <- Hps. symmetry. apply with_samples_same.
Qed.

(** What both handlers do once the gateway has answered [data]. *)
Lemma ssePoll_success (e : Env) (s : Server) (tbl : Baselines) (data : Reading) :
  sseClients s <> [] ->
  fetchPowerwallData e (daily_baselines s) = (tbl, Some data) ->
  ssePoll e s =
    broadcastUpdate (EvPowerwall data)
      (checkAlerts (clockStored e) data (cached_temps s)
         (insertSample e data
            (appendHistory e data
               (with_cache (Some data) (lastUpdate_powerwall s)
                  (with_baselines tbl s))))).
Proof.
  intros Hne Hf. unfold ssePoll. destruct (sseClients s); [contradiction|].
  rewrite Hf. unfold insertSample. destruct (sampleWrite e); reflexivity.
Qed.

(** A failed write of the poll's sample changes nothing but the sample
    table: both handlers end in the state they reach when the write
    succeeds, with the sample table left as it was, and the route gives
    the same answer. After a successful fetch the reading is cached, the
    alerts are those checkAlerts leaves, and, when every subscriber is
    alive, the reading is written to each. *)
Lemma insertSample_outcome_confined (e : Env) (s : Server) :
  let failing := withSampleWrite false e in
  let working := withSampleWrite true e in
  ssePoll failing s = with_samples (power_samples s) (ssePoll working s) /\
  (getPowerwall failing s).1 =
    with_samples (power_samples s) (getPowerwall working s).1 /\
  (getPowerwall failing s).2 = (getPowerwall working s).2 /\
  (forall (tbl : Baselines) (data : Reading),
     sseClients s <> [] ->
     fetchPowerwallData e (daily_baselines s) = (tbl, Some data) ->
     let s' := ssePoll failing s in
     power_samples s' = power_samples s /\
     cached_powerwall s' = Some data /\
     alerts s' =
       alerts (checkAlerts (clockStored e) data (cached_temps s)
                 (appendHistory e data
                    (with_cache (Some data) (lastUpdate_powerwall s)
                       (with_baselines tbl s)))) /\
     (Forall (fun c => broken c = false) (sseClients s) ->
      exists sent,
        wire s' = wire s ++ sent ++ framesFor (EvPowerwall data) (sseClients s))).
Proof.
  cbv zeta. split; [|split; [|split]].
  - unfold ssePoll. destruct (sseClients s); [now rewrite with_samples_same|].
    change (fetchPowerwallData (withSampleWrite false e) (daily_baselines s))
      with (fetchPowerwallData e (daily_baselines s)).
    change (fetchPowerwallData (withSampleWrite true e) (daily_baselines s))
      with (fetchPowerwallData e (daily_baselines s)).
    destruct (fetchPowerwallData e (daily_baselines s)) as [tbl [data|]].
    + unfold insertSample. cbn [sampleWrite withSampleWrite].
      exact (publish_without_sample (clockStored e) data
               (power_samples s ++ [sampleOf data])
               (appendHistory e data
                  (with_cache (Some data) (lastUpdate_powerwall s)
                     (with_baselines tbl s)))).
    + destruct s; reflexivity.
  - unfold getPowerwall.
    change (clockRequest (withSampleWrite false e)) with (clockRequest e).
    change (clockRequest (withSampleWrite true e)) with (clockRequest e).
    destruct (freshCache (clockRequest e) s);
      [cbn [fst]; now rewrite with_samples_same|].
    change (fetchPowerwallData (withSampleWrite false e) (daily_baselines s))
      with (fetchPowerwallData e (daily_baselines s)).
    change (fetchPowerwallData (withSampleWrite true e) (daily_baselines s))
      with (fetchPowerwallData e (daily_baselines s)).
    destruct (fetchPowerwallData e (daily_baselines s)) as [tbl [data|]].
    + unfold insertSample. cbn [sampleWrite withSampleWrite fst].
      exact (publish_without_sample (clockStored e) data
               (power_samples s ++ [sampleOf data])
               (appendHistory e data
                  (with_cache (Some data) (Some (clockRequest e))
                     (with_baselines tbl s)))).
    + cbn [fst]. destruct s; reflexivity.
  - unfold getPowerwall.
    change (clockRequest (withSampleWrite false e)) with (clockRequest e).
    change (clockRequest (withSampleWrite true e)) with (clockRequest e).
    destruct (freshCache (clockRequest e) s); [reflexivity|].
    change (fetchPowerwallData (withSampleWrite false e) (daily_baselines s))
      with (fetchPowerwallData e (daily_baselines s)).
    change (fetchPowerwallData (withSampleWrite true e) (daily_baselines s))
      with (fetchPowerwallData e (daily_baselines s)).
    destruct (fetchPowerwallData e (daily_baselines s)) as [tbl [data|]];
      reflexivity.
  - intros tbl data Hne Hf.
    set (s2 := appendHistory e data
                 (with_cache (Some data) (lastUpdate_powerwall s)
                    (with_baselines tbl s))).
    set (s4 := checkAlerts (clockStored e) data (cached_temps s) s2).
    assert (Hrun : ssePoll (withSampleWrite false e) s =
                   broadcastUpdate (EvPowerwall data) s4).
    { rewrite (ssePoll_success (withSampleWrite false e) s tbl data Hne Hf).
      reflexivity. }
    rewrite Hrun.
    pose proof (broadcastUpdate_frame (EvPowerwall data) s4) as Hframe.
    cbv zeta in Hframe.
    destruct Hframe as (Hal & _ & _ & _ & Hcache & _ & _ & _ & Hsamples & _).
    split; [|split; [|split]].
    + rewrite Hsamples. subst s4. unfold checkAlerts. cbn.
      exact (proj2 (proj2 (proj2 (proj2 (proj2 (proj2 (proj2 (proj2
               (foldl_raiseAlert_frame _ s2))))))))).
    + rewrite Hcache. subst s4. unfold checkAlerts. cbn.
      exact (proj1 (proj2 (proj2 (proj2 (proj2 (foldl_raiseAlert_frame _ s2)))))).
    + exact Hal.
    + intros Halive.
      assert (Halive2 : Forall (fun c => broken c = false) (sseClients s2))
        by exact Halive.
      pose proof (sseClients_checkAlerts_alive (clockStored e) data
                    (cached_temps s) s2 Halive2) as Hcl.
      fold s4 in Hcl.
      assert (Halive4 : Forall (fun c => broken c = false) (sseClients s4)).
      { rewrite Hcl. exact Halive2. }
      rewrite (broadcastUpdate_all_alive (EvPowerwall data) s4 Halive4).
      cbn [wire with_connections]. rewrite Hcl.
      destruct (foldl_raiseAlert_delivers
                  (newAlerts (clockStored e) (settings_alerts s2) data
                     (cached_temps s)) s2 Halive2
                  (newAlerts_NoDup _ _ _ _)) as (_ & sent & Hw & _).
      exists sent. rewrite app_assoc. f_equal.
      subst s4. unfold checkAlerts. cbn [wire saveJSON with_alerts].
      exact Hw.
Qed.


(** ** The reading a successful fetch builds *)

Lemma fetchPowerwallData_reading (e : Env) (tbl tbl' : Baselines)
    (g : Gateway) (r : Reading) :
  gateway e = Some g ->
  fetchPowerwallData e tbl = (tbl', Some r) ->
  exists baseline : BaselineRow,
    trackBaseline (baselineWrite e) (todayKey e) (countersOf g) tbl =
      (tbl', Some baseline) /\
    battery_power r = jsRound (instant_power (agg_battery g)) /\
    battery_status r = batteryStatus (battery_power r) /\
    reading_dailyBreakdown r =
      dailyBreakdown (dayDeltas (countersOf g) baseline) /\
    reading_selfPoweredPercent r =
      dailySelfPowered (selfPoweredPercent (load_power r) (grid_power r))
        (dayDeltas (countersOf g) baseline) /\
    0 <= reading_selfPoweredPercent r <= 100.
Proof.
  intros Hg Hf. unfold fetchPowerwallData in Hf. rewrite Hg in Hf.
  destruct (trackBaseline _ _ _ _) as [tbl1 [baseline|]]; [|discriminate].
  injection Hf as <- <-. exists baseline. cbn.
  repeat split; try reflexivity;
    apply dailySelfPowered_range, selfPoweredPercent_range.
Qed.

(** * Further properties *)

(** ** Which alerts an evaluation proposes (lines 218-292) *)

Lemma alertIds_newAlerts (now : Z) (st : AlertSettings) (p : Reading)
    (t : option Z) :
  alertIds (newAlerts now st p t) =
    (if Qle_bool (battery_soe p) (batteryLow st) then ["battery-low"] else [])
    ++ (if Qle_bool (batteryHigh st) (battery_soe p) then ["battery-high"] else [])
    ++ (if gridDown st && (grid_power p <=? 0) then ["grid-down"] else [])
    ++ (if Qle_bool (highLoad st) (inject_Z (load_power p)) then ["high-load"] else [])
    ++ match t with
       | None => []
       | Some inside =>
           (if Qle_bool (highTemp st) (inject_Z inside) then ["high-temp"] else [])
           ++ (if Qle_bool (inject_Z inside) (lowTemp st) then ["low-temp"] else [])
       end.
Proof. unfold newAlerts, alertIds. split_conditions; reflexivity. Qed.

Lemma elem_of_if_single (b : bool) (x y : string) :
  x ∈ (if b then [y] else []) <-> b = true /\ x = y.
Proof.
  destruct b.
  - rewrite list_elem_of_singleton. tauto.
  - rewrite elem_of_nil. split; [tauto | intros [H _]; discriminate].
Qed.

Ltac alert_membership :=
  rewrite alertIds_newAlerts;
  repeat rewrite elem_of_app;
  repeat rewrite elem_of_if_single;
  repeat rewrite elem_of_nil;
  repeat rewrite <- Qle_bool_iff;
  repeat rewrite andb_true_iff;
  repeat rewrite Z.leb_le;
  intuition (try discriminate; try congruence; eauto).

(** X1. An evaluation proposes "battery-low" exactly when the state of
    energy is at or below its threshold, "battery-high" exactly when it is
    at or above its own, "grid-down" exactly when that check is enabled and
    the grid power is zero or negative, "high-load" exactly when the load is
    at or above its threshold, and the two temperature alerts exactly when
    an inside temperature is known and is at or beyond the threshold;
    without a temperature reading neither is proposed. There are at most
    six candidates and each carries the severity of its kind. *)
Theorem newAlerts_thresholds (now : Z) (st : AlertSettings) (p : Reading)
    (t : option Z) :
  let ids := alertIds (newAlerts now st p t) in
  ("battery-low" ∈ ids <-> (battery_soe p <= batteryLow st)%Q) /\
  ("battery-high" ∈ ids <-> (batteryHigh st <= battery_soe p)%Q) /\
  ("grid-down" ∈ ids <-> gridDown st = true /\ grid_power p <= 0) /\
  ("high-load" ∈ ids <-> (highLoad st <= inject_Z (load_power p))%Q) /\
  ("high-temp" ∈ ids <->
     exists inside, t = Some inside /\ (highTemp st <= inject_Z inside)%Q) /\
  ("low-temp" ∈ ids <->
     exists inside, t = Some inside /\ (inject_Z inside <= lowTemp st)%Q) /\
  (length (newAlerts now st p t) <= 6)%nat /\
  Forall (fun a => (alert_id a, severity a) ∈
            [("battery-low", "high"); ("battery-high", "low");
             ("grid-down", "critical"); ("high-load", "medium");
             ("high-temp", "high"); ("low-temp", "medium")])
    (newAlerts now st p t).
Proof.
  cbv zeta. split; [|split; [|split; [|split; [|split; [|split; [|split]]]]]].
  - destruct t; alert_membership.
  - destruct t; alert_membership.
  - destruct t; alert_membership.
  - destruct t; alert_membership.
  - destruct t as [inside|].
    + split.
      * intros H. exists inside. split; [reflexivity|]. revert H.
        alert_membership.
      * intros (i & Hi & Hle). injection Hi as <-. revert Hle.
        alert_membership.
    + split; [alert_membership | intros (i & Hi & _); discriminate].
  - destruct t as [inside|].
    + split.
      * intros H. exists inside. split; [reflexivity|]. revert H.
        alert_membership.
      * intros (i & Hi & Hle). injection Hi as <-. revert Hle.
        alert_membership.
    + split; [alert_membership | intros (i & Hi & _); discriminate].
  - unfold newAlerts. split_conditions; cbn; lia.
  - unfold newAlerts. split_conditions; cbn;
      repeat (apply Forall_cons_2; [compute_done|]); apply Forall_nil_2.
Qed.

(** ** Alerts are never cleared by an evaluation (lines 294-304) *)

Lemma foldl_addIfNew_prefix (cs l : list Alert) :
  l `prefix_of` foldl addIfNew l cs.
Proof.
  revert l. induction cs as [|c cs IH]; intros l; [reflexivity|].
  cbn [foldl]. etrans; [|apply IH].
  unfold addIfNew. destruct (List.find _ l); [reflexivity|].
  apply prefix_app_r. reflexivity.
Qed.

Lemma length_sliceLast {A : Type} (n : nat) (l : list A) :
  (length (sliceLast n l) <= n)%nat.
Proof. unfold sliceLast. rewrite length_drop. lia. Qed.

(** X2. An evaluation never holds more than 100 alerts afterwards. On the
    alert list of a running server it removes and rewrites nothing: the
    old list is a prefix of the new one, whatever the reading says now
    (an alert whose condition has recovered stays), and afterwards a kind
    is on the list exactly when it was there before or is proposed now. *)
Theorem checkAlerts_never_clears (now : Z) (p : Reading) (t : option Z)
    (s : Server) :
  (length (alerts (checkAlerts now p t s)) <= 100)%nat /\
  (alertsInv (alerts s) ->
   alerts s `prefix_of` alerts (checkAlerts now p t s) /\
   forall id : string,
     id ∈ alertIds (alerts (checkAlerts now p t s)) <->
     id ∈ alertIds (alerts s) \/
     id ∈ alertIds (newAlerts now (settings_alerts s) p t)).
Proof.
  split.
  - rewrite alerts_checkAlerts. apply length_sliceLast.
  - intros Hinv. rewrite (alerts_checkAlerts_inv now p t s Hinv). split.
    + apply foldl_addIfNew_prefix.
    + intros id. apply alertIds_foldl_elem.
Qed.

Lemma checkAlerts_never_clears_witness :
  alerts (checkAlerts 1000 lowBatteryReading None (serverWith [liveClient]))
    `prefix_of`
  alerts (checkAlerts 2000 firstReading None
            (checkAlerts 1000 lowBatteryReading None (serverWith [liveClient]))).
Proof.
  apply (proj2 (checkAlerts_never_clears 2000 firstReading None
           (checkAlerts 1000 lowBatteryReading None (serverWith [liveClient])))).
  apply alertsInv_checkAlerts. cbn. apply alertsInv_nil.
Defined.

(** ** The first poll of a day (lines 1108-1134) *)

Lemma dayLoad_own_baseline (c : Counters) :
  (dayLoad (dayDeltas c (baselineRowOf c)) == 0)%Q.
Proof.
  unfold dayDeltas, baselineRowOf. cbn [dayLoad load_imported_wh orZero].
  apply Q.max_l. lra.
Qed.

Lemma dailyBreakdown_no_load (d : DayDeltas) :
  (dayLoad d == 0)%Q ->
  dailyBreakdown d =
    {| solarPct := 0; batteryPct := 0; gridPct := 0;
       solarKwh := KwhNumber 0; batteryKwh := KwhNumber 0;
       gridKwh := KwhNumber 0; loadKwh := KwhNumber 0 |} /\
  forall inst, dailySelfPowered inst d = inst.
Proof.
  intros Hz. unfold dailyBreakdown, dailySelfPowered.
  destruct (Qlt_le_dec 0 (dayLoad d)) as [Hlt | _].
  - exfalso. rewrite Hz in Hlt. discriminate Hlt.
  - split; reflexivity.
Qed.

(** X3. The first poll of a date (no baseline row yet, the insert
    succeeding) stores its own counters as that date's row, leaves the rows
    of other dates alone, and reports a day that has not started: the
    daily breakdown is all zeros and the self-powered percentage is the
    instantaneous one. *)
Theorem first_poll_of_day (e : Env) (tbl : Baselines) (g : Gateway) :
  gateway e = Some g ->
  tbl !! todayKey e = None ->
  baselineWrite e = true ->
  exists r : Reading,
    fetchPowerwallData e tbl =
      (<[todayKey e := baselineRowOf (countersOf g)]> tbl, Some r) /\
    reading_dailyBreakdown r =
      {| solarPct := 0; batteryPct := 0; gridPct := 0;
         solarKwh := KwhNumber 0; batteryKwh := KwhNumber 0;
         gridKwh := KwhNumber 0; loadKwh := KwhNumber 0 |} /\
    reading_selfPoweredPercent r =
      selfPoweredPercent (load_power r) (grid_power r) /\
    forall date, date <> todayKey e ->
      (fetchPowerwallData e tbl).1 !! date = tbl !! date.
Proof.
  intros Hg Hnone Hw. unfold fetchPowerwallData. rewrite Hg, Hw.
  rewrite (trackBaseline_absent_ok (todayKey e) (countersOf g) tbl Hnone).
  destruct (dailyBreakdown_no_load _ (dayLoad_own_baseline (countersOf g)))
    as [Hzero Hself].
  eexists. split; [reflexivity|]. cbn [reading_dailyBreakdown
    reading_selfPoweredPercent load_power grid_power fst].
  split; [exact Hzero|]. split; [apply Hself|].
  intros date Hne. now rewrite lookup_insert_ne.
Qed.

Lemma first_poll_of_day_witness :
  exists r : Reading,
    fetchPowerwallData firstPoll ∅ =
      (<["2024-06-01" := baselineRowOf (countersOf (gatewayWith 1000000 2000000))]> ∅,
       Some r).
Proof.
  destruct (first_poll_of_day firstPoll ∅ (gatewayWith 1000000 2000000)
              eq_refl (lookup_empty _) eq_refl) as (r & Hr & _).
  exists r. exact Hr.
Defined.

(** ** What one poll cycle writes *)

Lemma ssePoll_publish (e : Env) (s : Server) :
  ssePoll e s =
    match sseClients s with
    | [] => s
    | _ :: _ =>
        match fetchPowerwallData e (daily_baselines s) with
        | (tbl, Some data) => publish e data (lastUpdate_powerwall s) tbl s
        | (tbl, None) => with_baselines tbl s
        end
    end.
Proof.
  unfold ssePoll, publish. destruct (sseClients s); [reflexivity|].
  destruct (fetchPowerwallData e (daily_baselines s)) as [tbl [data|]];
    reflexivity.
Qed.

Lemma getPowerwall_publish (e : Env) (s : Server) :
  getPowerwall e s =
    match freshCache (clockRequest e) s with
    | Some r => (s, Ok r)
    | None =>
        match fetchPowerwallData e (daily_baselines s) with
        | (tbl, Some data) =>
            (publish e data (Some (clockRequest e)) tbl s, Ok data)
        | (tbl, None) => (with_baselines tbl s, Unavailable)
        end
    end.
Proof.
  unfold getPowerwall, publish. destruct (freshCache _ s); [reflexivity|].
  destruct (fetchPowerwallData e (daily_baselines s)) as [tbl [data|]];
    reflexivity.
Qed.

(** The frames an evaluation writes are alert frames. *)
Lemma foldl_raiseAlert_wire (cs : list Alert) (s : Server) :
  exists extra,
    wire (foldl raiseAlert s cs) = wire s ++ extra /\
    Forall (fun f => exists a, f.2 = EvAlert a) extra.
Proof.
  revert s. induction cs as [|c cs IH]; intros s; cbn [foldl].
  - exists []. split; [now rewrite app_nil_r | apply Forall_nil_2].
  - destruct (IH (raiseAlert s c)) as (extra & Hw & Hall).
    unfold raiseAlert in *. destruct (List.find _ (alerts s)).
    + exists extra. split; assumption.
    + destruct (broadcastUpdate_wire (EvAlert c)
                  (with_alerts (alerts s ++ [c]) s)) as (first & Hf & Hfa).
      exists (first ++ extra). split.
      * rewrite Hw, Hf. cbn. now rewrite app_assoc.
      * apply Forall_app. split; [|exact Hall].
        eapply Forall_impl; [exact Hfa|]. intros f Hf'. now exists c.
Qed.

(** Everything a successful poll cycle leaves behind. *)
Lemma publish_fields (e : Env) (data : Reading) (stamp : option Z)
    (tbl : Baselines) (s : Server) :
  let s' := publish e data stamp tbl s in
  cached_powerwall s' = Some data /\
  lastUpdate_powerwall s' = stamp /\
  daily_baselines s' = tbl /\
  power_samples s' =
    (if sampleWrite e then power_samples s ++ [sampleOf data]
     else power_samples s) /\
  history s' =
    filter (fun h => clockStored e - 24 * 60 * 60 * 1000 < h_timestamp h)
      (history s ++ [historyPointOf data]) /\
  analytics s' = analytics s /\
  settings_alerts s' = settings_alerts s /\
  cached_temps s' = cached_temps s /\
  exists alertFrames sent,
    wire s' = wire s ++ alertFrames ++ framesFor (EvPowerwall data) sent /\
    Forall (fun f => exists a, f.2 = EvAlert a) alertFrames.
Proof.
  cbv zeta. unfold publish.
  set (s3 := insertSample e data _).
  set (s4 := checkAlerts (clockStored e) data (cached_temps s3) s3).
  pose proof (broadcastUpdate_frame (EvPowerwall data) s4) as Hb.
  cbv zeta in Hb.
  destruct Hb as (_ & Hh & Han & Hset & Hc & Hl & Ht & Hd & Hp & _).
  pose proof (foldl_raiseAlert_frame
    (newAlerts (clockStored e) (settings_alerts s3) data (cached_temps s3)) s3)
    as Hf. cbv zeta in Hf.
  destruct Hf as (Hfset & _ & Hfh & Hfan & Hfc & Hfl & Hft & Hfd & Hfp).
  assert (Hfields :
    cached_powerwall s3 = Some data /\ lastUpdate_powerwall s3 = stamp /\
    daily_baselines s3 = tbl /\
    power_samples s3 =
      (if sampleWrite e then power_samples s ++ [sampleOf data]
       else power_samples s) /\
    history s3 =
      filter (fun h => clockStored e - 24 * 60 * 60 * 1000 < h_timestamp h)
        (history s ++ [historyPointOf data]) /\
    analytics s3 = analytics s /\ settings_alerts s3 = settings_alerts s /\
    cached_temps s3 = cached_temps s /\ wire s3 = wire s).
  { subst s3. unfold insertSample. destruct (sampleWrite e); cbn; tauto. }
  destruct Hfields as (F1 & F2 & F3 & F4 & F5 & F6 & F7 & F8 & F9).
  rewrite Hc, Hl, Hd, Hp, Hh, Han, Hset, Ht. subst s4. unfold checkAlerts.
  cbn [cached_powerwall lastUpdate_powerwall daily_baselines power_samples
       history analytics settings_alerts cached_temps saveJSON with_alerts].
  rewrite Hfc, Hfl, Hfd, Hfp, Hfh, Hfan, Hfset, Hft.
  repeat (split; [assumption|]).
  destruct (broadcastUpdate_sent (EvPowerwall data)
              (checkAlerts (clockStored e) data (cached_temps s3) s3))
    as (sent & Hw & _).
  destruct (foldl_raiseAlert_wire
    (newAlerts (clockStored e) (settings_alerts s3) data (cached_temps s3)) s3)
    as (alertFrames & Hwa & Hall).
  exists alertFrames, sent. split; [|exact Hall].
  unfold checkAlerts in Hw. cbn [wire saveJSON with_alerts] in Hw.
  unfold checkAlerts. rewrite Hw, Hwa, F9. now rewrite app_assoc.
Qed.

(** ** Readings are well formed *)

Lemma dailyBreakdown_nonneg (c : Counters) (b : BaselineRow) :
  let bd := dailyBreakdown (dayDeltas c b) in
  0 <= solarPct bd /\ 0 <= batteryPct bd /\ 0 <= gridPct bd.
Proof.
  cbv zeta. unfold dailyBreakdown.
  destruct (Qlt_le_dec 0 (dayLoad (dayDeltas c b))) as [Hpos | _];
    cbn [solarPct batteryPct gridPct]; [|lia].
  repeat split; apply roundedPercentOf_nonneg; try exact Hpos;
    apply Q.le_max_l.
Qed.

Lemma fetchPowerwallData_wellFormed (e : Env) (tbl tbl' : Baselines)
    (r : Reading) :
  fetchPowerwallData e tbl = (tbl', Some r) -> wellFormed r.
Proof.
  unfold fetchPowerwallData. destruct (gateway e) as [g|]; [|discriminate].
  destruct (trackBaseline _ _ _ _) as [tbl1 [baseline|]]; [|discriminate].
  intros H. injection H as _ <-. unfold wellFormed.
  cbn [battery_status battery_power reading_selfPoweredPercent
       reading_dailyBreakdown].
  split; [reflexivity|]. split.
  - apply dailySelfPowered_range, selfPoweredPercent_range.
  - apply dailyBreakdown_nonneg.
Qed.

(** X4. Every reading a fetch returns is well formed: its battery status
    is the dead-band class of its battery power, its self-powered
    percentage lies in 0..100, and the three percentages of its daily
    breakdown are not negative. They are not capped at 100: a day with
    more solar production than load shows a solar share above 100. *)
Theorem fetched_reading_well_formed :
  (forall (e : Env) (tbl tbl' : Baselines) (r : Reading),
     fetchPowerwallData e tbl = (tbl', Some r) -> wellFormed r) /\
  (exists (e : Env) (tbl tbl' : Baselines) (r : Reading),
     fetchPowerwallData e tbl = (tbl', Some r) /\
     100 < solarPct (reading_dailyBreakdown r)).
Proof.
  split; [exact fetchPowerwallData_wellFormed|].
  exists (pollAt 2000 (Some (gatewayWith 4000000 2800000))),
    (fetchPowerwallData firstPoll ∅).1.
  eexists _, _. split; [vm_compute; reflexivity|]. vm_compute. reflexivity.
Qed.

Lemma fetched_reading_well_formed_witness :
  wellFormed firstReading.
Proof.
  apply (proj1 fetched_reading_well_formed firstPoll ∅
           (fetchPowerwallData firstPoll ∅).1 firstReading).
  vm_compute. reflexivity.
Defined.

(** ** What is cached, stored and sent stays well formed *)

Lemma storeInv_ext (s s' : Server) :
  cached_powerwall s' = cached_powerwall s ->
  power_samples s' = power_samples s ->
  wire s' = wire s ->
  storeInv s -> storeInv s'.
Proof. unfold storeInv. intros -> -> ->. tauto. Qed.

Lemma storeInv_broadcast (data : Event) (s : Server) :
  (forall r, data = EvPowerwall r -> wellFormed r) ->
  storeInv s -> storeInv (broadcastUpdate data s).
Proof.
  intros Hdata (Hc & Hs & Hw).
  pose proof (broadcastUpdate_frame data s) as Hf. cbv zeta in Hf.
  destruct Hf as (_ & _ & _ & _ & Hfc & _ & _ & _ & Hfs & _).
  destruct (broadcastUpdate_wire data s) as (extra & Hfw & Hall).
  unfold storeInv. rewrite Hfc, Hfs, Hfw. split; [exact Hc|].
  split; [exact Hs|]. apply Forall_app. split; [exact Hw|].
  eapply Forall_impl; [exact Hall|]. intros f -> r Hr. now apply Hdata.
Qed.

Lemma storeInv_publish (e : Env) (data : Reading) (stamp : option Z)
    (tbl : Baselines) (s : Server) :
  wellFormed data -> storeInv s -> storeInv (publish e data stamp tbl s).
Proof.
  intros Hwf (Hc & Hs & Hw).
  pose proof (publish_fields e data stamp tbl s) as H. cbv zeta in H.
  destruct H as (Fc & _ & _ & Fs & _ & _ & _ & _ & af & sent & Fw & Haf).
  unfold storeInv. rewrite Fc, Fs, Fw. split; [|split].
  - intros r Hr. injection Hr as <-. exact Hwf.
  - destruct (sampleWrite e); [|exact Hs].
    apply Forall_app. split; [exact Hs|].
    apply Forall_cons_2; [|apply Forall_nil_2].
    cbn. exact (proj1 Hwf).
  - apply Forall_app. split; [exact Hw|]. apply Forall_app. split.
    + eapply Forall_impl; [exact Haf|]. intros f [a Ha] r Hr.
      rewrite Ha in Hr. discriminate.
    + unfold framesFor. apply Forall_fmap, Forall_forall.
      intros c _ r Hr. cbn in Hr. injection Hr as <-. exact Hwf.
Qed.

Lemma storeInv_step (s s' : Server) :
  HandlerStep s s' -> storeInv s -> storeInv s'.
Proof.
  intros Hstep. destruct Hstep as [a a' Hcore | res a | res a | hash a];
    [destruct Hcore as [e a | e a | now a | id a]| | |]; intros Hinv;
    rename a into s.
  - rewrite ssePoll_publish. destruct (sseClients s); [exact Hinv|].
    destruct (fetchPowerwallData e (daily_baselines s)) as [tbl [data|]] eqn:Hf.
    + apply storeInv_publish; [|exact Hinv].
      exact (fetchPowerwallData_wellFormed e _ _ _ Hf).
    + revert Hinv. apply storeInv_ext; reflexivity.
  - rewrite getPowerwall_publish.
    destruct (freshCache (clockRequest e) s); [exact Hinv|].
    destruct (fetchPowerwallData e (daily_baselines s)) as [tbl [data|]] eqn:Hf;
      cbn [fst].
    + apply storeInv_publish; [|exact Hinv].
      exact (fetchPowerwallData_wellFormed e _ _ _ Hf).
    + revert Hinv. apply storeInv_ext; reflexivity.
  - unfold hourlyTick.
    destruct (calculateHourlyAnalytics now (history s)); [|exact Hinv].
    apply storeInv_broadcast; [discriminate|].
    revert Hinv. apply storeInv_ext; reflexivity.
  - revert Hinv. apply storeInv_ext; reflexivity.
  - unfold subscribe.
    destruct (cached_powerwall s) as [r|] eqn:Hr; [destruct (broken res)|];
      try (revert Hinv; apply storeInv_ext; reflexivity).
    destruct Hinv as (Hc & Hs & Hw). unfold storeInv.
    cbn [cached_powerwall power_samples wire with_connections].
    split; [exact Hc|]. split; [exact Hs|].
    apply Forall_app. split; [exact Hw|].
    apply Forall_cons_2; [|apply Forall_nil_2].
    cbn. intros r' Hr'. injection Hr' as <-. now apply Hc.
  - unfold unsubscribe. destruct (indexOf res (sseClients s)); [|exact Hinv].
    revert Hinv. apply storeInv_ext; reflexivity.
  - apply storeInv_broadcast; [discriminate | exact Hinv].
Qed.

(** X5. Whatever the handlers do, in whatever order, the cached reading,
    every frame carrying a reading and every stored sample row stay well
    formed: a sample's status text is always the dead-band class of its
    own battery power, and a reading's self-powered percentage is always
    within 0..100. *)
Theorem store_stays_well_formed (s s' : Server) :
  storeInv s -> rtc HandlerStep s s' -> storeInv s'.
Proof.
  intros Hinv Hrun. induction Hrun as [|s s1 s' Hstep _ IH]; [exact Hinv|].
  apply IH. exact (storeInv_step s s1 Hstep Hinv).
Qed.

Lemma store_stays_well_formed_witness :
  storeInv (ssePoll firstPoll (subscribe liveClient (serverWith []))).
Proof.
  apply (store_stays_well_formed (serverWith [])).
  - split; [discriminate|]. split; apply Forall_nil_2.
  - eapply rtc_l; [apply HandlerSubscribe|].
    eapply rtc_l; [apply HandlerCore, StepTimer|]. apply rtc_refl.
Defined.

(** ** What the handlers never take back *)

Lemma trackBaseline_grows (w : bool) (todayKey : string) (c : Counters)
    (tbl : Baselines) :
  tbl ⊆ (trackBaseline w todayKey c tbl).1.
Proof.
  unfold trackBaseline, getBaseline, insertBaseline.
  destruct (tbl !! todayKey) eqn:Hk; [reflexivity|].
  destruct w; [|reflexivity]. cbn. now apply insert_subseteq.
Qed.

Lemma fetchPowerwallData_grows (e : Env) (tbl : Baselines) :
  tbl ⊆ (fetchPowerwallData e tbl).1.
Proof.
  unfold fetchPowerwallData. destruct (gateway e) as [g|]; [|reflexivity].
  pose proof (trackBaseline_grows (baselineWrite e) (todayKey e)
                (countersOf g) tbl) as H.
  destruct (trackBaseline _ _ _ _) as [tbl1 [b|]]; exact H.
Qed.

(** The three stores a handler may only extend. *)
Lemma publish_extends (e : Env) (data : Reading) (stamp : option Z)
    (tbl : Baselines) (s : Server) :
  daily_baselines s ⊆ tbl ->
  let s' := publish e data stamp tbl s in
  power_samples s `prefix_of` power_samples s' /\
  wire s `prefix_of` wire s' /\
  daily_baselines s ⊆ daily_baselines s'.
Proof.
  intros Htbl. pose proof (publish_fields e data stamp tbl s) as H.
  cbv zeta in *.
  destruct H as (_ & _ & Fd & Fs & _ & _ & _ & _ & af & sent & Fw & _).
  rewrite Fd, Fs, Fw. split; [|split; [|exact Htbl]].
  - destruct (sampleWrite e); [apply prefix_app_r|]; reflexivity.
  - apply prefix_app_r. reflexivity.
Qed.

Lemma handler_extends (s s' : Server) :
  HandlerStep s s' ->
  power_samples s `prefix_of` power_samples s' /\
  wire s `prefix_of` wire s' /\
  daily_baselines s ⊆ daily_baselines s'.
Proof.
  intros Hstep. destruct Hstep as [a a' Hcore | res a | res a | hash a];
    [destruct Hcore as [e a | e a | now a | id a]| | |]; rename a into s.
  - rewrite ssePoll_publish. destruct (sseClients s); [done|].
    pose proof (fetchPowerwallData_grows e (daily_baselines s)) as Hg.
    destruct (fetchPowerwallData e (daily_baselines s)) as [tbl [data|]].
    + now apply publish_extends.
    + cbn. done.
  - rewrite getPowerwall_publish.
    destruct (freshCache (clockRequest e) s); [done|].
    pose proof (fetchPowerwallData_grows e (daily_baselines s)) as Hg.
    destruct (fetchPowerwallData e (daily_baselines s)) as [tbl [data|]];
      cbn [fst].
    + now apply publish_extends.
    + cbn. done.
  - unfold hourlyTick.
    destruct (calculateHourlyAnalytics now (history s)) as [entry|]; [|done].
    match goal with
    | |- context [broadcastUpdate ?ev ?st] =>
        pose proof (broadcastUpdate_frame ev st) as Hf;
        destruct (broadcastUpdate_wire ev st) as (extra & Hw & _)
    end.
    cbv zeta in Hf. destruct Hf as (_ & _ & _ & _ & _ & _ & _ & Hd & Hp & _).
    rewrite Hd, Hp, Hw. cbn. split; [done|]. split; [|done].
    apply prefix_app_r. reflexivity.
  - cbn. done.
  - unfold subscribe.
    destruct (cached_powerwall s); [destruct (broken res)|]; cbn;
      repeat split; try done.
    apply prefix_app_r. reflexivity.
  - unfold unsubscribe. destruct (indexOf res (sseClients s)); cbn; done.
  - unfold announceCode.
    pose proof (broadcastUpdate_frame (EvCodeUpdate hash) s) as Hf.
    destruct (broadcastUpdate_wire (EvCodeUpdate hash) s) as (extra & Hw & _).
    cbv zeta in Hf. destruct Hf as (_ & _ & _ & _ & _ & _ & _ & Hd & Hp & _).
    rewrite Hd, Hp, Hw. split; [done|]. split; [|done].
    apply prefix_app_r. reflexivity.
Qed.

(** X6. No handler ever removes or rewrites a stored sample row, a frame
    already written to a subscriber, or a day's baseline row: over any
    sequence of handlers the sample table and the wire only grow at the
    end, and every baseline row once stored is still there unchanged. *)
Theorem stores_are_append_only (s s' : Server) :
  rtc HandlerStep s s' ->
  power_samples s `prefix_of` power_samples s' /\
  wire s `prefix_of` wire s' /\
  (forall (date : string) (row : BaselineRow),
     daily_baselines s !! date = Some row ->
     daily_baselines s' !! date = Some row).
Proof.
  intros Hrun.
  assert (H : power_samples s `prefix_of` power_samples s' /\
              wire s `prefix_of` wire s' /\
              daily_baselines s ⊆ daily_baselines s').
  { induction Hrun as [|s s1 s' Hstep _ IH]; [done|].
    destruct (handler_extends s s1 Hstep) as (H1 & H2 & H3).
    destruct IH as (I1 & I2 & I3).
    split; [|split]; etrans; eassumption. }
  destruct H as (H1 & H2 & H3). split; [exact H1|]. split; [exact H2|].
  intros date row Hrow.
  exact (lookup_weaken _ _ _ _ Hrow H3).
Qed.

Lemma stores_are_append_only_witness :
  daily_baselines
    (ssePoll (pollAt 2000 (Some (gatewayWith 1500000 2800000)))
       (ssePoll firstPoll (subscribe liveClient (serverWith []))))
    !! "2024-06-01"
  = Some (baselineRowOf (countersOf (gatewayWith 1000000 2000000))).
Proof.
  apply (proj2 (proj2 (stores_are_append_only
           (ssePoll firstPoll (subscribe liveClient (serverWith [])))
           (ssePoll (pollAt 2000 (Some (gatewayWith 1500000 2800000)))
              (ssePoll firstPoll (subscribe liveClient (serverWith []))))
           (rtc_once _ _ (HandlerCore _ _ (StepTimer _ _)))))).
  vm_compute. reflexivity.
Defined.

(** ** The freshness cache of the on-demand route (lines 1206-1219) *)

Lemma freshCache_publish (e : Env) (data : Reading) (stamp now : Z)
    (tbl : Baselines) (s : Server) :
  now - stamp < 15000 ->
  freshCache now (publish e data (Some stamp) tbl s) = Some data.
Proof.
  intros Hlt. pose proof (publish_fields e data (Some stamp) tbl s) as H.
  cbv zeta in H. destruct H as (Fc & Fl & _).
  unfold freshCache. rewrite Fc, Fl.
  destruct (Z.ltb_spec (now - stamp) 15000); [reflexivity | lia].
Qed.

Lemma lastUpdate_ssePoll (e : Env) (s : Server) :
  lastUpdate_powerwall (ssePoll e s) = lastUpdate_powerwall s.
Proof.
  rewrite ssePoll_publish. destruct (sseClients s); [reflexivity|].
  destruct (fetchPowerwallData e (daily_baselines s)) as [tbl [data|]];
    [|reflexivity].
  exact (proj1 (proj2 (publish_fields e data _ tbl s))).
Qed.

(** X7. After the route has fetched a reading, a request less than 15
    seconds later is answered from the cache: the gateway is not asked and
    the state does not change, whether the gateway is reachable or not.
    The answer is the reading cached by then: when the timer has polled in
    between, it is the timer's newer reading. The timer itself never
    renews the cache's age, so on a server where only the timer has run
    the route always fetches. *)
Theorem powerwall_route_cache (e1 e2 : Env) (s : Server) (tbl : Baselines)
    (data : Reading) :
  freshCache (clockRequest e1) s = None ->
  fetchPowerwallData e1 (daily_baselines s) = (tbl, Some data) ->
  clockRequest e2 - clockRequest e1 < 15000 ->
  let s1 := (getPowerwall e1 s).1 in
  getPowerwall e2 s1 = (s1, Ok data) /\
  (forall (e' : Env) (tbl' : Baselines) (data' : Reading),
     sseClients s1 <> [] ->
     fetchPowerwallData e' (daily_baselines s1) = (tbl', Some data') ->
     getPowerwall e2 (ssePoll e' s1) = (ssePoll e' s1, Ok data')) /\
  (forall (e' : Env) (s0 : Server) (now : Z),
     lastUpdate_powerwall s0 = None ->
     freshCache now (ssePoll e' s0) = None).
Proof.
  intros Hstale Hfetch Hage s1.
  assert (Hs1 : s1 = publish e1 data (Some (clockRequest e1)) tbl s).
  { subst s1. rewrite getPowerwall_publish, Hstale, Hfetch. reflexivity. }
  split; [|split].
  - rewrite (getPowerwall_publish e2 s1). rewrite Hs1 at 1.
    now rewrite freshCache_publish.
  - intros e' tbl' data' Hne Hf'.
    rewrite (getPowerwall_publish e2 (ssePoll e' s1)).
    assert (Hp : ssePoll e' s1 =
                 publish e' data' (Some (clockRequest e1)) tbl' s1).
    { rewrite ssePoll_publish. destruct (sseClients s1); [contradiction|].
      rewrite Hf'. f_equal. rewrite Hs1.
      exact (proj1 (proj2 (publish_fields e1 data _ tbl s))). }
    rewrite Hp at 1. now rewrite freshCache_publish.
  - intros e' s0 now Hnone. unfold freshCache.
    rewrite lastUpdate_ssePoll, Hnone.
    destruct (cached_powerwall (ssePoll e' s0)); reflexivity.
Qed.

Lemma powerwall_route_cache_witness :
  let s1 := (getPowerwall firstPoll (serverWith [liveClient])).1 in
  getPowerwall (pollAt 9000 None) s1 = (s1, Ok firstReading).
Proof.
  refine (proj1 (powerwall_route_cache firstPoll (pollAt 9000 None)
                   (serverWith [liveClient])
                   (fetchPowerwallData firstPoll ∅).1 firstReading
                   eq_refl _ _)).
  - vm_compute. reflexivity.
  - vm_compute. reflexivity.
Defined.

(** ** Subscriptions (lines 477-497) *)

Lemma indexOf_None {A : Type} `{EqDecision A} (x : A) (l : list A) :
  indexOf x l = None <-> x ∉ l.
Proof.
  induction l as [|y l IH]; cbn.
  - split; [intros _; apply not_elem_of_nil | reflexivity].
  - rewrite not_elem_of_cons. destruct (decide (y = x)) as [-> | Hne].
    + split; [discriminate | intros [H _]; congruence].
    + destruct (indexOf x l); cbn.
      * split; [discriminate|]. intros [_ H]. apply IH in H. discriminate.
      * split; [|reflexivity]. intros _. split; [congruence|].
        now apply IH.
Qed.

Lemma indexOf_Some {A : Type} `{EqDecision A} (x : A) (l : list A) (i : nat) :
  indexOf x l = Some i -> l !! i = Some x /\ x ∉ take i l.
Proof.
  revert i. induction l as [|y l IH]; intros i; cbn; [discriminate|].
  destruct (decide (y = x)) as [-> | Hne].
  - intros H. injection H as <-. split; [reflexivity|]. cbn.
    apply not_elem_of_nil.
  - destruct (indexOf x l) as [j|]; cbn; [|discriminate].
    intros H. injection H as <-. destruct (IH j eq_refl) as [H1 H2].
    split; [exact H1|]. cbn. rewrite not_elem_of_cons. split; congruence.
Qed.

Lemma indexOf_snoc {A : Type} `{EqDecision A} (x : A) (l : list A) :
  x ∉ l -> indexOf x (l ++ [x]) = Some (length l).
Proof.
  induction l as [|y l IH]; cbn.
  - intros _. destruct (decide (x = x)); [reflexivity | congruence].
  - rewrite not_elem_of_cons. intros [Hne Hout].
    destruct (decide (y = x)); [congruence|]. now rewrite IH.
Qed.

Lemma delete_snoc {A : Type} (x : A) (l : list A) :
  delete (length l) (l ++ [x]) = l.
Proof.
  rewrite delete_take_drop, take_app_length.
  rewrite drop_ge by (rewrite length_app; cbn; lia). apply app_nil_r.
Qed.

Lemma NoDup_delete_absent {A : Type} (x : A) (l : list A) (i : nat) :
  NoDup l -> l !! i = Some x -> x ∉ delete i l.
Proof.
  intros Hnd Hi. rewrite delete_take_drop.
  rewrite <- (take_drop_middle l i x Hi) in Hnd.
  apply NoDup_app in Hnd. destruct Hnd as (_ & Hdisj & Hnd2).
  apply NoDup_cons in Hnd2. destruct Hnd2 as [Hout _].
  rewrite elem_of_app. intros [H | H]; [|contradiction].
  apply (Hdisj x H). apply list_elem_of_here.
Qed.

Lemma elem_of_delete_other {A : Type} (x c : A) (l : list A) (i : nat) :
  l !! i = Some x -> c <> x -> (c ∈ delete i l <-> c ∈ l).
Proof.
  intros Hi Hne. rewrite delete_take_drop.
  rewrite <- (take_drop_middle l i x Hi) at 3.
  rewrite !elem_of_app, elem_of_cons. tauto.
Qed.

Lemma sseClients_subscribe (res : Client) (s : Server) :
  sseClients (subscribe res s) = sseClients s ++ [res].
Proof.
  unfold subscribe.
  destruct (cached_powerwall s); [destruct (broken res)|]; reflexivity.
Qed.

(** X8. The close listener removes exactly its own subscriber: the others
    stay, in their order, and a connection that is not subscribed changes
    nothing. A new subscriber is pushed, then sent the cached reading when
    there is one. When that write returns (always, when nothing is
    cached), the listener is registered, and opening then closing a new
    connection gives back the subscriber list as it was. When that write
    throws, the route ends before it registers the listener: the
    connection stays subscribed, closing it changes nothing, and it is
    still on the list afterwards. *)
Theorem subscription_round_trip (res : Client) (st : Streams) :
  let s := server st in
  (res ∉ sseClients s -> unsubscribe res s = s) /\
  (NoDup (sseClients s) ->
   (res ∉ sseClients (unsubscribe res s)) /\
   forall c, c <> res ->
     (c ∈ sseClients (unsubscribe res s) <-> c ∈ sseClients s)) /\
  sseClients (unsubscribe res s) `sublist_of` sseClients s /\
  sseClients (subscribe res s) = sseClients s ++ [res] /\
  wire (subscribe res s) =
    wire s ++ match cached_powerwall s with
              | Some r => if broken res then [] else [(cid res, EvPowerwall r)]
              | None => []
              end /\
  (registersClose res s = false <->
   cached_powerwall s <> None /\ broken res = true) /\
  (registersClose res s = true -> res ∉ sseClients s ->
   sseClients (server (closeStream res (openStream res st))) = sseClients s) /\
  (registersClose res s = false -> res ∉ closeListeners st ->
   closeStream res (openStream res st) = openStream res st /\
   res ∈ sseClients (server (closeStream res (openStream res st))) /\
   wire (server (closeStream res (openStream res st))) = wire s).
Proof.
  cbv zeta.
  split; [|split; [|split; [|split; [|split; [|split; [|split]]]]]].
  - intros Hout. unfold unsubscribe. apply indexOf_None in Hout.
    now rewrite Hout.
  - intros Hnd. unfold unsubscribe.
    destruct (indexOf res (sseClients (server st))) as [i|] eqn:Hi.
    + apply indexOf_Some in Hi. destruct Hi as [Hi _]. cbn. split.
      * now apply NoDup_delete_absent.
      * intros c Hc. now apply (elem_of_delete_other res).
    + split; [now apply indexOf_None | tauto].
  - unfold unsubscribe. destruct (indexOf res (sseClients (server st))); cbn;
      [apply sublist_delete | reflexivity].
  - apply sseClients_subscribe.
  - unfold subscribe.
    destruct (cached_powerwall (server st)); [destruct (broken res)|]; cbn;
      now rewrite ?app_nil_r.
  - unfold registersClose.
    destruct (cached_powerwall (server st)); [destruct (broken res)|]; cbn;
      split; try discriminate; try (intros [H1 H2]; congruence);
      intros _; split; [discriminate | reflexivity].
  - intros Hreg Hout. unfold closeStream, openStream.
    cbn [server closeListeners]. rewrite Hreg.
    rewrite decide_True by (apply elem_of_app; right; apply list_elem_of_here).
    cbn [server]. unfold unsubscribe.
    rewrite sseClients_subscribe, (indexOf_snoc res _ Hout).
    cbn. apply delete_snoc.
  - intros Hreg Hout. unfold closeStream, openStream.
    cbn [server closeListeners]. rewrite Hreg.
    rewrite decide_False by exact Hout.
    split; [reflexivity|]. cbn [server]. split.
    + rewrite sseClients_subscribe. apply elem_of_app. right.
      apply list_elem_of_here.
    + unfold registersClose in Hreg. unfold subscribe.
      destruct (cached_powerwall (server st)); [|discriminate].
      destruct (broken res); [reflexivity | discriminate].
Qed.

Lemma subscription_round_trip_witness :
  sseClients (server (closeStream {| cid := 8; broken := false |}
                (openStream {| cid := 8; broken := false |}
                   {| server := serverWith [liveClient]; closeListeners := [] |})))
  = [liveClient] /\
  sseClients (server (closeStream {| cid := 9; broken := true |}
                (openStream {| cid := 9; broken := true |}
                   {| server := with_cache (Some firstReading) None
                                  (serverWith [liveClient]);
                      closeListeners := [] |})))
  = [liveClient; {| cid := 9; broken := true |}].
Proof.
  split.
  - apply (proj1 (proj2 (proj2 (proj2 (proj2 (proj2 (proj2
             (subscription_round_trip {| cid := 8; broken := false |}
                {| server := serverWith [liveClient];
                   closeListeners := [] |}))))))));
      [reflexivity | compute_done].
  - pose proof (proj1 (proj2 (proj2 (proj2 (proj2 (proj2 (proj2 (proj2
             (subscription_round_trip {| cid := 9; broken := true |}
                {| server := with_cache (Some firstReading) None
                               (serverWith [liveClient]);
                   closeListeners := [] |}))))))) eq_refl
             ltac:(compute_done))) as H.
    rewrite H. reflexivity.
Defined.

(** ** Frames go to subscribers only *)

Lemma broadcastUpdate_clients_sublist (data : Event) (s : Server) :
  sseClients (broadcastUpdate data s) `sublist_of` sseClients s.
Proof.
  unfold broadcastUpdate, forEach.
  pose proof (forEachFrom_preserves (writeOrDrop data)
    (fun st => st.1 `sublist_of` sseClients s)) as H.
  specialize (H) with (remaining := length (sseClients s)) (k := 0%nat)
    (st := (sseClients s, wire s)).
  destruct (forEachFrom _ _ _ _) as [cl w]. cbn [fst] in H. cbn.
  apply H; [|reflexivity].
  intros x k st _ Hst. unfold writeOrDrop.
  destruct (broken x); cbn [fst]; [|exact Hst].
  etrans; [apply sublist_delete | exact Hst].
Qed.

Lemma writesToSubscribers_refl (s : Server) : writesToSubscribers s s.
Proof.
  split; [reflexivity|]. exists [].
  split; [now rewrite app_nil_r | apply Forall_nil_2].
Qed.

Lemma writesToSubscribers_trans (s1 s2 s3 : Server) :
  writesToSubscribers s1 s2 -> writesToSubscribers s2 s3 ->
  writesToSubscribers s1 s3.
Proof.
  intros (Hc1 & x1 & Hw1 & Hf1) (Hc2 & x2 & Hw2 & Hf2). split.
  - etrans; eassumption.
  - exists (x1 ++ x2). split; [rewrite Hw2, Hw1; now rewrite app_assoc|].
    apply Forall_app. split; [exact Hf1|].
    eapply Forall_impl; [exact Hf2|]. intros f Hf. cbn in Hf.
    apply list_elem_of_fmap in Hf. destruct Hf as (c & Hcid & Hc).
    apply list_elem_of_fmap. exists c. split; [exact Hcid|].
    exact (sublist_subseteq _ _ Hc1 c Hc).
Qed.

Lemma writesToSubscribers_ext (s s' : Server) :
  sseClients s' = sseClients s -> wire s' = wire s ->
  writesToSubscribers s s'.
Proof.
  intros Hc Hw. split; [now rewrite Hc|]. exists [].
  split; [now rewrite Hw, app_nil_r | apply Forall_nil_2].
Qed.

Lemma writesToSubscribers_broadcast (data : Event) (s : Server) :
  writesToSubscribers s (broadcastUpdate data s).
Proof.
  split; [apply broadcastUpdate_clients_sublist|].
  destruct (broadcastUpdate_sent data s) as (sent & Hw & Hsub & _).
  exists (framesFor data sent). split; [exact Hw|].
  unfold framesFor. apply Forall_fmap, Forall_forall. intros c Hc. cbn.
  apply list_elem_of_fmap. exists c. split; [reflexivity|].
  exact (sublist_subseteq _ _ Hsub c Hc).
Qed.

Lemma writesToSubscribers_foldl (cs : list Alert) (s : Server) :
  writesToSubscribers s (foldl raiseAlert s cs).
Proof.
  revert s. induction cs as [|c cs IH]; intros s; cbn [foldl].
  - apply writesToSubscribers_refl.
  - eapply writesToSubscribers_trans; [|apply IH].
    unfold raiseAlert. destruct (List.find _ (alerts s)).
    + apply writesToSubscribers_refl.
    + eapply writesToSubscribers_trans;
        [|apply writesToSubscribers_broadcast].
      apply writesToSubscribers_ext; reflexivity.
Qed.

Lemma writesToSubscribers_checkAlerts (now : Z) (p : Reading) (t : option Z)
    (s : Server) :
  writesToSubscribers s (checkAlerts now p t s).
Proof.
  unfold checkAlerts.
  eapply writesToSubscribers_trans; [apply writesToSubscribers_foldl|].
  apply writesToSubscribers_ext; reflexivity.
Qed.

Lemma writesToSubscribers_publish (e : Env) (data : Reading)
    (stamp : option Z) (tbl : Baselines) (s : Server) :
  writesToSubscribers s (publish e data stamp tbl s).
Proof.
  unfold publish.
  eapply writesToSubscribers_trans; [|apply writesToSubscribers_broadcast].
  eapply writesToSubscribers_trans; [|apply writesToSubscribers_checkAlerts].
  apply writesToSubscribers_ext; unfold insertSample;
    destruct (sampleWrite e); reflexivity.
Qed.

Lemma writesToSubscribers_core (s s' : Server) :
  ServerStep s s' -> writesToSubscribers s s'.
Proof.
  intros Hstep. destruct Hstep as [e s | e s | now s | id s].
  - rewrite ssePoll_publish. destruct (sseClients s) eqn:Hcl;
      [apply writesToSubscribers_refl|].
    destruct (fetchPowerwallData e (daily_baselines s)) as [tbl [data|]].
    + apply writesToSubscribers_publish.
    + apply writesToSubscribers_ext; reflexivity.
  - rewrite getPowerwall_publish.
    destruct (freshCache (clockRequest e) s);
      [apply writesToSubscribers_refl|].
    destruct (fetchPowerwallData e (daily_baselines s)) as [tbl [data|]];
      cbn [fst].
    + apply writesToSubscribers_publish.
    + apply writesToSubscribers_ext; reflexivity.
  - unfold hourlyTick.
    destruct (calculateHourlyAnalytics now (history s));
      [|apply writesToSubscribers_refl].
    eapply writesToSubscribers_trans; [|apply writesToSubscribers_broadcast].
    apply writesToSubscribers_ext; reflexivity.
  - apply writesToSubscribers_ext; reflexivity.
Qed.

(** One step that is not a subscription by [c0] keeps [c0] off the list
    and writes it nothing. *)
Lemma stepWithout_quiet (c0 : nat) (s s' : Server) :
  StepWithout c0 s s' ->
  c0 ∉ cid <$> sseClients s ->
  (c0 ∉ cid <$> sseClients s') /\
  exists extra, wire s' = wire s ++ extra /\ Forall (fun f => f.1 <> c0) extra.
Proof.
  intros Hstep Hout.
  assert (Hgen : forall a a', writesToSubscribers a a' ->
            c0 ∉ cid <$> sseClients a ->
            (c0 ∉ cid <$> sseClients a') /\
            exists extra, wire a' = wire a ++ extra /\
                          Forall (fun f => f.1 <> c0) extra).
  { intros a a' (Hsub & extra & Hw & Hall) Ha. split.
    - intros Hin. apply Ha. apply list_elem_of_fmap in Hin.
      destruct Hin as (c & Hc & Hin). apply list_elem_of_fmap. exists c.
      split; [exact Hc|]. exact (sublist_subseteq _ _ Hsub c Hin).
    - exists extra. split; [exact Hw|].
      eapply Forall_impl; [exact Hall|]. intros f Hf Heq. cbn in Hf.
      rewrite Heq in Hf. contradiction. }
  destruct Hstep as [a a' Hcore | res a Hres | res a | hash a].
  - apply Hgen; [apply writesToSubscribers_core|]; assumption.
  - unfold subscribe.
    destruct (cached_powerwall a) as [r|]; [destruct (broken res)|];
      cbn [sseClients wire with_connections]; (split;
      [ rewrite fmap_app, elem_of_app; cbn; rewrite list_elem_of_singleton;
        intros [H | H]; [contradiction | congruence]
      | ]).
    + exists []. split; [now rewrite app_nil_r | apply Forall_nil_2].
    + exists [(cid res, EvPowerwall r)]. split; [reflexivity|].
      apply Forall_cons_2; [exact Hres | apply Forall_nil_2].
    + exists []. split; [now rewrite app_nil_r | apply Forall_nil_2].
  - apply Hgen; [|exact Hout]. unfold unsubscribe.
    destruct (indexOf res (sseClients a)); [|apply writesToSubscribers_refl].
    split; [apply sublist_delete|]. exists [].
    split; [cbn; now rewrite app_nil_r | apply Forall_nil_2].
  - apply Hgen; [apply writesToSubscribers_broadcast | exact Hout].
Qed.

Lemma unsubscribe_cid_absent (res : Client) (s : Server) :
  NoDup (cid <$> sseClients s) -> res ∈ sseClients s ->
  cid res ∉ cid <$> sseClients (unsubscribe res s).
Proof.
  intros Hnd Hin. unfold unsubscribe.
  destruct (indexOf res (sseClients s)) as [i|] eqn:Hi.
  2:{ apply indexOf_None in Hi. contradiction. }
  apply indexOf_Some in Hi. destruct Hi as [Hi _]. cbn.
  rewrite delete_take_drop.
  rewrite <- (take_drop_middle _ i res Hi) in Hnd.
  rewrite fmap_app in Hnd. cbn in Hnd.
  apply NoDup_app in Hnd. destruct Hnd as (_ & Hdisj & Hnd2).
  apply NoDup_cons in Hnd2. destruct Hnd2 as [Hout _].
  rewrite fmap_app, elem_of_app. intros [H | H]; [|contradiction].
  apply (Hdisj _ H). apply list_elem_of_here.
Qed.

(** X9. Frames are written to subscribed connections only. Once a
    connection has closed (the subscriber identities being distinct), no
    handler writes to it again, whatever runs afterwards, for as long as
    no connection with its identity subscribes. *)
Theorem closed_connection_is_never_written (res : Client) (s s' : Server) :
  NoDup (cid <$> sseClients s) ->
  res ∈ sseClients s ->
  rtc (StepWithout (cid res)) (unsubscribe res s) s' ->
  (cid res ∉ cid <$> sseClients s') /\
  exists extra,
    wire s' = wire s ++ extra /\ Forall (fun f => f.1 <> cid res) extra.
Proof.
  intros Hnd Hin Hrun.
  assert (Hstart : cid res ∉ cid <$> sseClients (unsubscribe res s))
    by now apply unsubscribe_cid_absent.
  assert (Hwire : wire (unsubscribe res s) = wire s).
  { unfold unsubscribe. destruct (indexOf res (sseClients s)); reflexivity. }
  rewrite <- Hwire. clear Hwire Hnd Hin.
  induction Hrun as [a | a b c Hstep _ IH].
  - split; [exact Hstart|]. exists [].
    split; [now rewrite app_nil_r | apply Forall_nil_2].
  - destruct (stepWithout_quiet _ a b Hstep Hstart) as (Hb & x1 & Hw1 & Hf1).
    destruct (IH Hb) as (Hc & x2 & Hw2 & Hf2). split; [exact Hc|].
    exists (x1 ++ x2). split; [rewrite Hw2, Hw1; now rewrite app_assoc|].
    apply Forall_app. split; assumption.
Qed.

Lemma closed_connection_is_never_written_witness :
  exists extra,
    wire (ssePoll firstPoll
            (unsubscribe {| cid := 8; broken := false |}
               (serverWith [liveClient; {| cid := 8; broken := false |}])))
    = [] ++ extra /\
    Forall (fun f => f.1 <> 8%nat) extra.
Proof.
  refine (proj2 (closed_connection_is_never_written
           {| cid := 8; broken := false |}
           (serverWith [liveClient; {| cid := 8; broken := false |}]) _
           _ _ _)).
  - compute_done.
  - compute_done.
  - apply rtc_once, WithoutCore, StepTimer.
Defined.

(** ** Listing alerts (lines 400-403) *)

Lemma sliceFrom_negative {A : Type} (n : Z) (l : list A) :
  0 < n -> sliceFrom (- n) l = sliceLast (Z.to_nat n) l.
Proof.
  intros Hn. unfold sliceFrom, sliceLast.
  destruct (Z.ltb_spec (- n) 0); [|lia]. f_equal. lia.
Qed.

Lemma sliceFrom_positive {A : Type} (k : Z) (l : list A) :
  0 <= k -> sliceFrom k l = drop (Z.to_nat k) l.
Proof.
  intros Hk. unfold sliceFrom. destruct (Z.ltb_spec k 0); [lia|].
  destruct (Z.min_spec k (Z.of_nat (length l))) as [[_ ->] | [Hge ->]];
    [reflexivity|].
  rewrite Nat2Z.id. rewrite !drop_ge by lia. reflexivity.
Qed.

Lemma alertsLimit_nonzero (parsed : option Z) : alertsLimit parsed <> 0.
Proof.
  unfold alertsLimit. destruct parsed as [n|]; [|lia].
  destruct (Z.eqb_spec n 0); lia.
Qed.

(** X10. The alert listing answers newest first. With a positive limit
    it holds the newest [limit] alerts (all of them when there are fewer);
    a limit that is missing, unreadable or 0 counts as 20; a negative
    limit -k does not fail: it leaves out the k oldest alerts and lists the
    rest. On the alert list of a running server any limit of 6 or more,
    the default included, lists every alert. *)
Theorem getAlerts_newest_first (parsed : option Z) (s : Server) :
  let n := alertsLimit parsed in
  (parsed = None \/ parsed = Some 0 -> n = 20) /\
  (0 < n ->
   getAlerts parsed s = take (Z.to_nat n) (reverse (alerts s)) /\
   head (getAlerts parsed s) = last (alerts s) /\
   length (getAlerts parsed s) = Nat.min (Z.to_nat n) (length (alerts s))) /\
  (n < 0 ->
   getAlerts parsed s = reverse (drop (Z.to_nat (- n)) (alerts s))) /\
  (alertsInv (alerts s) -> 6 <= n ->
   getAlerts parsed s = reverse (alerts s)).
Proof.
  cbv zeta. split; [|split; [|split]].
  - intros [-> | ->]; reflexivity.
  - intros Hn. unfold getAlerts. rewrite (sliceFrom_negative _ _ Hn).
    unfold sliceLast. rewrite <- take_reverse. split; [reflexivity|].
    split.
    + destruct (Z.to_nat (alertsLimit parsed)) as [|m] eqn:Hm; [lia|].
      rewrite <- head_reverse. destruct (reverse (alerts s)); reflexivity.
    + rewrite length_take, length_reverse. reflexivity.
  - intros Hn. unfold getAlerts. rewrite sliceFrom_positive by lia.
    reflexivity.
  - intros Hinv Hn. unfold getAlerts. rewrite sliceFrom_negative by lia.
    rewrite sliceLast_short; [reflexivity|].
    pose proof (alertsInv_length _ Hinv). lia.
Qed.

Lemma getAlerts_newest_first_witness :
  getAlerts (Some 1)
    (checkAlerts 1000 lowBatteryReading None (serverWith [liveClient]))
  = take 1 (reverse (alerts
      (checkAlerts 1000 lowBatteryReading None (serverWith [liveClient])))).
Proof.
  apply (proj1 (proj1 (proj2 (getAlerts_newest_first (Some 1)
    (checkAlerts 1000 lowBatteryReading None (serverWith [liveClient]))))
    ltac:(reflexivity))).
Defined.

(** ** The analytics list and its route (lines 360-370, 437-445) *)

Lemma analyticsLimit_cases (range : option string) :
  (analyticsLimit range = 168 /\ range = Some "7d") \/
  (analyticsLimit range = 720 /\ range = Some "30d") \/
  (analyticsLimit range = 24 /\ range <> Some "7d" /\ range <> Some "30d").
Proof.
  unfold analyticsLimit, orString. destruct range as [v|].
  - destruct (decide (v = "")) as [-> | Hne].
    + right. right. cbn. repeat split; discriminate.
    + destruct (decide (v = "7d")) as [-> | H7]; [now left|].
      destruct (decide (v = "30d")) as [-> | H30]; [right; now left|].
      right. right. repeat split; congruence.
  - right. right. cbn. repeat split; discriminate.
Qed.

Lemma analytics_step (s s' : Server) :
  HandlerStep s s' ->
  analytics s' = analytics s \/
  exists entry, analytics s' = sliceLast 720 (analytics s ++ [entry]).
Proof.
  intros Hstep. destruct Hstep as [a a' Hcore | res a | res a | hash a];
    [destruct Hcore as [e a | e a | now a | id a]| | |]; rename a into s.
  - left. rewrite ssePoll_publish. destruct (sseClients s); [reflexivity|].
    destruct (fetchPowerwallData e (daily_baselines s)) as [tbl [data|]];
      [|reflexivity].
    pose proof (publish_fields e data (lastUpdate_powerwall s) tbl s) as H.
    cbv zeta in H. tauto.
  - left. rewrite getPowerwall_publish.
    destruct (freshCache (clockRequest e) s); [reflexivity|].
    destruct (fetchPowerwallData e (daily_baselines s)) as [tbl [data|]];
      [|reflexivity].
    pose proof (publish_fields e data (Some (clockRequest e)) tbl s) as H.
    cbv zeta in H. cbn [fst]. tauto.
  - unfold hourlyTick.
    destruct (calculateHourlyAnalytics now (history s)) as [entry|];
      [|now left].
    right. exists entry.
    now rewrite (proj1 (proj2 (proj2 (broadcastUpdate_frame _ _)))).
  - now left.
  - left. unfold subscribe.
    destruct (cached_powerwall s); [destruct (broken res)|]; reflexivity.
  - left. unfold unsubscribe.
    destruct (indexOf res (sseClients s)); reflexivity.
  - left. exact (proj1 (proj2 (proj2 (broadcastUpdate_frame _ s)))).
Qed.

(** X11. The analytics list never holds more than 720 entries once it
    holds that few: every handler keeps the bound, and an hourly roll-up
    that produces an entry puts it last. The analytics route answers with
    the newest 24, 168 ('7d') or 720 ('30d') entries, oldest first, any
    other range counting as 24 hours; within the bound '30d' is the whole
    list. *)
Theorem analytics_bounded_and_listed (range : option string) (s : Server) :
  (forall s', (length (analytics s) <= 720)%nat -> rtc HandlerStep s s' ->
     (length (analytics s') <= 720)%nat) /\
  (forall now entry, calculateHourlyAnalytics now (history s) = Some entry ->
     last (analytics (hourlyTick now s)) = Some entry /\
     (length (analytics (hourlyTick now s)) <= 720)%nat) /\
  getAnalytics range s `suffix_of` analytics s /\
  length (getAnalytics range s) =
    Nat.min (Z.to_nat (analyticsLimit range)) (length (analytics s)) /\
  last (getAnalytics range s) = last (analytics s) /\
  (range <> Some "7d" -> range <> Some "30d" -> analyticsLimit range = 24) /\
  ((length (analytics s) <= 720)%nat ->
   getAnalytics (Some "30d") s = analytics s).
Proof.
  assert (Hpos : 0 < analyticsLimit range).
  { destruct (analyticsLimit_cases range) as [[-> _] | [[-> _] | [-> _]]]; lia. }
  split; [|split; [|split; [|split; [|split; [|split]]]]].
  - intros s' Hlen Hrun. induction Hrun as [|a b c Hstep _ IH]; [exact Hlen|].
    apply IH. destruct (analytics_step a b Hstep) as [-> | [entry ->]];
      [exact Hlen | apply length_sliceLast].
  - intros now entry He. unfold hourlyTick. rewrite He.
    rewrite (proj1 (proj2 (proj2 (broadcastUpdate_frame _ _)))).
    cbn [analytics saveJSON with_analytics]. split; [|apply length_sliceLast].
    unfold sliceLast. rewrite length_app. cbn [length].
    rewrite drop_app_le by lia. apply last_snoc.
  - unfold getAnalytics, sliceFrom. apply suffix_drop.
  - unfold getAnalytics. rewrite (sliceFrom_negative _ _ Hpos).
    unfold sliceLast. rewrite length_drop. lia.
  - unfold getAnalytics. rewrite (sliceFrom_negative _ _ Hpos).
    unfold sliceLast. destruct (analytics s) as [|x l] eqn:Hl using rev_ind;
      [reflexivity|].
    rewrite length_app. cbn [length].
    rewrite drop_app_le by lia. now rewrite !last_snoc.
  - intros H7 H30.
    destruct (analyticsLimit_cases range) as [[_ E] | [[_ E] | [E _]]];
      [contradiction | contradiction | exact E].
  - intros Hlen. unfold getAnalytics.
    change (analyticsLimit (Some "30d")) with 720.
    rewrite sliceFrom_negative by lia. apply sliceLast_short. lia.
Qed.

Lemma analytics_bounded_and_listed_witness :
  (length (analytics (hourlyTick 4000000
             (with_history threeSamples (serverWith [liveClient])))) <= 720)%nat.
Proof.
  apply (proj1 (analytics_bounded_and_listed None
                  (with_history threeSamples (serverWith [liveClient])))).
  - cbn. lia.
  - apply rtc_once, HandlerCore, StepHourly.
Defined.

(** ** The analytics summary (lines 450-471) *)

Example toFixed2_figures :
  toFixed2 (1234 # 1000) = KwhFixed "1.23" /\
  toFixed2 (5 # 100) = KwhFixed "0.05" /\
  toFixed2 (1995 # 1000) = KwhFixed "2.00" /\
  toFixed2 0 = KwhFixed "0.00".
Proof. vm_compute. repeat split. Qed.

(** One sample of 54000 W: its energy term is the double below 0.015, and
    the summary prints the total as "0.01". *)
Example summary_total_54000W :
  let sample := {| h_timestamp := 0; h_grid := 0; h_battery := 0;
                   h_solar := 54000; h_load := 0; h_soe := 0 |} in
  toFixed2 (fadd 0 (energyTotal h_solar [sample])) = KwhFixed "0.01" /\
  (energyTotal h_solar [sample] < 15 # 1000)%Q.
Proof. vm_compute. split; reflexivity. Qed.

Lemma jsRound_le (x y : Q) : (x <= y)%Q -> jsRound x <= jsRound y.
Proof.
  intros H. unfold jsRound. apply Qfloor_resp_le. lra.
Qed.

Lemma sumQ_bounds {A : Type} (f : A -> Z) (l : list A) (lo hi : Z) :
  (forall h, h ∈ l -> lo <= f h <= hi) ->
  (inject_Z lo * inject_Z (Z.of_nat (length l))
   <= sumQ ((fun h => inject_Z (f h)) <$> l))%Q /\
  (sumQ ((fun h => inject_Z (f h)) <$> l)
   <= inject_Z hi * inject_Z (Z.of_nat (length l)))%Q.
Proof.
  induction l as [|h l IH]; intros Hb.
  - change (inject_Z (Z.of_nat (length (@nil A)))) with 0%Q.
    change (sumQ ((fun h => inject_Z (f h)) <$> [])) with 0%Q.
    split; lra.
  - assert (Hh : lo <= f h <= hi) by (apply Hb, list_elem_of_here).
    destruct IH as [IH1 IH2].
    { intros x Hx. apply Hb, list_elem_of_further, Hx. }
    change (sumQ ((fun h0 => inject_Z (f h0)) <$> h :: l))
      with (inject_Z (f h) + sumQ ((fun h0 => inject_Z (f h0)) <$> l))%Q.
    cbn [length]. rewrite Nat2Z.inj_succ, <- Z.add_1_r, inject_Z_plus.
    change (inject_Z 1) with 1%Q.
    assert (H1 : (inject_Z lo <= inject_Z (f h))%Q)
      by (rewrite <- Zle_Qle; lia).
    assert (H2 : (inject_Z (f h) <= inject_Z hi)%Q)
      by (rewrite <- Zle_Qle; lia).
    split; lra.
Qed.

(** A rounded mean of integers lies between the smallest and the largest
    of them. *)
Lemma meanOf_bounds (f : AnalyticsEntry -> Z) (l : list AnalyticsEntry)
    (lo hi : Z) :
  l <> [] ->
  (forall h, h ∈ l -> lo <= f h <= hi) ->
  lo <= meanOf f l <= hi.
Proof.
  intros Hne Hb. unfold meanOf.
  set (n := inject_Z (Z.of_nat (length l))).
  assert (Hn : (0 < n)%Q).
  { subst n. change 0%Q with (inject_Z 0). rewrite <- Zlt_Qlt.
    destruct l; [contradiction | cbn [length]; lia]. }
  assert (Hsum : (foldl (fun sum h => sum + inject_Z (f h)) 0 l
                  == sumQ ((fun h => inject_Z (f h)) <$> l))%Q).
  { rewrite (foldl_plus_sumQ (fun h => inject_Z (f h)) l 0%Q).
    apply Qplus_0_l. }
  rewrite (jsRound_comp _
    (sumQ ((fun h => inject_Z (f h)) <$> l) / n)) by now rewrite Hsum.
  destruct (sumQ_bounds f l lo hi Hb) as [H1 H2]. fold n in H1, H2.
  split.
  - apply Z.le_trans with (jsRound (inject_Z lo));
      [rewrite jsRound_inject_Z; lia|].
    apply jsRound_le. now apply Qle_shift_div_l.
  - apply Z.le_trans with (jsRound (inject_Z hi));
      [|rewrite jsRound_inject_Z; lia].
    apply jsRound_le. now apply Qle_shift_div_r.
Qed.

Lemma maxOf_window (f : AnalyticsEntry -> Z) (h0 : AnalyticsEntry)
    (hs : list AnalyticsEntry) :
  (forall h, h ∈ h0 :: hs -> f h <= maxOf (f h0) (f <$> hs)) /\
  exists h, h ∈ h0 :: hs /\ f h = maxOf (f h0) (f <$> hs).
Proof.
  unfold maxOf.
  destruct (foldl_Zmax_spec (f <$> hs) (f h0)) as (H1 & H2 & H3). split.
  - intros h Hh. apply elem_of_cons in Hh. destruct Hh as [-> | Hh];
      [exact H1|].
    apply H2, list_elem_of_fmap. eauto.
  - destruct H3 as [-> | H3].
    + exists h0. split; [apply list_elem_of_here | reflexivity].
    + apply list_elem_of_fmap in H3. destruct H3 as (h & Heq & Hh).
      exists h. split; [apply list_elem_of_further, Hh | now symmetry].
Qed.

(** X12. The analytics summary answers with the no-data error exactly
    when there is no analytics entry, so it never divides by zero.
    Otherwise, over the newest 24 entries (fewer when there are fewer):
    the peak load and peak solar are the largest hourly maxima, each
    attained by an entry; each average lies between the smallest and the
    largest hourly average; and the trend is "surplus" exactly when the
    solar average exceeds the load average, "deficit" otherwise. *)
Theorem analytics_summary_spec (s : Server) :
  (getAnalyticsSummary s = None <-> analytics s = []) /\
  forall sm : Summary,
    getAnalyticsSummary s = Some sm ->
    let last24h := sliceFrom (-24) (analytics s) in
    last24h <> [] /\ (length last24h <= 24)%nat /\
    last24h `suffix_of` analytics s /\
    (forall h, h ∈ last24h -> load_max h <= peakLoad sm) /\
    (exists h, h ∈ last24h /\ load_max h = peakLoad sm) /\
    (forall h, h ∈ last24h -> solar_max h <= peakSolar sm) /\
    (exists h, h ∈ last24h /\ solar_max h = peakSolar sm) /\
    (forall lo hi, (forall h, h ∈ last24h -> lo <= grid_avg h <= hi) ->
       lo <= summary_grid_avg sm <= hi) /\
    (forall lo hi, (forall h, h ∈ last24h -> lo <= solar_avg h <= hi) ->
       lo <= summary_solar_avg sm <= hi) /\
    (forall lo hi, (forall h, h ∈ last24h -> lo <= load_avg h <= hi) ->
       lo <= summary_load_avg sm <= hi) /\
    (trend sm = "surplus" <-> summary_load_avg sm < summary_solar_avg sm) /\
    (trend sm = "deficit" <-> summary_solar_avg sm <= summary_load_avg sm).
Proof.
  assert (Hlast : analytics s <> [] -> sliceFrom (-24) (analytics s) <> []).
  { intros Hne Hnil.
    assert (Hlen : length (sliceFrom (-24) (analytics s)) = 0%nat)
      by now rewrite Hnil.
    change (-24) with (- (24)) in Hlen.
    rewrite sliceFrom_negative in Hlen by lia.
    unfold sliceLast in Hlen. rewrite length_drop in Hlen.
    destruct (analytics s); [contradiction | cbn [length] in Hlen; lia]. }
  split.
  - unfold getAnalyticsSummary. destruct (analytics s) as [|a l] eqn:Ha.
    + tauto.
    + split; [|discriminate]. intros H. exfalso.
      apply Hlast; [discriminate|].
      destruct (sliceFrom (-24) (a :: l)); [reflexivity | discriminate].
  - intros sm Hsm last24h. unfold getAnalyticsSummary in Hsm.
    assert (Hlen : (length last24h <= 24)%nat).
    { subst last24h. change (-24) with (- (24)).
      rewrite sliceFrom_negative by lia. apply length_sliceLast. }
    assert (Hsuf : last24h `suffix_of` analytics s)
      by (subst last24h; unfold sliceFrom; apply suffix_drop).
    assert (Hbody : match last24h with
                    | [] => None
                    | h0 :: hs =>
                        Some {| summary_grid_avg := meanOf grid_avg last24h;
                                summary_solar_avg := meanOf solar_avg last24h;
                                summary_solar_total :=
                                  toFixed2 (totalOf solar_total last24h);
                                summary_load_avg := meanOf load_avg last24h;
                                summary_load_total :=
                                  toFixed2 (totalOf load_total last24h);
                                trend := if meanOf load_avg last24h
                                            <? meanOf solar_avg last24h
                                         then "surplus" else "deficit";
                                peakLoad := maxOf (load_max h0) (load_max <$> hs);
                                peakSolar := maxOf (solar_max h0) (solar_max <$> hs) |}
                    end = Some sm).
    { destruct (analytics s); [discriminate | exact Hsm]. }
    clear Hsm. revert Hlen Hsuf Hbody. generalize last24h.
    intros w Hlen Hsuf Hbody.
    destruct w as [|h0 hs]; [discriminate|].
    injection Hbody as <-. cbn [peakLoad peakSolar summary_grid_avg
      summary_solar_avg summary_load_avg trend].
    destruct (maxOf_window load_max h0 hs) as [HL1 HL2].
    destruct (maxOf_window solar_max h0 hs) as [HS1 HS2].
    split; [discriminate|]. split; [exact Hlen|]. split; [exact Hsuf|].
    split; [exact HL1|]. split; [exact HL2|].
    split; [exact HS1|]. split; [exact HS2|].
    split; [intros lo hi; now apply meanOf_bounds|].
    split; [intros lo hi; now apply meanOf_bounds|].
    split; [intros lo hi; now apply meanOf_bounds|].
    destruct (Z.ltb_spec (meanOf load_avg (h0 :: hs))
                (meanOf solar_avg (h0 :: hs))); split; split;
      try reflexivity; try discriminate; intros; lia.
Qed.

Lemma analytics_summary_spec_witness :
  sliceFrom (-24) (analytics rolledUp) <> [].
Proof.
  destruct (getAnalyticsSummary rolledUp) as [sm|] eqn:Hsm.
  - exact (proj1 (proj2 (analytics_summary_spec rolledUp) sm Hsm)).
  - vm_compute in Hsm. discriminate.
Defined.

(** ** History retention and the history route (lines 537-548, 1230-1231) *)

Lemma historyCutoff_cases (range : option string) (now : Z) :
  historyCutoff range now = now - 604800000 \/
  historyCutoff range now = now - 2592000000 \/
  historyCutoff range now = now - 86400000.
Proof.
  unfold historyCutoff.
  destruct (decide (orString range "24h" = "7d")); [now left|].
  destruct (decide (orString range "24h" = "30d")); [right; now left|].
  right. now right.
Qed.

Lemma filter_all {A : Type} (P : A -> Prop) `{!forall x, Decision (P x)}
    (l : list A) :
  (forall x, x ∈ l -> P x) -> filter P l = l.
Proof.
  induction l as [|x l IH]; intros Hall; [reflexivity|].
  rewrite filter_cons_True by (apply Hall, list_elem_of_here).
  f_equal. apply IH. intros y Hy. apply Hall, list_elem_of_further, Hy.
Qed.

Lemma filter_weaken_sublist {A : Type} (P Q : A -> Prop)
    `{!forall x, Decision (P x)} `{!forall x, Decision (Q x)} (l : list A) :
  (forall x, P x -> Q x) -> filter P l `sublist_of` filter Q l.
Proof.
  intros Himp. induction l as [|x l IH]; [reflexivity|].
  rewrite !filter_cons. destruct (decide (P x)) as [HP | HnP].
  - rewrite decide_True by now apply Himp. now apply sublist_skip.
  - destruct (decide (Q x)); [now apply sublist_cons | exact IH].
Qed.

(** X13. After a poll has stored its reading at clock time t, the history
    holds only points stamped after t - 24 h, in the order they were
    recorded. So the history route, asked at any time up to t, answers
    with the whole history whatever the range, and the '7d' and '30d'
    ranges have nothing older to add: asked up to six days after t, '7d'
    is the whole history too. In any state a longer range lists at least
    the points of a shorter one, and only points of the history newer
    than its cutoff. *)
Theorem history_retention (e : Env) (data : Reading) (stamp : option Z)
    (tbl : Baselines) (s : Server) (range : option string) (now : Z) :
  let s' := publish e data stamp tbl s in
  (forall h, h ∈ history s' -> clockStored e - 86400000 < h_timestamp h) /\
  history s' `sublist_of` history s ++ [historyPointOf data] /\
  (now <= clockStored e -> getAdminHistory range now s' = history s') /\
  (now <= clockStored e + 518400000 ->
   getAdminHistory (Some "7d") now s' = history s') /\
  (forall h, h ∈ getAdminHistory range now s <->
     h ∈ history s /\ historyCutoff range now < h_timestamp h) /\
  getAdminHistory None now s `sublist_of` getAdminHistory (Some "7d") now s /\
  getAdminHistory (Some "7d") now s `sublist_of`
    getAdminHistory (Some "30d") now s.
Proof.
  cbv zeta.
  assert (Hh : history (publish e data stamp tbl s) =
               filter (fun h => clockStored e - 86400000 < h_timestamp h)
                 (history s ++ [historyPointOf data])).
  { pose proof (publish_fields e data stamp tbl s) as H. cbv zeta in H.
    destruct H as (_ & _ & _ & _ & H & _). exact H. }
  assert (Hnew : forall h, h ∈ history (publish e data stamp tbl s) ->
                           clockStored e - 86400000 < h_timestamp h).
  { intros h Hin. rewrite Hh in Hin. apply list_elem_of_filter in Hin. tauto. }
  split; [exact Hnew|]. split; [rewrite Hh; apply sublist_filter|].
  split; [|split; [|split; [|split]]].
  - intros Hnow. unfold getAdminHistory. apply filter_all.
    intros h Hin. specialize (Hnew h Hin).
    destruct (historyCutoff_cases range now) as [-> | [-> | ->]]; lia.
  - intros Hnow. unfold getAdminHistory. apply filter_all.
    intros h Hin. specialize (Hnew h Hin).
    change (historyCutoff (Some "7d") now) with (now - 604800000). lia.
  - intros h. unfold getAdminHistory. rewrite list_elem_of_filter. tauto.
  - unfold getAdminHistory. apply filter_weaken_sublist. intros h.
    change (historyCutoff None now) with (now - 86400000).
    change (historyCutoff (Some "7d") now) with (now - 604800000). lia.
  - unfold getAdminHistory. apply filter_weaken_sublist. intros h.
    change (historyCutoff (Some "30d") now) with (now - 2592000000).
    change (historyCutoff (Some "7d") now) with (now - 604800000). lia.
Qed.

Lemma history_retention_witness :
  getAdminHistory (Some "30d") 1000
    (publish firstPoll firstReading None ∅ (serverWith [liveClient]))
  = history (publish firstPoll firstReading None ∅ (serverWith [liveClient])).
Proof.
  apply (proj1 (proj2 (proj2 (history_retention firstPoll firstReading None ∅
           (serverWith [liveClient]) (Some "30d") 1000)))).
  cbn. lia.
Defined.

(** ** What survives a restart (lines 117-148) *)

Lemma mirrored_ext (s s' : Server) :
  files s' = files s -> alerts s' = alerts s -> history s' = history s ->
  analytics s' = analytics s -> mirrored s -> mirrored s'.
Proof. unfold mirrored. intros -> -> -> ->. tauto. Qed.

Lemma mirrored_broadcast (data : Event) (s : Server) :
  mirrored s -> mirrored (broadcastUpdate data s).
Proof.
  pose proof (broadcastUpdate_frame data s) as H. cbv zeta in H.
  apply mirrored_ext; tauto.
Qed.

Lemma mirrored_checkAlerts (now : Z) (p : Reading) (t : option Z) (s : Server) :
  mirrored s -> mirrored (checkAlerts now p t s).
Proof.
  intros (_ & Hh & Han). unfold checkAlerts.
  pose proof (foldl_raiseAlert_frame
                (newAlerts now (settings_alerts s) p t) s) as H.
  cbv zeta in H. destruct H as (_ & Hf & Hfh & Hfa & _).
  unfold mirrored, loadJSON.
  cbn [files alerts history analytics saveJSON with_alerts].
  rewrite Hf, Hfh, Hfa, lookup_insert_eq.
  rewrite !lookup_insert_ne by discriminate. cbn. tauto.
Qed.

Lemma mirrored_publish (e : Env) (data : Reading) (stamp : option Z)
    (tbl : Baselines) (s : Server) :
  mirrored s -> mirrored (publish e data stamp tbl s).
Proof.
  intros (Ha & _ & Han). unfold publish.
  apply mirrored_broadcast, mirrored_checkAlerts.
  unfold insertSample, appendHistory, mirrored, loadJSON.
  destruct (sampleWrite e);
    cbn [files alerts history analytics saveJSON with_history with_samples
         with_cache with_baselines];
    rewrite lookup_insert_eq; rewrite !lookup_insert_ne by discriminate;
    cbn; tauto.
Qed.

Lemma mirrored_step (s s' : Server) :
  HandlerStep s s' -> mirrored s -> mirrored s'.
Proof.
  intros Hstep. destruct Hstep as [a a' Hcore | res a | res a | hash a];
    [destruct Hcore as [e a | e a | now a | id a]| | |]; intros Hm;
    rename a into s.
  - rewrite ssePoll_publish. destruct (sseClients s); [exact Hm|].
    destruct (fetchPowerwallData e (daily_baselines s)) as [tbl [data|]].
    + now apply mirrored_publish.
    + revert Hm. apply mirrored_ext; reflexivity.
  - rewrite getPowerwall_publish.
    destruct (freshCache (clockRequest e) s); [exact Hm|].
    destruct (fetchPowerwallData e (daily_baselines s)) as [tbl [data|]];
      cbn [fst].
    + now apply mirrored_publish.
    + revert Hm. apply mirrored_ext; reflexivity.
  - unfold hourlyTick.
    destruct (calculateHourlyAnalytics now (history s)); [|exact Hm].
    apply mirrored_broadcast. destruct Hm as (Ha & Hh & _).
    unfold mirrored, loadJSON.
    cbn [files alerts history analytics saveJSON with_analytics].
    rewrite lookup_insert_eq. rewrite !lookup_insert_ne by discriminate.
    cbn. tauto.
  - destruct Hm as (_ & Hh & Han). unfold clearAlert, mirrored, loadJSON.
    cbn [files alerts history analytics saveJSON with_alerts].
    rewrite lookup_insert_eq. rewrite !lookup_insert_ne by discriminate.
    cbn. tauto.
  - revert Hm. unfold subscribe.
    destruct (cached_powerwall s); [destruct (broken res)|];
      apply mirrored_ext; reflexivity.
  - revert Hm. unfold unsubscribe.
    destruct (indexOf res (sseClients s)); [|tauto].
    apply mirrored_ext; reflexivity.
  - now apply mirrored_broadcast.
Qed.

(** After [saveJSON file doc] the file holds [doc]. *)
Lemma files_saveJSON (file : string) (doc : Json) (s : Server) :
  files (saveJSON file doc s) !! file = Some doc.
Proof. cbn. apply lookup_insert_eq. Qed.

Lemma alertsMirrored_checkAlerts (now : Z) (p : Reading) (t : option Z)
    (s : Server) :
  alertsMirrored (checkAlerts now p t s).
Proof.
  unfold alertsMirrored, checkAlerts, loadJSON. now rewrite files_saveJSON.
Qed.

Lemma historyMirrored_appendHistory (e : Env) (data : Reading) (s : Server) :
  historyMirrored (appendHistory e data s).
Proof.
  unfold historyMirrored, appendHistory, loadJSON. now rewrite files_saveJSON.
Qed.

(** What a poll that publishes leaves: the history and the alert list are
    both what their files hold. *)
Lemma publish_mirrors (e : Env) (data : Reading) (stamp : option Z)
    (tbl : Baselines) (s : Server) :
  historyMirrored (publish e data stamp tbl s) /\
  alertsMirrored (publish e data stamp tbl s).
Proof.
  unfold publish.
  set (s2 := appendHistory e data _).
  set (s3 := insertSample e data s2).
  assert (H3 : historyMirrored s3).
  { pose proof (historyMirrored_appendHistory e data
                  (with_cache (Some data) stamp (with_baselines tbl s))) as H.
    fold s2 in H. subst s3. unfold insertSample.
    destruct (sampleWrite e); exact H. }
  set (s4 := checkAlerts (clockStored e) data (cached_temps s3) s3).
  pose proof (alertsMirrored_checkAlerts (clockStored e) data (cached_temps s3) s3)
    as H4a. fold s4 in H4a.
  assert (H4h : historyMirrored s4).
  { subst s4. unfold checkAlerts.
    pose proof (foldl_raiseAlert_frame
                  (newAlerts (clockStored e) (settings_alerts s3) data
                     (cached_temps s3)) s3) as H.
    cbv zeta in H. destruct H as (_ & Hf & Hfh & _).
    unfold historyMirrored, loadJSON in *.
    cbn [files history saveJSON with_alerts].
    rewrite lookup_insert_ne by discriminate. now rewrite Hf, Hfh. }
  pose proof (broadcastUpdate_frame (EvPowerwall data) s4) as H.
  cbv zeta in H. destruct H as (Ha & Hh & _ & _ & _ & _ & _ & _ & _ & Hf).
  unfold historyMirrored, alertsMirrored in *. now rewrite Hf, Ha, Hh.
Qed.

(** X14. A snapshot write that returns leaves its file equal to its list,
    whatever state the handler started in, one where an earlier write had
    failed included. After a poll that published (timer or route), the
    history file holds the history and the alert file the alerts; after an
    hourly roll-up that stored an entry, the analytics file holds the
    analytics list; after an alert was cleared, the alert file holds the
    alerts. A handler whose writes return changes none of the three lists
    without rewriting its file: lists that matched their files before
    match them after. A process restarted on matching files comes back
    with the same alerts, history and analytics (and, from the database,
    the same baselines and samples); a restart always loses the
    subscribers and the cached reading. *)
Theorem completed_snapshot_matches_list (s : Server) :
  (forall (e : Env) (data : Reading),
     sseClients s <> [] ->
     (fetchPowerwallData e (daily_baselines s)).2 = Some data ->
     historyMirrored (ssePoll e s) /\ alertsMirrored (ssePoll e s)) /\
  (forall (e : Env) (data : Reading),
     freshCache (clockRequest e) s = None ->
     (fetchPowerwallData e (daily_baselines s)).2 = Some data ->
     historyMirrored (getPowerwall e s).1 /\ alertsMirrored (getPowerwall e s).1) /\
  (forall (now : Z) (entry : AnalyticsEntry),
     calculateHourlyAnalytics now (history s) = Some entry ->
     analyticsMirrored (hourlyTick now s)) /\
  (forall id : string, alertsMirrored (clearAlert id s)) /\
  (forall s' : Server, HandlerStep s s' -> mirrored s -> mirrored s') /\
  (mirrored s ->
   alerts (restart s) = alerts s /\
   history (restart s) = history s /\
   analytics (restart s) = analytics s) /\
  daily_baselines (restart s) = daily_baselines s /\
  power_samples (restart s) = power_samples s /\
  sseClients (restart s) = [] /\
  cached_powerwall (restart s) = None /\
  restart (restart s) = restart s.
Proof.
  split; [|split; [|split; [|split; [|split; [|split]]]]].
  - intros e data Hne Hf. rewrite ssePoll_publish.
    destruct (sseClients s); [contradiction|].
    destruct (fetchPowerwallData e (daily_baselines s)) as [tbl fetched].
    cbn in Hf. subst fetched. apply publish_mirrors.
  - intros e data Hstale Hf. rewrite getPowerwall_publish. rewrite Hstale.
    destruct (fetchPowerwallData e (daily_baselines s)) as [tbl fetched].
    cbn in Hf. subst fetched. cbn [fst]. apply publish_mirrors.
  - intros now entry He. unfold hourlyTick. rewrite He.
    match goal with
    | |- analyticsMirrored (broadcastUpdate ?ev ?st) =>
        pose proof (broadcastUpdate_frame ev st) as H
    end.
    cbv zeta in H. destruct H as (_ & _ & Han & _ & _ & _ & _ & _ & _ & Hf).
    unfold analyticsMirrored, loadJSON. rewrite Hf, Han.
    now rewrite files_saveJSON.
  - intros id. unfold alertsMirrored, clearAlert, loadJSON.
    now rewrite files_saveJSON.
  - intros s' Hstep. now apply mirrored_step.
  - intros (Ha & Hh & Han). unfold restart, boot. cbn. repeat split; assumption.
  - unfold restart, boot. cbn. repeat split.
Qed.

Lemma completed_snapshot_matches_list_witness :
  ~ historyMirrored unsavedHistory /\
  historyMirrored (ssePoll firstPoll unsavedHistory) /\
  mirrored (subscribe liveClient (boot ∅ ∅ [] (settings_alerts (serverWith [])))).
Proof.
  split; [|split].
  - intros H. vm_compute in H. discriminate H.
  - refine (proj1 (proj1 (completed_snapshot_matches_list unsavedHistory)
                     firstPoll firstReading _ _)).
    + discriminate.
    + vm_compute. reflexivity.
  - refine (proj1 (proj2 (proj2 (proj2 (proj2
              (completed_snapshot_matches_list
                 (boot ∅ ∅ [] (settings_alerts (serverWith [])))))))) _ _ _).
    + apply HandlerSubscribe.
    + repeat split.
Defined.

(** ** Administrative timers (lines 503-525) *)

Lemma N_to_uint_nonnil (n : N) : N.to_uint n <> Decimal.Nil.
Proof.
  destruct n as [|p]; [discriminate|]. apply DecimalPos.Unsigned.to_uint_nonnil.
Qed.

Lemma decimalDigits_parse (n : Z) :
  NilZero.uint_of_string (decimalDigits n) = Some (N.to_uint (Z.to_N n)).
Proof. unfold decimalDigits. apply NilZero.usu, N_to_uint_nonnil. Qed.

Lemma decimalDigits_inj (a b : Z) :
  0 <= a -> 0 <= b -> decimalDigits a = decimalDigits b -> a = b.
Proof.
  intros Ha Hb H.
  assert (Hu : Some (N.to_uint (Z.to_N a)) = Some (N.to_uint (Z.to_N b))).
  { rewrite <- !decimalDigits_parse. now rewrite H. }
  injection Hu as Hu. apply DecimalN.Unsigned.to_uint_inj in Hu. lia.
Qed.

Lemma minus_not_digits (text : string) (n : Z) :
  ("-" +:+ text)%string <> decimalDigits n.
Proof.
  intros H.
  assert (Hp : NilZero.uint_of_string ("-" +:+ text) =
               Some (N.to_uint (Z.to_N n))).
  { rewrite H. apply decimalDigits_parse. }
  unfold NilZero.uint_of_string, String.app in Hp.
  cbn [NilEmpty.uint_of_string] in Hp. destruct (NilEmpty.uint_of_string text); discriminate.
Qed.

(** Different integers print differently. *)
Lemma jsIntToString_inj (a b : Z) :
  jsIntToString a = jsIntToString b -> a = b.
Proof.
  unfold jsIntToString.
  destruct (Z.ltb_spec a 0) as [Ha|Ha], (Z.ltb_spec b 0) as [Hb|Hb]; intros H.
  - unfold String.app in H. injection H as H.
    apply decimalDigits_inj in H; lia.
  - exfalso. exact (minus_not_digits _ _ H).
  - exfalso. symmetry in H. exact (minus_not_digits _ _ H).
  - now apply decimalDigits_inj.
Qed.

(** X15. Creating a timer and deleting it by the identifier it was given
    restores the timer list, provided no earlier timer carries that
    identifier; identifiers are the creation clock in decimal, so timers
    created at different milliseconds never share one. Deleting removes
    every timer with the identifier (two created in the same millisecond
    go together) and nothing else, and each operation leaves the timers
    file equal to the list. A missing or empty name becomes "Timer", a
    missing or empty colour "#4caf50". *)
Theorem timer_create_delete (idClock createdClock : Z) (body : TimerBody)
    (st : TimerStore) (id : string) :
  let created := postTimer idClock createdClock body st in
  ((forall t, t ∈ timers st -> timer_id t <> jsIntToString idClock) ->
   timers (deleteTimer (timer_id created.2) created.1) = timers st) /\
  (forall otherClock c b st',
     timer_id (postTimer otherClock c b st').2 = timer_id created.2 ->
     otherClock = idClock) /\
  (forall t, t ∈ timers (deleteTimer id st) <-> t ∈ timers st /\ timer_id t <> id) /\
  timers (deleteTimer id st) `sublist_of` timers st /\
  timersFile created.1 = Some (timers created.1) /\
  timersFile (deleteTimer id st) = Some (timers (deleteTimer id st)) /\
  last (timers created.1) = Some created.2 /\
  (body_name body = None \/ body_name body = Some "" ->
   timer_name created.2 = "Timer") /\
  (body_color body = None \/ body_color body = Some "" ->
   timer_color created.2 = "#4caf50").
Proof.
  cbv zeta. cbn [postTimer fst snd timers timersFile timer_id timer_name
                 timer_color].
  split; [|split; [|split; [|split; [|split; [|split; [|split; [|split]]]]]]].
  - intros Hfresh. unfold deleteTimer. cbn [timers].
    rewrite filter_app, filter_cons_False by (intros H; now apply H).
    rewrite filter_nil, app_nil_r. now apply filter_all.
  - intros otherClock c b st' H. now apply jsIntToString_inj.
  - intros t. unfold deleteTimer. cbn [timers].
    rewrite list_elem_of_filter. tauto.
  - unfold deleteTimer. cbn [timers]. apply sublist_filter.
  - reflexivity.
  - reflexivity.
  - apply last_snoc.
  - intros [-> | ->]; reflexivity.
  - intros [-> | ->]; reflexivity.
Qed.

Lemma timer_create_delete_witness :
  timers (deleteTimer "1700000000000"
            (postTimer 1700000000000 1700000000001
               {| body_name := Some "Tea"; body_targetTime := None;
                  body_color := None |}
               {| timers := []; timersFile := None |}).1)
  = [].
Proof.
  refine (proj1 (timer_create_delete 1700000000000 1700000000001
            {| body_name := Some "Tea"; body_targetTime := None;
               body_color := None |}
            {| timers := []; timersFile := None |} "x") _).
  intros t Ht. apply elem_of_nil in Ht. contradiction.
Defined.

(** ** Daily highs and lows of the weather forecast (lines 594-618) *)

Lemma lookupDay_None (dateStr : string) (days : list DailyForecast) :
  lookupDay dateStr days = None <-> dateStr ∉ date <$> days.
Proof.
  unfold lookupDay. induction days as [|d days IH]; cbn.
  - split; [intros _ H; now apply elem_of_nil in H | reflexivity].
  - rewrite not_elem_of_cons. case_bool_decide as Hd.
    + split; [discriminate | intros [Hne _]; now contradiction Hne].
    + rewrite IH. split; [intros H; split; [congruence | exact H] | tauto].
Qed.

Lemma dates_updateDay (dateStr : string) (f : DailyForecast -> DailyForecast)
    (days : list DailyForecast) :
  (forall d, date (f d) = date d) ->
  date <$> updateDay dateStr f days = date <$> days.
Proof.
  intros Hf. unfold updateDay. rewrite <- list_fmap_compose.
  apply list_fmap_ext. intros i d _. cbn.
  case_bool_decide; [apply Hf | reflexivity].
Qed.

Lemma dates_addForecast (isoDate : Z -> string) (days : list DailyForecast)
    (f : ForecastItem) :
  date <$> addForecast isoDate days f =
  if decide (dateStrOf isoDate f ∈ date <$> days) then date <$> days
  else (date <$> days) ++ [dateStrOf isoDate f].
Proof.
  unfold addForecast. cbv zeta.
  destruct (lookupDay (dateStrOf isoDate f) days) eqn:Hl.
  - rewrite decide_True.
    + now apply dates_updateDay.
    + destruct (decide (dateStrOf isoDate f ∈ date <$> days)) as [|Hn];
        [assumption|]. apply lookupDay_None in Hn. congruence.
  - apply lookupDay_None in Hl. rewrite decide_False by exact Hl.
    now rewrite fmap_app.
Qed.

Lemma dates_foldl_prefix (isoDate : Z -> string) (fs : list ForecastItem)
    (days : list DailyForecast) :
  (date <$> days) `prefix_of` (date <$> foldl (addForecast isoDate) days fs).
Proof.
  revert days. induction fs as [|f fs IH]; intros days; cbn; [reflexivity|].
  etrans; [|apply IH]. rewrite dates_addForecast.
  destruct (decide _); [reflexivity | now apply prefix_app_r].
Qed.

Lemma itemsOn_snoc (isoDate : Z -> string) (day : string)
    (fs : list ForecastItem) (f : ForecastItem) :
  itemsOn isoDate day (fs ++ [f]) =
  if decide (dateStrOf isoDate f = day) then itemsOn isoDate day fs ++ [f]
  else itemsOn isoDate day fs.
Proof.
  unfold itemsOn. rewrite filter_app, filter_cons, filter_nil.
  destruct (decide _); [reflexivity | now rewrite app_nil_r].
Qed.

Lemma itemsOn_empty (isoDate : Z -> string) (day : string)
    (fs : list ForecastItem) :
  (forall f, f ∈ fs -> dateStrOf isoDate f <> day) ->
  itemsOn isoDate day fs = [].
Proof. intros H. now apply filter_none. Qed.

Lemma summarisesDay_other (isoDate : Z -> string) (fs : list ForecastItem)
    (f : ForecastItem) (d : DailyForecast) :
  dateStrOf isoDate f <> date d ->
  summarisesDay isoDate fs d -> summarisesDay isoDate (fs ++ [f]) d.
Proof.
  intros Hne. unfold summarisesDay. cbv zeta.
  rewrite itemsOn_snoc, decide_False by exact Hne. tauto.
Qed.

Lemma summarisesDay_first (isoDate : Z -> string) (fs : list ForecastItem)
    (f : ForecastItem) :
  (forall g, g ∈ fs -> dateStrOf isoDate g <> dateStrOf isoDate f) ->
  summarisesDay isoDate (fs ++ [f])
    {| date := dateStrOf isoDate f;
       high := jsRound (forecast_temp f); low := jsRound (forecast_temp f);
       description := forecast_main f; icon := forecast_icon f |}.
Proof.
  intros Hnew. unfold summarisesDay. cbv zeta. cbn [date high low description icon].
  rewrite itemsOn_snoc, decide_True by reflexivity.
  rewrite (itemsOn_empty _ _ _ Hnew). cbn [app head].
  split; [apply Forall_cons_2; [lia | apply Forall_nil_2]|].
  split; [exists f; split; [apply list_elem_of_here | reflexivity]|].
  split; [exists f; split; [apply list_elem_of_here | reflexivity]|].
  exists f. repeat split.
Qed.

Lemma summarisesDay_again (isoDate : Z -> string) (fs : list ForecastItem)
    (f : ForecastItem) (d : DailyForecast) :
  dateStrOf isoDate f = date d ->
  summarisesDay isoDate fs d ->
  summarisesDay isoDate (fs ++ [f])
    {| date := date d;
       high := Z.max (high d) (jsRound (forecast_temp f));
       low := Z.min (low d) (jsRound (forecast_temp f));
       description := description d; icon := icon d |}.
Proof.
  intros Hsame (Hall & (fh & Hfh & Hh) & (fl & Hfl & Hl) & (f0 & Hhead & Hd & Hi)).
  unfold summarisesDay. cbv zeta. cbn [date high low description icon].
  rewrite itemsOn_snoc, decide_True by exact Hsame.
  split; [|split; [|split]].
  - apply Forall_app. split.
    + eapply Forall_impl; [exact Hall|]. cbn. intros g Hg. lia.
    + apply Forall_cons_2; [lia | apply Forall_nil_2].
  - destruct (Z.max_spec (high d) (jsRound (forecast_temp f))) as [[_ ->] | [_ ->]].
    + exists f. split; [apply elem_of_app; right; apply list_elem_of_here | reflexivity].
    + exists fh. split; [apply elem_of_app; now left | exact Hh].
  - destruct (Z.min_spec (low d) (jsRound (forecast_temp f))) as [[_ ->] | [_ ->]].
    + exists fl. split; [apply elem_of_app; now left | exact Hl].
    + exists f. split; [apply elem_of_app; right; apply list_elem_of_here | reflexivity].
  - exists f0. split; [|split; assumption].
    destruct (itemsOn isoDate (date d) fs); [discriminate | exact Hhead].
Qed.

Lemma grouped_addForecast (isoDate : Z -> string) (fs : list ForecastItem)
    (days : list DailyForecast) (f : ForecastItem) :
  grouped isoDate fs days ->
  grouped isoDate (fs ++ [f]) (addForecast isoDate days f).
Proof.
  intros (Hnd & Hmem & Hall). unfold grouped.
  rewrite dates_addForecast.
  destruct (decide (dateStrOf isoDate f ∈ date <$> days)) as [Hin | Hout].
  - split; [exact Hnd|]. split.
    + intros day. rewrite Hmem. split.
      * intros (g & Hg & Hday). exists g. split; [apply elem_of_app; now left | exact Hday].
      * intros (g & Hg & Hday). apply elem_of_app in Hg as [Hg | Hg].
        -- now exists g.
        -- apply list_elem_of_singleton in Hg. subst g. apply Hmem.
           now rewrite <- Hday.
    + unfold addForecast. cbv zeta.
      destruct (lookupDay (dateStrOf isoDate f) days) as [found|] eqn:Hl;
        [|apply lookupDay_None in Hl; contradiction].
      unfold updateDay. apply Forall_fmap.
      eapply Forall_impl; [exact Hall|]. intros day Hday. cbn.
      case_bool_decide as Hdate.
      * apply summarisesDay_again; [now symmetry | exact Hday].
      * apply summarisesDay_other; [congruence | exact Hday].
  - assert (Hnew : forall g, g ∈ fs -> dateStrOf isoDate g <> dateStrOf isoDate f).
    { intros g Hg Heq. apply Hout, Hmem. now exists g. }
    split; [|split].
    + apply NoDup_app. split; [exact Hnd|]. split; [|apply NoDup_singleton].
      intros day Hday Hday'. apply list_elem_of_singleton in Hday'. now subst day.
    + intros day. rewrite elem_of_app, Hmem, list_elem_of_singleton. split.
      * intros [(g & Hg & Hday) | ->].
        -- exists g. split; [apply elem_of_app; now left | exact Hday].
        -- exists f. split; [apply elem_of_app; right; apply list_elem_of_here | reflexivity].
      * intros (g & Hg & Hday). apply elem_of_app in Hg as [Hg | Hg].
        -- left. now exists g.
        -- apply list_elem_of_singleton in Hg. subst g. now right.
    + unfold addForecast. cbv zeta.
      destruct (lookupDay (dateStrOf isoDate f) days) as [found|] eqn:Hl.
      { exfalso. apply Hout. destruct (decide (dateStrOf isoDate f ∈ date <$> days)) as [|Hn];
          [assumption|]. apply lookupDay_None in Hn. congruence. }
      apply Forall_app. split.
      * eapply Forall_forall. intros d Hd.
        apply summarisesDay_other.
        -- intros Heq. apply Hout. rewrite Heq. apply list_elem_of_fmap. now exists d.
        -- rewrite Forall_forall in Hall. now apply Hall.
      * apply Forall_cons_2; [now apply summarisesDay_first | apply Forall_nil_2].
Qed.

Lemma grouped_dailyForecasts (isoDate : Z -> string) (fs : list ForecastItem) :
  grouped isoDate fs (dailyForecasts isoDate fs).
Proof.
  unfold dailyForecasts. induction fs as [|f fs IH] using rev_ind.
  - split; [apply NoDup_nil_2|]. split; [|apply Forall_nil_2].
    intros day. cbn. split.
    + intros H. now apply elem_of_nil in H.
    + intros (g & Hg & _). now apply elem_of_nil in Hg.
  - rewrite foldl_app. cbn [foldl]. now apply grouped_addForecast.
Qed.

(** X16. The daily forecast has one entry per calendar date that occurs in
    the forecast list, dates in the order in which they first occur (the
    dates found in any initial part of the list are an initial part of the
    dates found in all of it). An entry's high and low are the largest and
    the smallest rounded temperature among the forecast entries of its
    date, so low <= high, and its description and icon are those of the
    first forecast entry of the date. The route returns the first five
    dates. *)
Theorem daily_forecast_grouping (isoDate : Z -> string)
    (fs : list ForecastItem) :
  let days := dailyForecasts isoDate fs in
  NoDup (date <$> days) /\
  (forall day, day ∈ date <$> days <->
               exists f, f ∈ fs /\ dateStrOf isoDate f = day) /\
  (forall d, d ∈ days ->
     let items := itemsOn isoDate (date d) fs in
     Forall (fun f => low d <= jsRound (forecast_temp f) <= high d) items /\
     (exists f, f ∈ items /\ high d = jsRound (forecast_temp f)) /\
     (exists f, f ∈ items /\ low d = jsRound (forecast_temp f)) /\
     (exists f, head items = Some f /\
                description d = forecast_main f /\ icon d = forecast_icon f) /\
     low d <= high d) /\
  (forall k, (date <$> dailyForecasts isoDate (take k fs))
             `prefix_of` (date <$> days)) /\
  dailyArray isoDate fs = take 5 days /\
  (length (dailyArray isoDate fs) <= 5)%nat /\
  (forall d, d ∈ dailyArray isoDate fs -> d ∈ days).
Proof.
  cbv zeta. destruct (grouped_dailyForecasts isoDate fs) as (Hnd & Hmem & Hall).
  split; [exact Hnd|]. split; [exact Hmem|]. split; [|split; [|split; [|split]]].
  - intros d Hd. rewrite Forall_forall in Hall.
    destruct (Hall d Hd) as (Hrange & (fh & Hfh & Hh) & Hlow & Hfirst).
    split; [exact Hrange|]. split; [now exists fh|]. split; [exact Hlow|].
    split; [exact Hfirst|].
    rewrite Forall_forall in Hrange. specialize (Hrange fh Hfh). lia.
  - intros k. unfold dailyForecasts.
    rewrite <- (take_drop k fs) at 2. rewrite foldl_app.
    apply dates_foldl_prefix.
  - reflexivity.
  - unfold dailyArray. rewrite length_take. lia.
  - intros d Hd. unfold dailyArray in Hd.
    eapply sublist_subseteq; [apply sublist_take | exact Hd].
Qed.

(** ** Alarm panel and sensors (lines 876-917) *)

Lemma jsIntToString_not_open (n : Z) : jsIntToString n <> "open"%string.
Proof.
  unfold jsIntToString. destruct (n <? 0).
  - unfold String.app. discriminate.
  - intros H. pose proof (decimalDigits_parse n) as Hp.
    rewrite H in Hp. vm_compute in Hp. discriminate.
Qed.

Lemma ALARM_SENSOR_STATES_None (state : Z) :
  ~ (0 <= state <= 5) -> ALARM_SENSOR_STATES state = None.
Proof.
  intros Hout.
  destruct state as [|[[[]|[]|]|[[]|[]|]|]|]; try reflexivity; lia.
Qed.

Lemma ALARM_PANEL_STATES_None (state : Z) :
  ~ (1 <= state <= 4) -> ALARM_PANEL_STATES state = None.
Proof.
  intros Hout.
  destruct state as [|[[[]|[]|]|[[]|[]|]|]|]; try reflexivity; lia.
Qed.

Lemma sensorOf_open (s : SensorAttributes) :
  sensor_state (sensorOf s) = "open"%string <-> attributes_state s = 2.
Proof.
  unfold sensorOf. cbn [sensor_state].
  destruct (decide (0 <= attributes_state s <= 5)) as [Hin | Hout].
  - assert (Hcases : attributes_state s = 0 \/ attributes_state s = 1 \/
                     attributes_state s = 2 \/ attributes_state s = 3 \/
                     attributes_state s = 4 \/ attributes_state s = 5) by lia.
    destruct Hcases as [-> | [-> | [-> | [-> | [-> | ->]]]]]; cbn;
      split; intros H; try reflexivity; discriminate.
  - rewrite (ALARM_SENSOR_STATES_None _ Hout). split.
    + intros H. now apply jsIntToString_not_open in H.
    + intros H. lia.
Qed.

(** X17. The open sensors of the alarm result are exactly the reported
    sensors whose raw state is 2 and whose name is none of the seven
    non-entry names, in the order reported: no other raw state, named or
    not, is printed as "open". Every reported sensor is listed, with its
    raw state. The panel counts as armed exactly when its state exceeds 1:
    for the three named armed states, and also for every state above 4,
    whose label is "Unknown (n)"; a missing active-alarm flag reads as no
    alarm. *)
Theorem alarm_result_spec (state : Z) (hasActiveAlarm : option bool)
    (reported : list SensorAttributes) :
  let r := alarmResult state hasActiveAlarm reported in
  openSensors r =
    sensorOf <$> filter (fun s => attributes_state s = 2 /\
                                  attributes_description s ∉ nonEntrySensors)
                        reported /\
  (forall s, s ∈ openSensors r <->
             s ∈ sensors r /\ rawState s = 2 /\ sensor_name s ∉ nonEntrySensors) /\
  openSensors r `sublist_of` sensors r /\
  rawState <$> sensors r = attributes_state <$> reported /\
  sensor_name <$> sensors r = attributes_description <$> reported /\
  (armed r = true <-> 1 < state) /\
  (armed r = true /\ 2 <= state <= 4 ->
   panel r ∈ ["Armed Stay"; "Armed Away"; "Armed Night"]) /\
  (4 < state ->
   armed r = true /\ panel r = "Unknown (" +:+ jsIntToString state +:+ ")") /\
  (state <= 1 -> armed r = false) /\
  (hasActiveAlarm = None -> hasAlarm r = false).
Proof.
  cbv zeta. cbn [alarmResult openSensors sensors armed panel hasAlarm].
  assert (Hopen : filter (fun s => sensor_state s = "open"%string /\
                                   sensor_name s ∉ nonEntrySensors)
                         (sensorOf <$> reported) =
                  sensorOf <$> filter (fun s => attributes_state s = 2 /\
                                   attributes_description s ∉ nonEntrySensors)
                                      reported).
  { induction reported as [|s reported IH]; [reflexivity|].
    rewrite fmap_cons, !filter_cons, IH.
    destruct (decide (attributes_state s = 2 /\
                      attributes_description s ∉ nonEntrySensors)) as [Hy | Hn].
    - rewrite decide_True; [reflexivity|]. rewrite sensorOf_open. exact Hy.
    - rewrite decide_False; [reflexivity|]. rewrite sensorOf_open. exact Hn. }
  split; [exact Hopen|].
  split; [|split; [|split; [|split; [|split; [|split; [|split; [|split]]]]]]].
  - intros s. rewrite list_elem_of_filter. split.
    + intros [[Hs Hname] Hin]. split; [exact Hin|]. split; [|exact Hname].
      apply list_elem_of_fmap in Hin as (a & -> & _).
      now apply sensorOf_open in Hs.
    + intros (Hin & Hraw & Hname). split; [|exact Hin]. split; [|exact Hname].
      apply list_elem_of_fmap in Hin as (a & -> & _).
      now apply sensorOf_open.
  - apply sublist_filter.
  - rewrite <- list_fmap_compose. reflexivity.
  - rewrite <- list_fmap_compose. reflexivity.
  - apply Z.ltb_lt.
  - intros [_ Hrange].
    assert (Hcases : state = 2 \/ state = 3 \/ state = 4) by lia.
    destruct Hcases as [-> | [-> | ->]]; cbn [ALARM_PANEL_STATES];
      repeat first [apply list_elem_of_here | apply list_elem_of_further].
  - intros Hbig. split; [apply Z.ltb_lt; lia|].
    rewrite ALARM_PANEL_STATES_None by lia. reflexivity.
  - intros Hsmall. now apply Z.ltb_ge.
  - intros ->. reflexivity.
Qed.

Lemma alarm_result_spec_witness :
  openSensors (alarmResult 7 None
     [ {| attributes_description := "Front Door"; attributes_state := 2 |};
       {| attributes_description := "Glass Break"; attributes_state := 2 |};
       {| attributes_description := "Back Door"; attributes_state := 1 |} ])
  = [ {| sensor_name := "Front Door"; sensor_state := "open"; rawState := 2 |} ] /\
  armed (alarmResult 7 None []) = true.
Proof.
  split.
  - etrans; [exact (proj1 (alarm_result_spec 7 None _))|]. reflexivity.
  - refine (proj1 (proj1 (proj2 (proj2 (proj2 (proj2 (proj2 (proj2 (proj2
             (alarm_result_spec 7 None [])))))))) _)). lia.
Defined.
